(** * Heat-map rendering of [geo_activity_playground/heatmap.py]

    A shallow embedding of [render_heatmap] and of the numpy operations it is
    written with, followed by the properties of the tile search, the tile
    budget, the splatting, the histogram equalisation, the normalisation and
    the compositing.

    Conventions of the embedding.
    - Python [int] values are [Z].
    - A [float64] is an exact rational ([Q]); rounding errors are not part of
      the model.  The one place where the program can leave the finite
      numbers, the division of line 184, has the extended type [npfloat].
    - A two-dimensional [ndarray] is a list of rows.
    - [exit], [ValueError] and the tile requests are explicit: [render_heatmap]
      runs in a small logging error monad. *)

From Stdlib Require Import String ZArith QArith Qround Qminmax List Bool Lia Lqa.
Import ListNotations.

Local Open Scope Z_scope.

(** ** Module constants (lines 36-42) *)

Definition MAX_TILE_COUNT : Z := 2000.
Definition MAX_HEATMAP_SIZE : Z * Z := (2160, 3840).
Definition OSM_TILE_SIZE : Z := 256.
Definition OSM_MAX_ZOOM : Z := 19.

(** ** Python and numpy scalars *)

(** [int(x)] on a float: truncation towards zero. *)
Definition py_int (q : Q) : Z := Z.quot (Qnum q) (Zpos (Qden q)).

(** [np.round(x)]: to the nearest integer, ties to the even one. *)
Definition np_round (q : Q) : Z :=
  let f := Qfloor q in
  match Qcompare (q - inject_Z f) (1 # 2) with
  | Lt => f
  | Gt => f + 1
  | Eq => if Z.even f then f else f + 1
  end.

(** [range(a, b)]. *)
Definition py_range (a b : Z) : list Z :=
  map (fun k => a + Z.of_nat k) (seq 0 (Z.to_nat (b - a))).

(** IEEE results of a division ([numpy] warns and goes on).  A finite
    quotient is kept in lowest terms, so that a number has one representation
    when it reaches the colour map. *)
Inductive npfloat : Type :=
| Fin (q : Q)
| Inf (negative : bool)
| NaN.

Definition np_divide (a b : Q) : npfloat :=
  if Qeq_bool b 0 then
    (if Qeq_bool a 0 then NaN else Inf (if Qle_bool 0 a then false else true))
  else Fin (Qred (a / b)).

(** ** Arrays *)

Definition grid (A : Type) : Type := list (list A).

Definition zlength {A} (l : list A) : Z := Z.of_nat (length l).

(** [a.shape == (h, w)]. *)
Definition has_shape {A} (a : grid A) (h w : Z) : bool :=
  (zlength a =? h) && forallb (fun row => zlength row =? w) a.

Definition full {A} (h w : Z) (v : A) : grid A :=
  repeat (repeat v (Z.to_nat w)) (Z.to_nat h).

(** Map with the index, counted from [k]. *)
Fixpoint mapi_from {A B} (f : Z -> A -> B) (k : Z) (l : list A) : list B :=
  match l with
  | [] => []
  | x :: l' => f k x :: mapi_from f (k + 1) l'
  end.

Definition mapi {A B} (f : Z -> A -> B) (l : list A) : list B := mapi_from f 0 l.

(** Element [(r, c)], for indices inside the array. *)
Definition cell {A} (d : A) (a : grid A) (r c : Z) : A :=
  nth (Z.to_nat c) (nth (Z.to_nat r) a []) d.

(** [slice(start, stop).indices(len)] for step 1: a negative bound counts from
    the end, and both bounds are clipped to [0, len]. *)
Definition slice_bound (len v : Z) : Z :=
  if v <? 0 then Z.max (v + len) 0 else Z.min v len.

Definition in_slice (len start stop k : Z) : bool :=
  (slice_bound len start <=? k) && (k <? slice_bound len stop).

(** [a[r0:r1, c0:c1] = f(a[r0:r1, c0:c1])], elementwise. *)
Definition update_window {A} (f : A -> A) (a : grid A) (r0 r1 c0 c1 : Z) : grid A :=
  mapi (fun r row =>
          if in_slice (zlength a) r0 r1 r
          then mapi (fun c v => if in_slice (zlength row) c0 c1 c then f v else v) row
          else row) a.

(** ** Splatting (lines 145-159) *)

Definition sigma_pixel : Z := 1.

(** One iteration of [for j, i in xy_data.astype(int)]:
    [data[i - sigma_pixel : i + sigma_pixel, j - sigma_pixel : j + sigma_pixel] += 1.0]. *)
Definition splat_point (data : grid Q) (ji : Z * Z) : grid Q :=
  let '(j, i) := ji in
  update_window (fun v => (v + 1)%Q) data
                (i - sigma_pixel) (i + sigma_pixel)
                (j - sigma_pixel) (j + sigma_pixel).

Definition splat (data : grid Q) (xy_data : list (Z * Z)) : grid Q :=
  fold_left splat_point xy_data data.

(** ** Dynamic-range compression (lines 161-178) *)

(** [np.min] and [np.max] of a flat array; [None] stands for the
    [ValueError] that numpy raises on a zero-size array. *)
Definition np_min (a : list Q) : option Q :=
  match a with
  | [] => None
  | x :: l => Some (fold_left Qmin l x)
  end.

Definition np_max (a : list Q) : option Q :=
  match a with
  | [] => None
  | x :: l => Some (fold_left Qmax l x)
  end.

(** [data[data > m] = m]. *)
Definition clip (m : Q) (data : grid Q) : grid Q :=
  map (map (fun v => if Qlt_le_dec m v then m else v)) data.

(** The bin of [v] among [bins] equal-width bins that span [first, last]; the
    last bin is closed on the right.  The edges are exact here; numpy
    computes them in floating point, and a datum that lies on an inner edge
    can fall on the other side of it there. *)
Definition bin_index (first last : Q) (bins : Z) (v : Q) : Z :=
  if Qeq_bool v last then bins - 1
  else Qfloor ((v - first) * inject_Z bins / (last - first)).

(** The range [np.histogram] works on when none is given: the extrema of the
    data ([(0, 1)] for no data), widened by one half when they coincide. *)
Definition histogram_range (a : list Q) : Q * Q :=
  let '(first, last) :=
    match np_min a, np_max a with
    | Some lo, Some hi => (lo, hi)
    | _, _ => (0, 1)%Q
    end in
  if Qeq_bool first last then (first - (1 # 2), last + (1 # 2))%Q else (first, last).

Definition count_if {A} (p : A -> bool) (l : list A) : Z := zlength (filter p l).

(** [np.histogram(a, bins=bins)[0]] for an integer [bins]; [None] stands for
    the [ValueError] raised when [bins] is not positive.  numpy also refuses
    a number of bins too large to allocate; that limit depends on the machine
    and is left out, so a statement that the histogram is answered holds for
    the numbers of bins numpy accepts. *)
Definition np_histogram (a : list Q) (bins : Z) : option (list Z) :=
  if bins <? 1 then None
  else
    let '(first, last) := histogram_range a in
    Some (map (fun k => count_if (fun v => bin_index first last bins v =? k) a)
              (py_range 0 bins)).

(** [np.cumsum]. *)
Fixpoint cumsum_from (acc : Z) (l : list Z) : list Z :=
  match l with
  | [] => []
  | x :: l' => (acc + x) :: cumsum_from (acc + x) l'
  end.

Definition np_cumsum (l : list Z) : list Z := cumsum_from 0 l.

(** [a[k]] on a sequence: a negative index counts from the end; [None] stands
    for [IndexError]. *)
Definition py_getitem {A} (a : list A) (k : Z) : option A :=
  let k' := if k <? 0 then k + zlength a else k in
  if (0 <=? k') && (k' <? zlength a) then nth_error a (Z.to_nat k') else None.

Fixpoint traverse {A B} (f : A -> option B) (l : list A) : option (list B) :=
  match l with
  | [] => Some []
  | x :: l' =>
      match f x, traverse f l' with
      | Some y, Some ys => Some (y :: ys)
      | _, _ => None
      end
  end.

(** [data.size]. *)
Definition size {A} (data : grid A) : Z := zlength (concat data).

(** Line 174, [np.cumsum(data_hist) / data.size].  The size is zero only for an
    empty grid, whose remapping loop reads no entry. *)
Definition normalized_cumulated (hist : list Z) (sz : Z) : list Q :=
  map (fun c => inject_Z c / inject_Z sz)%Q (np_cumsum hist).

(** Lines 176-178: [data[i, j] = m * data_hist[int(data[i, j])]]. *)
Definition remap (m : Z) (data_hist : list Q) (data : grid Q) : option (grid Q) :=
  traverse (traverse (fun v => option_map (fun h => inject_Z m * h)%Q
                                          (py_getitem data_hist (py_int v)))) data.

Inductive exn : Type :=
| ValueError
| IndexError
| SystemExit (msg : string).

Inductive outcome (A : Type) : Type :=
| Ok (a : A)
| Raise (e : exn)
| OutOfFuel.

Arguments Ok {A} a.
Arguments Raise {A} e.
Arguments OutOfFuel {A}.

Definition or_raise {A} (e : exn) (o : option A) : outcome A :=
  match o with
  | Some a => Ok a
  | None => Raise e
  end.

(** Lines 169-178 for a ceiling [m] already computed. *)
Definition equalize (m : Z) (data : grid Q) : outcome (grid Q) :=
  let data := clip (inject_Z m) data in
  match np_histogram (concat data) (m + 1) with
  | None => Raise ValueError
  | Some data_hist =>
      let data_hist := normalized_cumulated data_hist (size data) in
      or_raise IndexError (remap m data_hist data)
  end.

(** The histogram the specification describes: bin [k] counts the pixels of
    value [k], for [k = 0 .. m]. *)
Definition integer_histogram (a : list Q) (m : Z) : list Z :=
  map (fun k => count_if (fun v => Qeq_bool v (inject_Z k)) a) (py_range 0 (m + 1)).

(** The equalisation the specification describes, with [integer_histogram] in
    the place of [np.histogram]. *)
Definition equalize_spec (m : Z) (data : grid Q) : outcome (grid Q) :=
  let data := clip (inject_Z m) data in
  let data_hist := normalized_cumulated (integer_histogram (concat data) m) (size data) in
  or_raise IndexError (remap m data_hist data).

(** ** Normalisation (line 184) *)

(** [(data - data.min()) / (data.max() - data.min())]. *)
Definition normalize (data : grid Q) : outcome (grid npfloat) :=
  match np_min (concat data), np_max (concat data) with
  | Some lo, Some hi => Ok (map (map (fun x => np_divide (x - lo) (hi - lo))) data)
  | _, _ => Raise ValueError
  end.

(** ** Colours and compositing (lines 186-195) *)

Record rgb : Type := mk_rgb { red : Q; green : Q; blue : Q }.

Record rgba : Type := mk_rgba { c_red : Q; c_green : Q; c_blue : Q; c_alpha : Q }.

(** Channel [c] of a pixel of [supertile], [c] in [range(3)]. *)
Definition channel (p : rgb) (c : Z) : Q :=
  match c with
  | 0 => red p
  | 1 => green p
  | _ => blue p
  end.

(** Channel [c] of a pixel of [data_color], [c] in [range(4)]. *)
Definition color_channel (p : rgba) (c : Z) : Q :=
  match c with
  | 0 => c_red p
  | 1 => c_green p
  | 2 => c_blue p
  | _ => c_alpha p
  end.

Definition rgba_eqb (p q : rgba) : bool :=
  Qeq_bool (c_red p) (c_red q) && Qeq_bool (c_green p) (c_green q)
  && Qeq_bool (c_blue p) (c_blue q) && Qeq_bool (c_alpha p) (c_alpha q).

(** Line 190 on one pixel, [data_color[data_color == cmap(0.0)] = 0.0]: the
    comparison broadcasts the four numbers of [cmap(0.0)] over the last axis,
    so the mask is computed number by number. *)
Definition remove_background (background p : rgba) : rgba :=
  let zero_if_equal (v b : Q) : Q := if Qeq_bool v b then 0%Q else v in
  mk_rgba (zero_if_equal (c_red p) (c_red background))
          (zero_if_equal (c_green p) (c_green background))
          (zero_if_equal (c_blue p) (c_blue background))
          (zero_if_equal (c_alpha p) (c_alpha background)).

(** The reading of the specification: a pixel whose colour equals the
    background colour is zeroed, any other pixel is kept. *)
Definition remove_background_spec (background p : rgba) : rgba :=
  if rgba_eqb p background then mk_rgba 0 0 0 0 else p.

(** Lines 192-195 on one pixel. *)
Definition blend (color : rgba) (pixel : rgb) : rgb :=
  mk_rgb ((1 - c_red color) * red pixel + c_red color)
         ((1 - c_green color) * green pixel + c_green color)
         ((1 - c_blue color) * blue pixel + c_blue color).

Fixpoint map2 {A B C} (f : A -> B -> C) (l : list A) (l' : list B) : list C :=
  match l, l' with
  | x :: t, y :: t' => f x y :: map2 f t t'
  | _, _ => []
  end.

(** Lines 192-195; both arrays have the shape of [supertile] in
    [render_heatmap]. *)
Definition composite (data_color : grid rgba) (supertile : grid rgb) : grid rgb :=
  map2 (map2 blend) data_color supertile.

(** ** The mosaic (lines 116-142) *)

(** A tile image as [get_tile] delivers it: 256 rows of 256 pixels with 8-bit
    channels, read here by row and column. *)
Definition tile : Type := Z -> Z -> Z * Z * Z.

(** [np.array(tile) / 255], then [[:, :, :3]], at one pixel. *)
Definition tile_pixel (t : tile) (r c : Z) : rgb :=
  let '(r8, g8, b8) := t r c in
  mk_rgb (inject_Z r8 / 255) (inject_Z g8 / 255) (inject_Z b8 / 255).

(** Lines 134-138: the block [(i, j)] of [supertile] receives the tile. *)
Definition place_tile (supertile : grid rgb) (i j : Z) (t : tile) : grid rgb :=
  mapi (fun r row =>
          if in_slice (zlength supertile) (i * OSM_TILE_SIZE) ((i + 1) * OSM_TILE_SIZE) r
          then mapi (fun c v =>
                       if in_slice (zlength row) (j * OSM_TILE_SIZE) ((j + 1) * OSM_TILE_SIZE) c
                       then tile_pixel t (r - i * OSM_TILE_SIZE) (c - j * OSM_TILE_SIZE)
                       else v) row
          else row) supertile.

(** Lines 140-142 on one pixel: luminance, inversion, back to three channels. *)
Definition inverted_gray (p : rgb) : rgb :=
  let s := (1 - (red p * (2126 # 10000) + green p * (7152 # 10000) + blue p * (722 # 10000)))%Q in
  mk_rgb s s s.

(** ** Tile rectangle and zoom (lines 85-114) *)

(** The four extrema of lines 86-87, kept in the record of the module. *)
Record GeoBounds : Type := mk_bounds {
  lat_bound_min : Q;
  lat_bound_max : Q;
  lon_bound_min : Q;
  lon_bound_max : Q
}.

Record TileRect : Type := mk_rect {
  x_tile_min : Z;
  x_tile_max : Z;
  y_tile_min : Z;
  y_tile_max : Z
}.

(** What [render_heatmap] takes from outside the module: the projection of
    [core.tiles], the cosine of numpy, the tile source, the Fourier
    convolution inside [gaussian_filter] and the colour map of matplotlib. *)
Class Externals : Type := {
  latlon_to_xy : Q -> Q -> Z -> Q * Q;
  cos_radians : Q -> Q;
  get_tile : Z -> Z -> Z -> tile;
  filtered_value : grid Q -> Q -> Z -> Z -> Q;
  cmap : npfloat -> rgba
}.

(** [np.min(lat_lon_data, axis=0)] and [np.max(lat_lon_data, axis=0)]. *)
Definition bounds_of (lat_lon_data : list (Q * Q)) : option GeoBounds :=
  match np_min (map fst lat_lon_data), np_min (map snd lat_lon_data),
        np_max (map fst lat_lon_data), np_max (map snd lat_lon_data) with
  | Some lat_min, Some lon_min, Some lat_max, Some lon_max =>
      Some (mk_bounds lat_min lat_max lon_min lon_max)
  | _, _, _, _ => None
  end.

Section Render.

Context {ext : Externals}.

(** Lines 92-93 and 99-100. *)
Definition tile_rect (b : GeoBounds) (zoom : Z) : TileRect :=
  let '(x_min, y_max) := latlon_to_xy (lat_bound_min b) (lon_bound_min b) zoom in
  let '(x_max, y_min) := latlon_to_xy (lat_bound_max b) (lon_bound_max b) zoom in
  mk_rect (py_int x_min) (py_int x_max) (py_int y_min) (py_int y_max).

Definition tiles_x (t : TileRect) : Z := x_tile_max t - x_tile_min t + 1.
Definition tiles_y (t : TileRect) : Z := y_tile_max t - y_tile_min t + 1.

(** The test of lines 102-104. *)
Definition fits (t : TileRect) : bool :=
  (tiles_x t * OSM_TILE_SIZE <=? fst MAX_HEATMAP_SIZE)
  && (tiles_y t * OSM_TILE_SIZE <=? snd MAX_HEATMAP_SIZE).

(** The [while True] of lines 98-107, entered with [zoom]; [None] when the
    fuel is spent before the [break]. *)
Fixpoint auto_zoom (fuel : nat) (b : GeoBounds) (zoom : Z) : option (Z * TileRect) :=
  match fuel with
  | O => None
  | S fuel' =>
      let t := tile_rect b zoom in
      if fits t then Some (zoom, t) else auto_zoom fuel' b (zoom - 1)
  end.

(** Lines 89-107. *)
Definition resolve (fuel : nat) (b : GeoBounds) (arg_zoom : Z) : option (Z * TileRect) :=
  if arg_zoom >? -1 then
    let zoom := Z.min arg_zoom OSM_MAX_ZOOM in
    Some (zoom, tile_rect b zoom)
  else auto_zoom fuel b OSM_MAX_ZOOM.

Definition tile_count (t : TileRect) : Z := tiles_x t * tiles_y t.

(** *** The logging error monad of [render_heatmap] *)

Inductive event : Type :=
| Print_auto_zoom (zoom : Z)
| Get_tile (zoom x y : Z)
| Print_range (lo hi : Q).

Definition M (A : Type) : Type := list event -> list event * outcome A.

Definition ret {A} (a : A) : M A := fun log => (log, Ok a).

Definition bind {A B} (c : M A) (k : A -> M B) : M B :=
  fun log =>
    match c log with
    | (log', Ok a) => k a log'
    | (log', Raise e) => (log', Raise e)
    | (log', OutOfFuel) => (log', OutOfFuel)
    end.

Definition raise {A} (e : exn) : M A := fun log => (log, Raise e).

Definition emit (e : event) : M unit := fun log => (log ++ [e], Ok tt).

Definition lift {A} (o : outcome A) : M A := fun log => (log, o).

Notation "x <- c ;; k" := (bind c (fun x => k))
  (at level 61, c at next level, right associativity).
Notation "' pat <- c ;; k" := (bind c (fun x => match x with pat => k end))
  (at level 61, pat pattern, c at next level, right associativity).
Notation "c ;; k" := (bind c (fun _ => k))
  (at level 61, right associativity).

(** A [for] loop with a body in the monad. *)
Fixpoint for_each {A S} (l : list A) (body : S -> A -> M S) (s : S) : M S :=
  match l with
  | [] => ret s
  | x :: l' => s' <- body s x ;; for_each l' body s'
  end.

(** [np.zeros((h, w, 3))]; numpy refuses a negative dimension. *)
Definition np_zeros (h w : Z) : outcome (grid rgb) :=
  if (h <? 0) || (w <? 0) then Raise ValueError else Ok (full h w (mk_rgb 0 0 0)).

(** Lines 124-138. *)
Definition assemble (zoom : Z) (t : TileRect) (supertile : grid rgb) : M (grid rgb) :=
  for_each (py_range (x_tile_min t) (x_tile_max t + 1))
    (fun supertile x =>
       for_each (py_range (y_tile_min t) (y_tile_max t + 1))
         (fun supertile y =>
            emit (Get_tile zoom x y) ;;
            ret (place_tile supertile (y - y_tile_min t) (x - x_tile_min t)
                            (get_tile zoom x y)))
         supertile)
    supertile.

(** Lines 149-154, with the [astype(int)] of line 156. *)
Definition to_supertile (zoom : Z) (t : TileRect) (lat_lon_data : list (Q * Q)) : list (Z * Z) :=
  map (fun '(lat, lon) =>
         let '(x, y) := latlon_to_xy lat lon zoom in
         (np_round ((x - inject_Z (x_tile_min t)) * inject_Z OSM_TILE_SIZE),
          np_round ((y - inject_Z (y_tile_min t)) * inject_Z OSM_TILE_SIZE)))
      lat_lon_data.

(** [np.mean]. *)
Definition np_mean (a : list Q) : Q :=
  (fold_left Qplus a 0 / inject_Z (zlength a))%Q.

(** Lines 161-163. *)
Definition res_pixel (lat_lon_data : list (Q * Q)) (zoom : Z) : Q :=
  ((15654303 # 100) * cos_radians (np_mean (map fst lat_lon_data)) / 2 ^ zoom)%Q.

(** Line 167. *)
Definition ceiling (lat_lon_data : list (Q * Q)) (zoom num_activities : Z) : Z :=
  np_round ((1 / 5) * res_pixel lat_lon_data zoom * inject_Z num_activities).

(** [gaussian_filter(image, sigma)] (lines 45-71).  The Fourier transforms
    of lines 66-69 are outside the model: the value of each filtered pixel is
    taken from [filtered_value].  The result has the shape of [image], as
    [irfft2] gives it for the even dimensions of a mosaic. *)
Definition gaussian_filter (image : grid Q) (sigma : Q) : grid Q :=
  mapi (fun r row => mapi (fun c _ => filtered_value image sigma r c) row) image.

(** Lines 187-190: [cmap(data)], then the removal of [cmap(0.0)]. *)
Definition colorize (data : grid npfloat) : grid rgba :=
  map (map (remove_background (cmap (Fin 0)))) (map (map cmap) data).

(** The numbers of an image, as [np.min(supertile)] sees them. *)
Definition values (image : grid rgb) : list Q :=
  flat_map (fun p => [red p; green p; blue p]) (concat image).

(** Lines 116-199: the render once the zoom and the tile rectangle are
    settled. *)
Definition render_tiles (zoom : Z) (t : TileRect) (lat_lon_data : list (Q * Q))
           (num_activities : Z) : M (grid rgb) :=
  supertile <- lift (np_zeros (tiles_y t * OSM_TILE_SIZE) (tiles_x t * OSM_TILE_SIZE)) ;;
  supertile <- assemble zoom t supertile ;;
  let supertile := map (map inverted_gray) supertile in
  let data := map (map (fun _ => 0%Q)) supertile in
  let data := splat data (to_supertile zoom t lat_lon_data) in
  let m := ceiling lat_lon_data zoom num_activities in
  data <- lift (equalize m data) ;;
  let data := gaussian_filter data (inject_Z sigma_pixel) in
  data <- lift (normalize data) ;;
  let supertile := composite (colorize data) supertile in
  lo <- lift (or_raise ValueError (np_min (values supertile))) ;;
  hi <- lift (or_raise ValueError (np_max (values supertile))) ;;
  emit (Print_range lo hi) ;;
  ret supertile.

Definition too_many_tiles : exn :=
  SystemExit "ERROR zoom value too high, too many tiles to download".

(** Lines 82-199. *)
Definition render_heatmap (fuel : nat) (lat_lon_data : list (Q * Q))
           (num_activities arg_zoom : Z) : M (grid rgb) :=
  b <- lift (or_raise ValueError (bounds_of lat_lon_data)) ;;
  '(zoom, t) <-
     (if arg_zoom >? -1 then ret (Z.min arg_zoom OSM_MAX_ZOOM,
                                  tile_rect b (Z.min arg_zoom OSM_MAX_ZOOM))
      else match auto_zoom fuel b OSM_MAX_ZOOM with
           | None => lift OutOfFuel
           | Some (zoom, t) => emit (Print_auto_zoom zoom) ;; ret (zoom, t)
           end) ;;
  if tile_count t >? MAX_TILE_COUNT
  then raise too_many_tiles
  else render_tiles zoom t lat_lon_data num_activities.

End Render.

(** ** A concrete world: tracks along the equator *)

(** Modelled from the spec: [latlon_to_xy] of [geo_activity_playground.core.tiles]
    is not among the sources; the specification names it the standard
    slippy-map tiling, [x = (lon + 180) / 360 * 2^zoom] and
    [y = (1 - asinh(tan(lat)) / pi) / 2 * 2^zoom].  The second formula is
    transcendental; on the equator, [lat = 0], it is [2^zoom / 2], and this
    definition is meant for such points only. *)
Definition latlon_to_xy_equator (lat lon : Q) (zoom : Z) : Q * Q :=
  (((lon + 180) / 360 * 2 ^ zoom)%Q, (1 / 2 * 2 ^ zoom)%Q).

(** A tile source that answers every request with a white tile. *)
Definition white_tiles (zoom x y : Z) : tile := fun _ _ => (255, 255, 255).

(** A stand-in for the convolution of [gaussian_filter] that leaves every
    value in place; the statements that use this world stop before line 180
    or do not look at the filtered values. *)
Definition unfiltered (image : grid Q) (sigma : Q) (r c : Z) : Q := cell 0%Q image r c.

(** The colour map [hot] of matplotlib: a table of 256 colours, linear between
    the anchors (0, 0.0416), (0.365079, 1) for red, (0.365079, 0),
    (0.746032, 1) for green and (0.746032, 0), (1, 1) for blue, with alpha 1;
    a NaN gets the transparent colour for bad values. *)
Definition ramp (x0 y0 x1 y1 x : Q) : Q :=
  if Qle_bool x x0 then y0
  else if Qle_bool x1 x then y1
  else (y0 + (y1 - y0) * (x - x0) / (x1 - x0))%Q.

Definition hot_table (i : Z) : rgba :=
  let x := (inject_Z i / 255)%Q in
  mk_rgba (ramp 0 (416 # 10000) (365079 # 1000000) 1 x)
          (ramp (365079 # 1000000) 0 (746032 # 1000000) 1 x)
          (ramp (746032 # 1000000) 0 1 1 x)
          1.

Definition hot (v : npfloat) : rgba :=
  match v with
  | NaN => mk_rgba 0 0 0 0
  | Inf true => hot_table 0
  | Inf false => hot_table 255
  | Fin q =>
      if Qle_bool 1 q then hot_table 255
      else if Qle_bool 0 q then hot_table (Qfloor (q * 256))
      else hot_table 0
  end.

#[export] Instance equator : Externals := {|
  latlon_to_xy := latlon_to_xy_equator;
  cos_radians := fun _ => 1%Q;
  get_tile := white_tiles;
  filtered_value := unfiltered;
  cmap := hot
|}.

(** ** Vocabulary of the statements *)

(** The value of a pixel after line 184 when the grid has variation. *)
Definition rescale (lo hi x : Q) : Q := Qred ((x - lo) / (hi - lo)).

(** A view of the result of a step that can fail. *)
Definition on_ok {A B} (f : A -> B) (o : outcome A) : outcome B :=
  match o with
  | Ok a => Ok (f a)
  | Raise e => Raise e
  | OutOfFuel => OutOfFuel
  end.

(** A pixel count: a whole number between 0 and [m]. *)
Definition whole_up_to (m : Z) (v : Q) : Prop :=
  exists k, 0 <= k <= m /\ (v == inject_Z k)%Q.

(** Whether a grid has the same value everywhere. *)
Definition uniform (g : grid Q) : bool :=
  match np_min (concat g), np_max (concat g) with
  | Some lo, Some hi => Qeq_bool lo hi
  | _, _ => false
  end.

(** The first three channels of a colour, the ones lines 192-195 read. *)
Definition visible (p : rgba) : rgb := mk_rgb (c_red p) (c_green p) (c_blue p).

Definition rgb_eqb (p q : rgb) : bool :=
  Qeq_bool (red p) (red q) && Qeq_bool (green p) (green q) && Qeq_bool (blue p) (blue q).

(** The size test as the specification words it: width against 3840, height
    against 2160. *)
Definition fits_spec (t : TileRect) : bool :=
  (tiles_x t * OSM_TILE_SIZE <=? 3840) && (tiles_y t * OSM_TILE_SIZE <=? 2160).

(** The tile requests of a log, in order. *)
Definition requests (log : list event) : list (Z * Z * Z) :=
  flat_map (fun e => match e with Get_tile z x y => [(z, x, y)] | _ => [] end) log.

(** The tiles of a rectangle in the order of lines 125-126. *)
Definition tiles_of (zoom : Z) (t : TileRect) : list (Z * Z * Z) :=
  flat_map (fun x => map (fun y => (zoom, x, y)) (py_range (y_tile_min t) (y_tile_max t + 1)))
           (py_range (x_tile_min t) (x_tile_max t + 1)).

Definition in_unit (q : Q) : Prop := (0 <= q <= 1)%Q.

Definition rgb_in_unit (p : rgb) : Prop := in_unit (red p) /\ in_unit (green p) /\ in_unit (blue p).

Definition rgba_in_unit (p : rgba) : Prop :=
  in_unit (c_red p) /\ in_unit (c_green p) /\ in_unit (c_blue p) /\ in_unit (c_alpha p).

Definition rgb_eq (p q : rgb) : Prop :=
  (red p == red q /\ green p == green q /\ blue p == blue q)%Q.

(** The bounds lie on the single tile of zoom 0, as the tile scheme of the
    specification has it for every zoom: coordinates in [0, 2^zoom). *)
Definition on_world_tile {ext : Externals} (b : GeoBounds) : Prop :=
  let inside (p : Q * Q) := (0 <= fst p < 1 /\ 0 <= snd p < 1)%Q in
  inside (latlon_to_xy (lat_bound_min b) (lon_bound_min b) 0)
  /\ inside (latlon_to_xy (lat_bound_max b) (lon_bound_max b) 0).

(** ** The kernel of [gaussian_filter] (lines 52-64) *)

(** [np.roll(a, shift)] along one axis: the element at index [k] moves to
    index [(k + shift) mod n]. *)
Definition np_roll {A} (a : list A) (shift : Z) : list A :=
  let n := zlength a in
  if n =? 0 then a
  else skipn (Z.to_nat (n - shift mod n)) a ++ firstn (Z.to_nat (n - shift mod n)) a.

(** [np.roll(a, (s0, s1), axis=(0, 1))]. *)
Definition np_roll2 {A} (a : grid A) (s0 s1 : Z) : grid A :=
  map (fun row => np_roll row s1) (np_roll a s0).

(** Line 56 for one axis, [int(n / 2.0)]. *)
Definition kernel_centre (n : Z) : Z := py_int (inject_Z n / 2).

Section Kernel.

(** [np.exp] and [np.pi] are not rational; they are taken as they come. *)
Variable np_exp : Q -> Q.
Variable np_pi : Q.

(** Lines 58-62 at the indices [i], [j] of the mesh of lines 52-54. *)
Definition gaussian_at (mu0 mu1 : Z) (sigma : Q) (i j : Z) : Q :=
  (1 / (2 * np_pi * sigma * sigma)
   * np_exp (- (1 # 2) * (((inject_Z i - inject_Z mu0) / sigma) ^ 2
                          + ((inject_Z j - inject_Z mu1) / sigma) ^ 2)))%Q.

(** Lines 52-62 for an image of [h] rows and [w] columns. *)
Definition gaussian_kernel (h w : Z) (sigma : Q) : grid Q :=
  map (fun i => map (fun j => gaussian_at (kernel_centre h) (kernel_centre w) sigma i j)
                    (py_range 0 w))
      (py_range 0 h).

(** Line 64. *)
Definition rolled_kernel (h w : Z) (sigma : Q) : grid Q :=
  np_roll2 (gaussian_kernel h w sigma) (- kernel_centre h) (- kernel_centre w).

End Kernel.

(** ** The caller (lines 202-261) *)

(** A row of the table of [read_all_activities], with the three columns
    [main] reads. *)
Record activity_point : Type := mk_point {
  Activity : Z;
  Latitude : Q;
  Longitude : Q
}.

(** A table of [config["heatmaps"]]: keys and numbers, in the order of the
    file. *)
Definition heatmap_spec : Type := list (string * Q).

(** [d[key]]; [None] stands for [KeyError]. *)
Fixpoint dict_get (d : heatmap_spec) (key : string) : option Q :=
  match d with
  | [] => None
  | (k, v) :: d' => if String.eqb k key then Some v else dict_get d' key
  end.

(** Lines 248-254: the rows strictly inside the bounds, in the order of the
    table. *)
Definition inside (b : GeoBounds) (p : activity_point) : bool :=
  negb (Qle_bool (Latitude p) (lat_bound_min b))
  && negb (Qle_bool (lat_bound_max b) (Latitude p))
  && negb (Qle_bool (Longitude p) (lon_bound_min b))
  && negb (Qle_bool (lon_bound_max b) (Longitude p)).

Definition filtered_points (b : GeoBounds) (activities : list activity_point)
  : list activity_point :=
  filter (inside b) activities.

(** Line 255, [np.column_stack]. *)
Definition column_stack (rows : list activity_point) : list (Q * Q) :=
  map (fun p => (Latitude p, Longitude p)) rows.

(** Line 258, [len(filtered_points.Activity.unique())]. *)
Definition unique_activities (rows : list activity_point) : Z :=
  zlength (nodup Z.eq_dec (map Activity rows)).

Inductive main_exn : Type :=
| KeyError (key : string)
| Render_raised (e : exn)
| Render_out_of_fuel.

Inductive main_event : Type :=
| Print_rendering
| During_render (e : event)
| Imsave (filename : string) (heatmap : grid rgb).

(** Lines 242-247: the four keys are read in the order of the arguments. *)
Definition read_bounds (spec : heatmap_spec) : GeoBounds + main_exn :=
  match dict_get spec "bottom" with
  | None => inr (KeyError "bottom")
  | Some bottom =>
      match dict_get spec "top" with
      | None => inr (KeyError "top")
      | Some top =>
          match dict_get spec "left" with
          | None => inr (KeyError "left")
          | Some lon_left =>
              match dict_get spec "right" with
              | None => inr (KeyError "right")
              | Some lon_right => inl (mk_bounds bottom top lon_left lon_right)
              end
          end
      end
  end.

(** Line 260, the name of the file beside the configuration file. *)
Definition output_filename (heatmap_name : string) : string :=
  String.append "Heatmap " (String.append heatmap_name ".png").

(** Lines 241-261, the loop of [main] over [config["heatmaps"].items()], with
    the table of activities already read.  The options of the command line
    are parsed and not used: the zoom is left to its default. *)
Fixpoint main_loop {ext : Externals} (fuel : nat) (heatmaps : list (string * heatmap_spec))
         (activities : list activity_point) (log : list main_event)
  : list main_event * option main_exn :=
  match heatmaps with
  | [] => (log, None)
  | (heatmap_name, spec) :: rest =>
      match read_bounds spec with
      | inr e => (log, Some e)
      | inl bounds =>
          let rows := filtered_points bounds activities in
          let points := column_stack rows in
          let log := log ++ [Print_rendering] in
          match render_heatmap fuel points (unique_activities rows) (-1) [] with
          | (events, Ok heatmap) =>
              main_loop fuel rest activities
                        (log ++ map During_render events
                             ++ [Imsave (output_filename heatmap_name) heatmap])
          | (events, Raise e) => (log ++ map During_render events, Some (Render_raised e))
          | (events, OutOfFuel) => (log ++ map During_render events, Some Render_out_of_fuel)
          end
      end
  end.

(** The files written, in order. *)
Definition saved (log : list main_event) : list string :=
  flat_map (fun e => match e with Imsave f _ => [f] | _ => [] end) log.

(** ** More vocabulary *)

(** The sum of the numbers of a grid. *)
Definition grid_sum (g : grid Q) : Q :=
  fold_right Qplus 0%Q (concat g).

(** The sum of a list of counts. *)
Definition total (l : list Z) : Z := fold_right Z.add 0 l.

(** The two loops of lines 125-138 as one fold over the tiles, in the order
    of the requests. *)
Definition place_all {ext : Externals} (t : TileRect) (supertile : grid rgb)
           (tiles : list (Z * Z * Z)) : grid rgb :=
  fold_left (fun s '(z, x, y) =>
               place_tile s (y - y_tile_min t) (x - x_tile_min t) (get_tile z x y))
            tiles supertile.

(** A projection that moves east with the longitude, whatever the
    latitude, as the easting of the tiling of the specification does. *)
Definition eastward {ext : Externals} (zoom : Z) : Prop :=
  forall lat lat' lon lon',
    (lon <= lon')%Q -> (fst (latlon_to_xy lat lon zoom) <= fst (latlon_to_xy lat' lon' zoom))%Q.

(** The same for the northing, on the latitudes between the bounds of a
    track: the projection of [core.tiles] repeats itself in the latitude, and
    moves south with it only between the poles. *)
Definition southward_within {ext : Externals} (b : GeoBounds) (zoom : Z) : Prop :=
  forall lat lat' lon lon',
    (lat_bound_min b <= lat)%Q -> (lat <= lat')%Q -> (lat' <= lat_bound_max b)%Q ->
    (snd (latlon_to_xy lat' lon' zoom) <= snd (latlon_to_xy lat lon zoom))%Q.

(** A projection with a northing that is linear in the latitude (the
    equirectangular one), and the world of [equator] with it: a rational
    stand-in with rows that vary, where the northing of [core.tiles] is
    transcendental off the equator. *)
Definition latlon_to_xy_linear (lat lon : Q) (zoom : Z) : Q * Q :=
  (((lon + 180) / 360 * 2 ^ zoom)%Q, ((90 - lat) / 180 * 2 ^ zoom)%Q).

Definition linear_world : Externals := {|
  latlon_to_xy := latlon_to_xy_linear;
  cos_radians := fun _ => 1%Q;
  get_tile := white_tiles;
  filtered_value := unfiltered;
  cmap := hot
|}.

(** A byte of a tile image. *)
Definition is_byte (v : Z) : Prop := 0 <= v <= 255.

Definition tile_bytes (t : tile) : Prop :=
  forall r c, let '(r8, g8, b8) := t r c in is_byte r8 /\ is_byte g8 /\ is_byte b8.

(** The signed distance of index [r] from the origin on a circle of [n]
    places whose half is [kernel_centre n]. *)
Definition circular_offset (n r : Z) : Z := (r + kernel_centre n) mod n - kernel_centre n.


(** The number of indices of [a[start:stop]] on an axis of length [len]. *)
Definition slice_len (len start stop : Z) : Z :=
  Z.max 0 (slice_bound len stop - slice_bound len start).

(** The number of cells that line 157-159 reach for a point of column [j]
    and row [i] on a grid of [h] rows and [w] columns. *)
Definition window_area (h w : Z) (ji : Z * Z) : Z :=
  let '(j, i) := ji in
  slice_len h (i - sigma_pixel) (i + sigma_pixel)
  * slice_len w (j - sigma_pixel) (j + sigma_pixel).

(** The number of integers of [k, k + n) that are in [a, b). *)
Definition overlap (k n a b : Z) : Z := Z.max 0 (Z.min b (k + n) - Z.max a k).
(** * Properties *)

(** ** Indexed maps and slices *)

Lemma mapi_from_length {A B} (f : Z -> A -> B) (l : list A) (k : Z) :
  length (mapi_from f k l) = length l.
Proof.
  revert k; induction l as [|x l IH]; intros k; simpl; [reflexivity|].
  now rewrite IH.
Qed.

Lemma mapi_length {A B} (f : Z -> A -> B) (l : list A) :
  zlength (mapi f l) = zlength l.
Proof. unfold zlength, mapi. now rewrite mapi_from_length. Qed.

Lemma mapi_from_nth {A B} (f : Z -> A -> B) (l : list A) (k : Z) (n : nat) (d : A) (e : B) :
  (n < length l)%nat ->
  nth n (mapi_from f k l) e = f (k + Z.of_nat n) (nth n l d).
Proof.
  revert k n; induction l as [|x l IH]; intros k n Hn; simpl in *; [lia|].
  destruct n as [|n].
  - now replace (k + Z.of_nat 0) with k by lia.
  - rewrite IH by lia. f_equal. lia.
Qed.

Lemma mapi_from_fixed {A} (f : Z -> A -> A) (l : list A) (k : Z) :
  (forall n x, nth_error l n = Some x -> f (k + Z.of_nat n) x = x) ->
  mapi_from f k l = l.
Proof.
  revert k; induction l as [|x l IH]; intros k H; simpl; [reflexivity|].
  f_equal.
  - specialize (H O x eq_refl). now replace (k + Z.of_nat 0) with k in H by lia.
  - apply IH. intros n y Hy. specialize (H (S n) y Hy).
    now replace (k + 1 + Z.of_nat n) with (k + Z.of_nat (S n)) by lia.
Qed.

Lemma mapi_nth {A B} (f : Z -> A -> B) (l : list A) (k : Z) (d : A) (e : B) :
  0 <= k < zlength l ->
  nth (Z.to_nat k) (mapi f l) e = f k (nth (Z.to_nat k) l d).
Proof.
  unfold zlength, mapi. intros Hk.
  rewrite (mapi_from_nth f l 0 (Z.to_nat k) d e) by lia.
  f_equal. lia.
Qed.

Lemma has_shape_rows {A} (a : grid A) (h w : Z) :
  has_shape a h w = true -> zlength a = h.
Proof. unfold has_shape. intros H. apply andb_prop in H. now apply Z.eqb_eq. Qed.

Lemma has_shape_row {A} (a : grid A) (h w : Z) (row : list A) :
  has_shape a h w = true -> In row a -> zlength row = w.
Proof.
  unfold has_shape. intros H Hin. apply andb_prop in H. destruct H as [_ H].
  rewrite forallb_forall in H. apply Z.eqb_eq. now apply H.
Qed.

Lemma has_shape_nth {A} (a : grid A) (h w r : Z) :
  has_shape a h w = true -> 0 <= r < h -> zlength (nth (Z.to_nat r) a []) = w.
Proof.
  intros H Hr. apply (has_shape_row a h w); [assumption|].
  apply nth_In. apply has_shape_rows in H. unfold zlength in H. lia.
Qed.

(** The window of a point on the first row or column of an array that has
    not exactly one row or column is empty. *)
Lemma in_slice_first (len k : Z) :
  len <> 1 -> in_slice len (0 - sigma_pixel) (0 + sigma_pixel) k = false.
Proof.
  intros Hlen. unfold in_slice, slice_bound, sigma_pixel.
  destruct (Z.ltb_spec (0 - 1) 0), (Z.ltb_spec (0 + 1) 0); lia.
Qed.

(** Inside the array the window holds the index and its predecessor. *)
Lemma in_slice_inside (len i k : Z) :
  1 <= i < len ->
  in_slice len (i - sigma_pixel) (i + sigma_pixel) k = ((k =? i - 1) || (k =? i)).
Proof.
  intros Hi. unfold in_slice, slice_bound, sigma_pixel.
  destruct (Z.ltb_spec (i - 1) 0), (Z.ltb_spec (i + 1) 0); lia.
Qed.

(** At the far edge or beyond it the window is cut to the last index, or to
    nothing. *)
Lemma in_slice_beyond (len i k : Z) :
  1 <= len <= i ->
  in_slice len (i - sigma_pixel) (i + sigma_pixel) k = ((i =? len) && (k =? len - 1)).
Proof.
  intros Hi. unfold in_slice, slice_bound, sigma_pixel.
  destruct (Z.ltb_spec (i - 1) 0), (Z.ltb_spec (i + 1) 0); lia.
Qed.

(** ** Splatting *)

Lemma update_window_shape {A} (f : A -> A) (a : grid A) (r0 r1 c0 c1 h w : Z) :
  has_shape a h w = true -> has_shape (update_window f a r0 r1 c0 c1) h w = true.
Proof.
  intros H. unfold has_shape, update_window in *.
  apply andb_prop in H. destruct H as [Hh Hw].
  rewrite mapi_length, Hh. simpl.
  rewrite forallb_forall in *. intros row Hrow.
  unfold mapi in Hrow. apply In_nth with (d := []) in Hrow.
  destruct Hrow as (n & Hn & <-). rewrite mapi_from_length in Hn.
  rewrite (mapi_from_nth _ a 0 n [] []) by assumption.
  pose proof (Hw _ (nth_In a [] Hn)) as Hlen.
  destruct (in_slice _ _ _ _); [|assumption].
  unfold zlength in *. now rewrite mapi_from_length.
Qed.

Lemma update_window_cell {A} (f : A -> A) (a : grid A) (r0 r1 c0 c1 h w r c : Z) (d : A) :
  has_shape a h w = true -> 0 <= r < h -> 0 <= c < w ->
  cell d (update_window f a r0 r1 c0 c1) r c =
  if in_slice h r0 r1 r && in_slice w c0 c1 c then f (cell d a r c) else cell d a r c.
Proof.
  intros H Hr Hc. unfold cell, update_window.
  pose proof (has_shape_rows _ _ _ H) as Hh.
  pose proof (has_shape_nth _ _ _ r H Hr) as Hw.
  rewrite (mapi_nth _ a r [] []) by lia.
  rewrite Hh. destruct (in_slice h r0 r1 r); simpl; [|reflexivity].
  rewrite (mapi_nth _ _ c d d) by lia.
  now rewrite Hw.
Qed.

Lemma update_window_no_rows {A} (f : A -> A) (a : grid A) (r0 r1 c0 c1 : Z) :
  (forall r, in_slice (zlength a) r0 r1 r = false) ->
  update_window f a r0 r1 c0 c1 = a.
Proof.
  intros H. unfold update_window, mapi. apply mapi_from_fixed.
  intros n row _. now rewrite H.
Qed.

Lemma update_window_no_columns {A} (f : A -> A) (a : grid A) (r0 r1 c0 c1 h w : Z) :
  has_shape a h w = true ->
  (forall c, in_slice w c0 c1 c = false) ->
  update_window f a r0 r1 c0 c1 = a.
Proof.
  intros Hs H. unfold update_window, mapi. apply mapi_from_fixed.
  intros n row Hrow. destruct (in_slice _ r0 r1 _); [|reflexivity].
  apply mapi_from_fixed. intros k v _.
  rewrite (has_shape_row a h w row Hs) by (eapply nth_error_In; eassumption).
  now rewrite H.
Qed.

Lemma tile_multiple_not_one (n : Z) : n * OSM_TILE_SIZE <> 1.
Proof. unfold OSM_TILE_SIZE. lia. Qed.

(** A point with a zero index leaves [data] as it is. *)
Lemma splat_point_first {ny nx : Z} (data : grid Q) (i j : Z) :
  has_shape data (ny * OSM_TILE_SIZE) (nx * OSM_TILE_SIZE) = true ->
  i = 0 \/ j = 0 ->
  splat_point data (j, i) = data.
Proof.
  intros Hs [-> | ->]; unfold splat_point.
  - apply update_window_no_rows. intros r. apply in_slice_first.
    rewrite (has_shape_rows _ _ _ Hs). apply tile_multiple_not_one.
  - eapply update_window_no_columns; [eassumption|]. intros c.
    apply in_slice_first. apply tile_multiple_not_one.
Qed.

(** C10. A track point whose row or column index is zero has an empty window
    under the slicing rules of Python and leaves the density grid as it is; a
    point at or beyond the far edge has its window cut to the last row or
    column, or to nothing; the splat of a point is defined for every position
    and keeps the shape of the grid. *)
Theorem splat_point_edges (ny nx : Z) (data : grid Q) (i j : Z) :
  has_shape data (ny * OSM_TILE_SIZE) (nx * OSM_TILE_SIZE) = true ->
  has_shape (splat_point data (j, i)) (ny * OSM_TILE_SIZE) (nx * OSM_TILE_SIZE) = true
  /\ (i = 0 \/ j = 0 -> splat_point data (j, i) = data)
  /\ (forall r c,
         0 <= r < ny * OSM_TILE_SIZE -> 0 <= c < nx * OSM_TILE_SIZE ->
         ny * OSM_TILE_SIZE <= i ->
         cell 0%Q (splat_point data (j, i)) r c =
         if (i =? ny * OSM_TILE_SIZE) && (r =? ny * OSM_TILE_SIZE - 1)
            && in_slice (nx * OSM_TILE_SIZE) (j - sigma_pixel) (j + sigma_pixel) c
         then (cell 0%Q data r c + 1)%Q else cell 0%Q data r c)
  /\ (forall r c,
         0 <= r < ny * OSM_TILE_SIZE -> 0 <= c < nx * OSM_TILE_SIZE ->
         nx * OSM_TILE_SIZE <= j ->
         cell 0%Q (splat_point data (j, i)) r c =
         if in_slice (ny * OSM_TILE_SIZE) (i - sigma_pixel) (i + sigma_pixel) r
            && ((j =? nx * OSM_TILE_SIZE) && (c =? nx * OSM_TILE_SIZE - 1))
         then (cell 0%Q data r c + 1)%Q else cell 0%Q data r c).
Proof.
  intros Hs. repeat split.
  - now apply update_window_shape.
  - now apply (@splat_point_first ny nx).
  - intros r c Hr Hc Hi. unfold splat_point.
    rewrite (update_window_cell _ data _ _ _ _ _ _ r c 0%Q Hs Hr Hc).
    rewrite in_slice_beyond by lia. reflexivity.
  - intros r c Hr Hc Hj. unfold splat_point.
    rewrite (update_window_cell _ data _ _ _ _ _ _ r c 0%Q Hs Hr Hc).
    rewrite (in_slice_beyond (nx * OSM_TILE_SIZE)) by lia. reflexivity.
Qed.

(** Away from the first row and column the splat of a point adds one to the
    four pixels of rows [i - 1], [i] and columns [j - 1], [j], and to no
    other. *)
Lemma splat_point_inside (h w : Z) (data : grid Q) (i j r c : Z) :
  has_shape data h w = true ->
  1 <= i < h -> 1 <= j < w -> 0 <= r < h -> 0 <= c < w ->
  cell 0%Q (splat_point data (j, i)) r c =
  if ((r =? i - 1) || (r =? i)) && ((c =? j - 1) || (c =? j))
  then (cell 0%Q data r c + 1)%Q else cell 0%Q data r c.
Proof.
  intros Hs Hi Hj Hr Hc. unfold splat_point.
  rewrite (update_window_cell _ data _ _ _ _ _ _ r c 0%Q Hs Hr Hc).
  now rewrite !in_slice_inside by assumption.
Qed.

(** The points of a track are splatted one after the other on the same grid. *)
Lemma splat_app (data : grid Q) (ps qs : list (Z * Z)) :
  splat data (ps ++ qs) = splat (splat data ps) qs.
Proof. unfold splat. apply fold_left_app. Qed.

Lemma splat_shape (h w : Z) (ps : list (Z * Z)) (data : grid Q) :
  has_shape data h w = true -> has_shape (splat data ps) h w = true.
Proof.
  revert data; induction ps as [|[j i] ps IH]; intros data Hs; simpl; [assumption|].
  apply IH. now apply update_window_shape.
Qed.

(** Two points away from the first row and column add up: a pixel in both
    windows gains two. *)
Lemma splat_accumulates (h w : Z) (data : grid Q) (i j i' j' r c : Z) :
  has_shape data h w = true ->
  1 <= i < h -> 1 <= j < w -> 1 <= i' < h -> 1 <= j' < w ->
  0 <= r < h -> 0 <= c < w ->
  ((r =? i - 1) || (r =? i)) && ((c =? j - 1) || (c =? j)) = true ->
  ((r =? i' - 1) || (r =? i')) && ((c =? j' - 1) || (c =? j')) = true ->
  cell 0%Q (splat data [(j, i); (j', i')]) r c = (cell 0%Q data r c + 1 + 1)%Q.
Proof.
  intros Hs Hi Hj Hi' Hj' Hr Hc Hin Hin'.
  change (splat data [(j, i); (j', i')])
    with (splat_point (splat_point data (j, i)) (j', i')).
  rewrite (splat_point_inside h w) by (try assumption; now apply update_window_shape).
  rewrite Hin'.
  rewrite (splat_point_inside h w) by assumption.
  now rewrite Hin.
Qed.

(** C6. The track of the single point (0, 0.01) of the equator at zoom 14:
    its pixel is column 117 of row 0 of a mosaic of one tile, and splatting
    it changes no pixel of the zero grid, the pixel of the point included;
    the claim has the four pixels around it gain one. *)
Theorem splat_misses_first_row :
  let lat_lon_data := [(0, 1 # 100)]%Q in
  let b := mk_bounds 0 0 (1 # 100) (1 # 100) in
  let t := tile_rect (ext := equator) b 14 in
  let xy_data := to_supertile (ext := equator) 14 t lat_lon_data in
  bounds_of lat_lon_data = Some b
  /\ (tiles_y t, tiles_x t) = (1, 1)
  /\ xy_data = [(117, 0)]
  /\ splat (full 256 256 0%Q) xy_data = full 256 256 0%Q
  /\ cell 0%Q (splat (full 256 256 0%Q) xy_data) 0 117 = 0%Q.
Proof.
  cbv zeta.
  assert (Hxy : to_supertile (ext := equator) 14
                  (tile_rect (ext := equator) (mk_bounds 0 0 (1 # 100) (1 # 100)) 14)
                  [(0, 1 # 100)]%Q = [(117, 0)])
    by (vm_compute; reflexivity).
  rewrite Hxy. split; [reflexivity|]. split; [reflexivity|]. split; [reflexivity|].
  change (splat (full 256 256 0%Q) [(117, 0)])
    with (splat_point (full 256 256 0%Q) (117, 0)).
  rewrite (@splat_point_first 1 1) by (vm_compute; reflexivity || (now left)).
  split; reflexivity.
Qed.

(** The witness of [splat_point_edges]: column 5 of row 0 of a one-tile grid. *)
Lemma splat_point_edges_witness :
  has_shape (full 256 256 0%Q) (1 * OSM_TILE_SIZE) (1 * OSM_TILE_SIZE) = true
  /\ splat_point (full 256 256 0%Q) (5, 0) = full 256 256 0%Q.
Proof.
  split; [vm_compute; reflexivity|].
  apply (splat_point_edges 1 1 (full 256 256 0%Q) 0 5); [vm_compute; reflexivity|].
  left; reflexivity.
Defined.

(** ** Extrema *)

Lemma fold_min_in (l : list Q) (x : Q) : In (fold_left Qmin l x) (x :: l).
Proof.
  revert x; induction l as [|y l IH]; intros x; simpl; [now left|].
  destruct (IH (Qmin x y)) as [H | H]; [|right; right; assumption].
  rewrite <- H. unfold Qmin, GenericMinMax.gmin.
  destruct (x ?= y)%Q; simpl; auto.
Qed.

Lemma fold_max_in (l : list Q) (x : Q) : In (fold_left Qmax l x) (x :: l).
Proof.
  revert x; induction l as [|y l IH]; intros x; simpl; [now left|].
  destruct (IH (Qmax x y)) as [H | H]; [|right; right; assumption].
  rewrite <- H. unfold Qmax, GenericMinMax.gmax.
  destruct (x ?= y)%Q; simpl; auto.
Qed.

Lemma fold_min_le (l : list Q) (x y : Q) : In y (x :: l) -> (fold_left Qmin l x <= y)%Q.
Proof.
  revert x y; induction l as [|z l IH]; intros x y Hy; simpl.
  - destruct Hy as [-> | []]. apply Qle_refl.
  - destruct Hy as [-> | [-> | Hy]].
    + eapply Qle_trans; [apply IH; now left | apply Q.le_min_l].
    + eapply Qle_trans; [apply IH; now left | apply Q.le_min_r].
    + apply IH. now right.
Qed.

Lemma fold_max_ge (l : list Q) (x y : Q) : In y (x :: l) -> (y <= fold_left Qmax l x)%Q.
Proof.
  revert x y; induction l as [|z l IH]; intros x y Hy; simpl.
  - destruct Hy as [-> | []]. apply Qle_refl.
  - destruct Hy as [-> | [-> | Hy]].
    + eapply Qle_trans; [apply Q.le_max_l | apply IH; now left].
    + eapply Qle_trans; [apply Q.le_max_r | apply IH; now left].
    + apply IH. now right.
Qed.

Lemma np_min_in (a : list Q) (lo : Q) : np_min a = Some lo -> In lo a.
Proof. destruct a as [|x l]; simpl; [discriminate|]. intros [= <-]. apply fold_min_in. Qed.

Lemma np_max_in (a : list Q) (hi : Q) : np_max a = Some hi -> In hi a.
Proof. destruct a as [|x l]; simpl; [discriminate|]. intros [= <-]. apply fold_max_in. Qed.

Lemma np_min_le (a : list Q) (lo x : Q) : np_min a = Some lo -> In x a -> (lo <= x)%Q.
Proof. destruct a as [|y l]; simpl; [discriminate|]. intros [= <-]. apply fold_min_le. Qed.

Lemma np_max_ge (a : list Q) (hi x : Q) : np_max a = Some hi -> In x a -> (x <= hi)%Q.
Proof. destruct a as [|y l]; simpl; [discriminate|]. intros [= <-]. apply fold_max_ge. Qed.

Lemma np_min_map (f : Q -> Q) (a : list Q) (lo : Q) :
  np_min a = Some lo -> exists m, np_min (map f a) = Some m.
Proof. destruct a; simpl; [discriminate|]. intros _. eexists; reflexivity. Qed.

Lemma np_max_map (f : Q -> Q) (a : list Q) (hi : Q) :
  np_max a = Some hi -> exists m, np_max (map f a) = Some m.
Proof. destruct a; simpl; [discriminate|]. intros _. eexists; reflexivity. Qed.

Lemma in_grid_concat {A} (g : grid A) (row : list A) (x : A) :
  In row g -> In x row -> In x (concat g).
Proof. intros Hrow Hx. apply in_concat. now exists row. Qed.

(** ** Normalisation *)

Lemma np_divide_rescale (lo hi x : Q) :
  (lo < hi)%Q -> np_divide (x - lo) (hi - lo) = Fin (rescale lo hi x).
Proof.
  intros H. unfold np_divide, rescale.
  destruct (Qeq_bool (hi - lo) 0) eqn:E; [|reflexivity].
  apply Qeq_bool_iff in E. lra.
Qed.

Lemma rescale_bounds (lo hi x : Q) :
  (lo < hi)%Q -> (lo <= x <= hi)%Q -> in_unit (rescale lo hi x).
Proof.
  intros H [Hlo Hhi]. unfold in_unit, rescale. rewrite Qred_correct. split.
  - apply Qle_shift_div_l; lra.
  - apply Qle_shift_div_r; lra.
Qed.

Lemma rescale_lo (lo hi : Q) : (lo < hi)%Q -> rescale lo hi lo = 0%Q.
Proof.
  intros H. unfold rescale. change 0%Q with (Qred 0). apply Qred_complete.
  field. lra.
Qed.

Lemma rescale_hi (lo hi : Q) : (lo < hi)%Q -> rescale lo hi hi = 1%Q.
Proof.
  intros H. unfold rescale. change 1%Q with (Qred 1). apply Qred_complete.
  field. lra.
Qed.

Lemma normalize_rescale (data : grid Q) (lo hi : Q) :
  np_min (concat data) = Some lo -> np_max (concat data) = Some hi -> (lo < hi)%Q ->
  normalize data = Ok (map (map Fin) (map (map (rescale lo hi)) data)).
Proof.
  intros Hlo Hhi H. unfold normalize. rewrite Hlo, Hhi. f_equal.
  rewrite map_map. apply map_ext. intros row. rewrite map_map. apply map_ext.
  intros x. now apply np_divide_rescale.
Qed.

(** C4. When the grid has variation, line 184 gives finite values, all in
    [0, 1], whose minimum is 0 and whose maximum is 1. *)
Theorem normalize_range (data : grid Q) (lo hi : Q) :
  np_min (concat data) = Some lo -> np_max (concat data) = Some hi -> (lo < hi)%Q ->
  exists normalized : grid Q,
    normalize data = Ok (map (map Fin) normalized)
    /\ normalized = map (map (fun x => Qred ((x - lo) / (hi - lo)))) data
    /\ np_min (concat normalized) = Some 0%Q
    /\ np_max (concat normalized) = Some 1%Q
    /\ Forall (Forall in_unit) normalized.
Proof.
  intros Hlo Hhi H. exists (map (map (rescale lo hi)) data).
  assert (Hall : forall x, In x (concat data) -> in_unit (rescale lo hi x)).
  { intros x Hx. apply rescale_bounds; [assumption|]. split.
    - now apply (np_min_le (concat data)).
    - now apply (np_max_ge (concat data)). }
  assert (Hflat : concat (map (map (rescale lo hi)) data) = map (rescale lo hi) (concat data))
    by (symmetry; apply concat_map).
  repeat split.
  - now apply normalize_rescale.
  - rewrite Hflat.
    destruct (np_min_map (rescale lo hi) _ _ Hlo) as [m Hm]. rewrite Hm. f_equal.
    assert (Hm0 : (m <= 0)%Q).
    { apply (np_min_le _ _ _ Hm). rewrite <- (rescale_lo lo hi H).
      apply in_map. now apply np_min_in. }
    assert (Hin : In m (map (rescale lo hi) (concat data))) by now apply np_min_in.
    apply in_map_iff in Hin. destruct Hin as (x & <- & Hx).
    destruct (Hall x Hx) as [H0 _].
    assert (E : (rescale lo hi x == 0)%Q) by lra.
    unfold rescale in *. rewrite Qred_correct in E. now apply Qred_complete in E.
  - rewrite Hflat.
    destruct (np_max_map (rescale lo hi) _ _ Hhi) as [m Hm]. rewrite Hm. f_equal.
    assert (Hm1 : (1 <= m)%Q).
    { apply (np_max_ge _ _ _ Hm). rewrite <- (rescale_hi lo hi H).
      apply in_map. now apply np_max_in. }
    assert (Hin : In m (map (rescale lo hi) (concat data))) by now apply np_max_in.
    apply in_map_iff in Hin. destruct Hin as (x & <- & Hx).
    destruct (Hall x Hx) as [_ H1].
    assert (E : (rescale lo hi x == 1)%Q) by lra.
    unfold rescale in *. rewrite Qred_correct in E. now apply Qred_complete in E.
  - apply Forall_forall. intros row Hrow. apply in_map_iff in Hrow.
    destruct Hrow as (row0 & <- & Hrow0). apply Forall_forall. intros y Hy.
    apply in_map_iff in Hy. destruct Hy as (x & <- & Hx).
    apply Hall. now apply (in_grid_concat data row0).
Qed.

(** The witness of [normalize_range]: a grid of two rows with values 1, 2, 3. *)
Lemma normalize_range_witness :
  exists normalized : grid Q,
    normalize [[1; 2]; [3; 1]]%Q = Ok (map (map Fin) normalized)
    /\ normalized = map (map (fun x => Qred ((x - 1) / (3 - 1)))) [[1; 2]; [3; 1]]%Q
    /\ np_min (concat normalized) = Some 0%Q
    /\ np_max (concat normalized) = Some 1%Q
    /\ Forall (Forall in_unit) normalized.
Proof.
  apply (normalize_range [[1; 2]; [3; 1]]%Q 1 3); reflexivity.
Defined.

(** ** Cells of mapped arrays *)

Lemma cell_map {A B} (f : A -> B) (a : grid A) (h w r c : Z) (d : A) (e : B) :
  has_shape a h w = true -> 0 <= r < h -> 0 <= c < w ->
  cell e (map (map f) a) r c = f (cell d a r c).
Proof.
  intros Hs Hr Hc. unfold cell.
  pose proof (has_shape_rows _ _ _ Hs) as Hh.
  pose proof (has_shape_nth _ _ _ r Hs Hr) as Hw.
  unfold zlength in *.
  rewrite (nth_indep _ [] (map f [])) by (rewrite length_map; lia).
  rewrite map_nth.
  rewrite (nth_indep _ e (f d)) by (rewrite length_map; lia).
  apply map_nth.
Qed.

Lemma has_shape_map {A B} (f : A -> B) (a : grid A) (h w : Z) :
  has_shape a h w = true -> has_shape (map (map f) a) h w = true.
Proof.
  unfold has_shape, zlength. intros H. apply andb_prop in H. destruct H as [Hh Hw].
  rewrite length_map, Hh. simpl.
  rewrite forallb_forall in *. intros row Hrow.
  apply in_map_iff in Hrow. destruct Hrow as (row0 & <- & Hrow0).
  rewrite length_map. now apply Hw.
Qed.

Lemma map2_length {A B C} (f : A -> B -> C) (l : list A) (l' : list B) :
  length l = length l' -> length (map2 f l l') = length l.
Proof.
  revert l'; induction l as [|x l IH]; intros [|y l'] H; simpl in *; try lia.
  now rewrite IH by lia.
Qed.

Lemma map2_nth {A B C} (f : A -> B -> C) (l : list A) (l' : list B) (n : nat)
      (a : A) (b : B) (c : C) :
  (n < length l)%nat -> (n < length l')%nat ->
  nth n (map2 f l l') c = f (nth n l a) (nth n l' b).
Proof.
  revert l' n; induction l as [|x l IH]; intros [|y l'] n Hl Hl'; simpl in *; try lia.
  destruct n as [|n]; [reflexivity|]. apply IH; lia.
Qed.

Lemma map2_Forall {A B C} (P : A -> Prop) (Q : B -> Prop) (R : C -> Prop)
      (f : A -> B -> C) (l : list A) (l' : list B) :
  (forall x y, P x -> Q y -> R (f x y)) ->
  Forall P l -> Forall Q l' -> Forall R (map2 f l l').
Proof.
  intros Hf Hl. revert l'. induction Hl as [|x l Hx Hl IH]; intros l' Hl'; simpl.
  - constructor.
  - destruct Hl' as [|y l' Hy Hl']; constructor; auto.
Qed.

Lemma cell_composite (data_color : grid rgba) (supertile : grid rgb) (h w r c : Z)
      (d : rgba) (e e' : rgb) :
  has_shape data_color h w = true -> has_shape supertile h w = true ->
  0 <= r < h -> 0 <= c < w ->
  cell e (composite data_color supertile) r c = blend (cell d data_color r c) (cell e' supertile r c).
Proof.
  intros Hd Hs Hr Hc. unfold cell, composite.
  pose proof (has_shape_rows _ _ _ Hd) as Hdh.
  pose proof (has_shape_rows _ _ _ Hs) as Hsh.
  pose proof (has_shape_nth _ _ _ r Hd Hr) as Hdw.
  pose proof (has_shape_nth _ _ _ r Hs Hr) as Hsw.
  unfold zlength in *.
  rewrite (map2_nth _ data_color supertile (Z.to_nat r) [] [] []) by lia.
  apply map2_nth; lia.
Qed.

(** ** Compositing *)

Lemma blend_channel (color : rgba) (pixel : rgb) (ch : Z) :
  0 <= ch < 3 ->
  channel (blend color pixel) ch =
  ((1 - color_channel color ch) * channel pixel ch + color_channel color ch)%Q.
Proof.
  intros H. assert (E : ch = 0 \/ ch = 1 \/ ch = 2) by lia.
  destruct E as [-> | [-> | ->]]; reflexivity.
Qed.

Lemma screen_in_unit (a m : Q) : in_unit a -> in_unit m -> in_unit ((1 - a) * m + a).
Proof. unfold in_unit. intros [Ha0 Ha1] [Hm0 Hm1]. split; nra. Qed.

Lemma blend_in_unit (color : rgba) (pixel : rgb) :
  rgba_in_unit color -> rgb_in_unit pixel -> rgb_in_unit (blend color pixel).
Proof.
  intros (Hr & Hg & Hb & _) (Pr & Pg & Pb).
  repeat split; simpl; now apply screen_in_unit.
Qed.

Lemma remove_background_in_unit (background p : rgba) :
  rgba_in_unit p -> rgba_in_unit (remove_background background p).
Proof.
  unfold remove_background, rgba_in_unit, in_unit. simpl.
  intros (Hr & Hg & Hb & Ha).
  repeat split;
    match goal with |- context [Qeq_bool ?a ?b] => destruct (Qeq_bool a b) end; lra.
Qed.

(** Colours in [0, 1] stay there through line 190. *)
Lemma colorize_in_unit {ext : Externals} (data : grid npfloat) :
  (forall v, rgba_in_unit (cmap v)) -> Forall (Forall rgba_in_unit) (colorize data).
Proof.
  intros H. unfold colorize. apply Forall_forall. intros row Hrow.
  apply in_map_iff in Hrow. destruct Hrow as (row1 & <- & Hrow1).
  apply in_map_iff in Hrow1. destruct Hrow1 as (row0 & <- & _).
  apply Forall_forall. intros p Hp.
  apply in_map_iff in Hp. destruct Hp as (q & <- & Hq).
  apply in_map_iff in Hq. destruct Hq as (v & <- & _).
  apply remove_background_in_unit, H.
Qed.

Lemma composite_in_unit (data_color : grid rgba) (supertile : grid rgb) :
  Forall (Forall rgba_in_unit) data_color -> Forall (Forall rgb_in_unit) supertile ->
  Forall (Forall rgb_in_unit) (composite data_color supertile).
Proof.
  intros Hcol Hmos. unfold composite.
  apply (map2_Forall (Forall rgba_in_unit) (Forall rgb_in_unit)); try assumption.
  intros row row' Hrow Hrow'.
  apply (map2_Forall rgba_in_unit rgb_in_unit); try assumption.
  apply blend_in_unit.
Qed.

Lemma values_in_unit (image : grid rgb) :
  Forall (Forall rgb_in_unit) image -> Forall in_unit (values image).
Proof.
  intros H. unfold values. apply Forall_forall. intros q Hq.
  apply in_flat_map in Hq. destruct Hq as (p & Hp & Hq).
  apply in_concat in Hp. destruct Hp as (row & Hrow & Hp).
  rewrite Forall_forall in H. specialize (H row Hrow).
  rewrite Forall_forall in H. destruct (H p Hp) as (Pr & Pg & Pb).
  simpl in Hq. destruct Hq as [<- | [<- | [<- | []]]]; assumption.
Qed.

Lemma remove_background_grid_in_unit (background : rgba) (colors : grid rgba) :
  Forall (Forall rgba_in_unit) colors ->
  Forall (Forall rgba_in_unit) (map (map (remove_background background)) colors).
Proof.
  intros H. apply Forall_map. eapply Forall_impl; [|exact H].
  intros row Hrow. apply Forall_map. eapply Forall_impl; [|exact Hrow].
  intros p. apply remove_background_in_unit.
Qed.

(** C8. Each of the three channels of a pixel of the result is
    [(1 - color) * mosaic + color], with the colour of [data_color] after line
    190, and when the numbers of the mosaic and the colours of the colour map
    are in [0, 1], so are the numbers of the result. *)
Theorem composite_screen {ext : Externals} (data : grid npfloat) (supertile : grid rgb)
        (h w : Z) :
  has_shape data h w = true -> has_shape supertile h w = true ->
  Forall (Forall rgba_in_unit) (map (map cmap) data) ->
  Forall (Forall rgb_in_unit) supertile ->
  (forall r c ch,
      0 <= r < h -> 0 <= c < w -> 0 <= ch < 3 ->
      channel (cell (mk_rgb 0 0 0) (composite (colorize data) supertile) r c) ch =
      ((1 - color_channel (cell (mk_rgba 0 0 0 0) (colorize data) r c) ch)
       * channel (cell (mk_rgb 0 0 0) supertile r c) ch
       + color_channel (cell (mk_rgba 0 0 0 0) (colorize data) r c) ch)%Q)
  /\ Forall in_unit (values (composite (colorize data) supertile)).
Proof.
  intros Hd Hs Hcol Hmos. split.
  - intros r c ch Hr Hc Hch.
    rewrite (cell_composite (colorize data) supertile h w r c (mk_rgba 0 0 0 0) _ (mk_rgb 0 0 0))
      by (try assumption; unfold colorize; now apply has_shape_map, has_shape_map).
    now apply blend_channel.
  - apply values_in_unit, composite_in_unit; [|assumption].
    unfold colorize. now apply remove_background_grid_in_unit.
Qed.

(** The witness of [composite_screen]: one row of two pixels, of densities 0
    and 1, coloured with [hot]. *)
Lemma composite_screen_witness :
  Forall in_unit
    (values (composite (colorize (ext := equator) [[Fin 0; Fin 1]])
                       [[mk_rgb (1 # 4) (1 # 4) (1 # 4); mk_rgb 1 1 1]])).
Proof.
  apply (composite_screen (ext := equator) [[Fin 0; Fin 1]]
                          [[mk_rgb (1 # 4) (1 # 4) (1 # 4); mk_rgb 1 1 1]] 1 2).
  - reflexivity.
  - reflexivity.
  - repeat constructor; simpl; discriminate.
  - repeat constructor; simpl; discriminate.
Defined.

(** ** Background colour *)

Lemma remove_background_channel (background p : rgba) (ch : Z) :
  color_channel (remove_background background p) ch =
  if Qeq_bool (color_channel p ch) (color_channel background ch)
  then 0%Q else color_channel p ch.
Proof.
  unfold remove_background, color_channel.
  destruct ch as [|[q|q|]|]; try reflexivity; destruct q; reflexivity.
Qed.

Lemma remove_background_same (background p : rgba) :
  rgba_eqb p background = true -> remove_background background p = mk_rgba 0 0 0 0.
Proof.
  unfold rgba_eqb, remove_background. intros H.
  apply andb_prop in H. destruct H as [H Ha].
  apply andb_prop in H. destruct H as [H Hb].
  apply andb_prop in H. destruct H as [Hr Hg].
  now rewrite Hr, Hg, Hb, Ha.
Qed.

Lemma rgba_eqb_refl (p : rgba) : rgba_eqb p p = true.
Proof.
  unfold rgba_eqb. rewrite !andb_true_iff. repeat split; apply Qeq_bool_iff; reflexivity.
Qed.

Lemma blend_transparent (pixel : rgb) : rgb_eq (blend (mk_rgba 0 0 0 0) pixel) pixel.
Proof. unfold rgb_eq, blend. simpl. repeat split; ring. Qed.

Lemma colorize_shape {ext : Externals} (data : grid npfloat) (h w : Z) :
  has_shape data h w = true -> has_shape (colorize data) h w = true.
Proof.
  intros H. unfold colorize. now apply has_shape_map, has_shape_map.
Qed.

Lemma colorize_cell {ext : Externals} (data : grid npfloat) (h w r c : Z) :
  has_shape data h w = true -> 0 <= r < h -> 0 <= c < w ->
  cell (mk_rgba 0 0 0 0) (colorize data) r c =
  remove_background (cmap (Fin 0)) (cmap (cell NaN data r c)).
Proof.
  intros Hd Hr Hc. unfold colorize.
  rewrite (cell_map _ (map (map cmap) data) h w r c (mk_rgba 0 0 0 0))
    by (try assumption; now apply has_shape_map).
  now rewrite (cell_map _ data h w r c NaN).
Qed.

(** Line 190 under any colour map. It works number by number: a channel of
    a colour is set to zero exactly when it equals the same channel of
    [cmap(0.0)]; so a pixel whose colour is [cmap(0.0)] is zeroed in all its
    channels, and a pixel of density 0.0 comes out as the pixel of the mosaic
    in the three channels. *)
Lemma background_removed {ext : Externals} (data : grid npfloat) (supertile : grid rgb)
        (h w r c : Z) :
  has_shape data h w = true -> has_shape supertile h w = true ->
  0 <= r < h -> 0 <= c < w ->
  let color := cmap (cell NaN data r c) in
  (forall ch,
      color_channel (cell (mk_rgba 0 0 0 0) (colorize data) r c) ch =
      if Qeq_bool (color_channel color ch) (color_channel (cmap (Fin 0)) ch)
      then 0%Q else color_channel color ch)
  /\ (rgba_eqb color (cmap (Fin 0)) = true ->
      cell (mk_rgba 0 0 0 0) (colorize data) r c = mk_rgba 0 0 0 0)
  /\ (cell NaN data r c = Fin 0 ->
      rgb_eq (cell (mk_rgb 0 0 0) (composite (colorize data) supertile) r c)
             (cell (mk_rgb 0 0 0) supertile r c)).
Proof.
  intros Hd Hs Hr Hc color.
  pose proof (colorize_cell data h w r c Hd Hr Hc) as Hcolor. fold color in Hcolor.
  pose proof (colorize_shape data h w Hd) as Hshape.
  split; [|split].
  - intros ch. rewrite Hcolor. apply remove_background_channel.
  - intros E. rewrite Hcolor. now apply remove_background_same.
  - intros E.
    rewrite (cell_composite _ supertile h w r c (mk_rgba 0 0 0 0) _ (mk_rgb 0 0 0))
      by assumption.
    rewrite Hcolor. subst color. rewrite E.
    rewrite (remove_background_same _ _ (rgba_eqb_refl _)). apply blend_transparent.
Qed.

(** On the 256 colours of [hot] the first three channels do come out as the
    specification reads line 190: the green and blue of the background are
    zero already, and its red occurs in the first colour only. *)
Lemma hot_visible_pixelwise :
  forallb (fun i =>
             rgb_eqb (visible (remove_background (hot_table 0) (hot_table i)))
                     (visible (remove_background_spec (hot_table 0) (hot_table i))))
          (py_range 0 256) = true.
Proof. vm_compute. reflexivity. Qed.

Lemma hot_in_table (v : npfloat) :
  hot v = mk_rgba 0 0 0 0 \/ exists i, 0 <= i < 256 /\ hot v = hot_table i.
Proof.
  destruct v as [q | [|] |]; unfold hot.
  - right. destruct (Qle_bool 1 q) eqn:E1; [exists 255; split; [lia | reflexivity]|].
    destruct (Qle_bool 0 q) eqn:E0; [|exists 0; split; [lia | reflexivity]].
    exists (Qfloor (q * 256)). split; [|reflexivity].
    apply Qle_bool_iff in E0.
    assert (H1 : (q < 1)%Q).
    { apply Qnot_le_lt. intros H. apply Qle_bool_iff in H. congruence. }
    split.
    + change 0 with (Qfloor 0). apply Qfloor_resp_le. nra.
    + rewrite Zlt_Qlt. apply Qle_lt_trans with (q * 256)%Q; [apply Qfloor_le|].
      change (inject_Z 256) with 256%Q. nra.
  - right. exists 0. split; [lia | reflexivity].
  - right. exists 255. split; [lia | reflexivity].
  - now left.
Qed.

Lemma hot_background_visible (v : npfloat) :
  rgb_eqb (visible (remove_background (hot (Fin 0)) (hot v)))
          (visible (remove_background_spec (hot (Fin 0)) (hot v))) = true.
Proof.
  change (hot (Fin 0)) with (hot_table 0).
  destruct (hot_in_table v) as [-> | (i & Hi & ->)]; [vm_compute; reflexivity|].
  pose proof hot_visible_pixelwise as H. rewrite forallb_forall in H. apply H.
  unfold py_range. apply in_map_iff. exists (Z.to_nat i). split; [lia|].
  apply in_seq. lia.
Qed.

Lemma rgb_eqb_eq (p q : rgb) : rgb_eqb p q = true -> rgb_eq p q.
Proof.
  unfold rgb_eqb, rgb_eq. rewrite !andb_true_iff, !Qeq_bool_iff. tauto.
Qed.

Lemma blend_visible (color color' : rgba) (pixel : rgb) :
  rgb_eq (visible color) (visible color') -> rgb_eq (blend color pixel) (blend color' pixel).
Proof.
  unfold rgb_eq, visible, blend. simpl. intros (Hr & Hg & Hb).
  rewrite Hr, Hg, Hb. repeat split; reflexivity.
Qed.

(** C5. With the colour map [hot], the one the code asks for in line 187:
    a pixel whose colour is the colour of density 0.0 has its colour set to
    zero, and the colour that lines 192-195 read from any other pixel is the
    one the colour map gave it; so every pixel of the result is the blend of
    the mosaic with the colour the claim describes, and a pixel of density
    0.0 comes out as the pixel of the mosaic in the three channels.  (Line
    190 also zeroes the alpha of every pixel of [hot]; the alpha is not read
    afterwards.) *)
Theorem background_zeroed {ext : Externals} (data : grid npfloat) (supertile : grid rgb)
        (h w r c : Z) :
  (forall v, cmap v = hot v) ->
  has_shape data h w = true -> has_shape supertile h w = true ->
  0 <= r < h -> 0 <= c < w ->
  let color := cmap (cell NaN data r c) in
  let background := cmap (Fin 0) in
  let out := cell (mk_rgba 0 0 0 0) (colorize data) r c in
  let pixel := cell (mk_rgb 0 0 0) (composite (colorize data) supertile) r c in
  (rgba_eqb color background = true -> out = mk_rgba 0 0 0 0)
  /\ (rgba_eqb color background = false -> rgb_eq (visible out) (visible color))
  /\ rgb_eq pixel (blend (remove_background_spec background color)
                         (cell (mk_rgb 0 0 0) supertile r c))
  /\ (cell NaN data r c = Fin 0 -> rgb_eq pixel (cell (mk_rgb 0 0 0) supertile r c)).
Proof.
  intros Hhot Hd Hs Hr Hc color background out pixel.
  pose proof (colorize_cell data h w r c Hd Hr Hc) as Hcolor.
  fold color background out in Hcolor.
  pose proof (colorize_shape data h w Hd) as Hshape.
  assert (Hvis : rgb_eq (visible out) (visible (remove_background_spec background color))).
  { rewrite Hcolor. subst color background. rewrite !Hhot.
    apply rgb_eqb_eq, hot_background_visible. }
  assert (Hpixel : pixel = blend out (cell (mk_rgb 0 0 0) supertile r c)).
  { subst pixel out.
    now rewrite (cell_composite _ supertile h w r c (mk_rgba 0 0 0 0) _ (mk_rgb 0 0 0)). }
  split; [|split; [|split]].
  - intros E. rewrite Hcolor. now apply remove_background_same.
  - intros E. unfold remove_background_spec in Hvis. now rewrite E in Hvis.
  - rewrite Hpixel. now apply blend_visible.
  - intros E. rewrite Hpixel, Hcolor. subst color background. rewrite E.
    rewrite (remove_background_same _ _ (rgba_eqb_refl _)). apply blend_transparent.
Qed.

(** The witness of [background_zeroed]: a pixel of density 0.0 beside one of
    density 1.0, whose colour under [hot] is white; the first comes out as
    the gray of the mosaic, the second keeps its white. *)
Lemma background_zeroed_witness :
  let data := [[Fin 0; Fin 1]] in
  let supertile := [[mk_rgb (1 # 4) (1 # 4) (1 # 4); mk_rgb (1 # 2) (1 # 2) (1 # 2)]] in
  rgb_eq (cell (mk_rgb 0 0 0) (composite (colorize (ext := equator) data) supertile) 0 0)
         (mk_rgb (1 # 4) (1 # 4) (1 # 4))
  /\ rgb_eq (visible (cell (mk_rgba 0 0 0 0) (colorize (ext := equator) data) 0 1))
            (mk_rgb 1 1 1).
Proof.
  split.
  - apply (background_zeroed (ext := equator) [[Fin 0; Fin 1]]
             [[mk_rgb (1 # 4) (1 # 4) (1 # 4); mk_rgb (1 # 2) (1 # 2) (1 # 2)]] 1 2 0 0);
      try reflexivity; lia.
  - apply (background_zeroed (ext := equator) [[Fin 0; Fin 1]]
             [[mk_rgb (1 # 4) (1 # 4) (1 # 4); mk_rgb (1 # 2) (1 # 2) (1 # 2)]] 1 2 0 1);
      try reflexivity; lia.
Defined.

(** ** Degenerate inputs *)

Lemma render_heatmap_empty {ext : Externals} (fuel : nat) (num_activities arg_zoom : Z)
      (log : list event) :
  render_heatmap fuel [] num_activities arg_zoom log = (log, Raise ValueError).
Proof. reflexivity. Qed.

Lemma normalize_flat (data : grid Q) (lo hi : Q) :
  np_min (concat data) = Some lo -> np_max (concat data) = Some hi -> (lo == hi)%Q ->
  normalize data = Ok (map (map (fun _ => NaN)) data).
Proof.
  intros Hlo Hhi E. unfold normalize. rewrite Hlo, Hhi. f_equal.
  apply map_ext_in. intros row Hrow. apply map_ext_in. intros x Hx.
  pose proof (np_min_le _ _ x Hlo (in_grid_concat data row x Hrow Hx)) as H1.
  pose proof (np_max_ge _ _ x Hhi (in_grid_concat data row x Hrow Hx)) as H2.
  unfold np_divide.
  assert (E1 : Qeq_bool (hi - lo) 0 = true) by (apply Qeq_bool_iff; lra).
  assert (E2 : Qeq_bool (x - lo) 0 = true) by (apply Qeq_bool_iff; lra).
  now rewrite E1, E2.
Qed.

(** C3, as the code has it. An empty point set makes [render_heatmap] fail
    with the [ValueError] of line 86, before anything else is done. A density
    grid without variation does not make line 184 fail, but the line has no
    fallback: it divides zero by zero and every normalised value is NaN. When
    the colour map sends NaN to the all-zero colour, the overlay vanishes and
    the pixels of the result are those of the mosaic. *)
Theorem degenerate_inputs {ext : Externals} (fuel : nat) (num_activities arg_zoom : Z)
        (log : list event) (data : grid Q) (supertile : grid rgb) (lo hi : Q) (h w : Z) :
  np_min (concat data) = Some lo -> np_max (concat data) = Some hi -> (lo == hi)%Q ->
  has_shape data h w = true -> has_shape supertile h w = true ->
  cmap NaN = mk_rgba 0 0 0 0 ->
  render_heatmap fuel [] num_activities arg_zoom log = (log, Raise ValueError)
  /\ normalize data = Ok (map (map (fun _ => NaN)) data)
  /\ (forall r c,
         0 <= r < h -> 0 <= c < w ->
         rgb_eq (cell (mk_rgb 0 0 0)
                      (composite (colorize (map (map (fun _ => NaN)) data)) supertile) r c)
                (cell (mk_rgb 0 0 0) supertile r c)).
Proof.
  intros Hlo Hhi E Hd Hs Hbad. split; [apply render_heatmap_empty|].
  split; [now apply (normalize_flat data lo hi)|].
  intros r c Hr Hc.
  pose proof (has_shape_map (fun _ : Q => NaN) data h w Hd) as Hnan.
  rewrite (cell_composite _ supertile h w r c (mk_rgba 0 0 0 0) _ (mk_rgb 0 0 0))
    by (try assumption; now apply colorize_shape).
  rewrite (colorize_cell _ h w r c Hnan Hr Hc).
  rewrite (cell_map (fun _ : Q => NaN) data h w r c 0%Q NaN Hd Hr Hc).
  rewrite Hbad.
  replace (remove_background (cmap (Fin 0)) (mk_rgba 0 0 0 0)) with (mk_rgba 0 0 0 0).
  - apply blend_transparent.
  - unfold remove_background. simpl.
    now destruct (Qeq_bool 0 (c_red _)), (Qeq_bool 0 (c_green _)),
      (Qeq_bool 0 (c_blue _)), (Qeq_bool 0 (c_alpha _)).
Qed.

(** The witness of [degenerate_inputs]: a grid of four equal values under
    [hot]. *)
Lemma degenerate_inputs_witness :
  render_heatmap (ext := equator) 20 [] 1 (-1) [] = ([], Raise ValueError)
  /\ normalize [[3; 3]; [3; 3]]%Q = Ok [[NaN; NaN]; [NaN; NaN]].
Proof.
  pose proof (degenerate_inputs (ext := equator) 20 1 (-1) [] [[3; 3]; [3; 3]]%Q
                [[mk_rgb 0 0 0; mk_rgb 0 0 0]; [mk_rgb 0 0 0; mk_rgb 0 0 0]] 3 3 2 2
                eq_refl eq_refl eq_refl eq_refl eq_refl eq_refl) as (H1 & H2 & _).
  split; assumption.
Defined.

(** C3, as the claim has it, fails on the empty point set: the render of no
    point at all ends in a [ValueError]. *)
Lemma render_empty_fails :
  snd (render_heatmap (ext := equator) 20 [] 0 (-1) []) = Raise ValueError.
Proof. reflexivity. Qed.

(** ** Zoom search *)

Section ZoomSearch.

Context {ext : Externals}.
Variable b : GeoBounds.

(** Where the loop stops, the test holds; it failed at every zoom the loop
    went through before. *)
Lemma auto_zoom_stops (fuel : nat) (start zoom : Z) (t : TileRect) :
  auto_zoom fuel b start = Some (zoom, t) ->
  zoom <= start
  /\ t = tile_rect b zoom
  /\ fits t = true
  /\ (forall z, zoom < z <= start -> fits (tile_rect b z) = false).
Proof.
  revert start; induction fuel as [|fuel IH]; intros start H; simpl in H; [discriminate|].
  destruct (fits (tile_rect b start)) eqn:E.
  - injection H as <- <-. repeat split; try assumption; try lia.
  - destruct (IH _ H) as (Hle & Ht & Hfit & Hfirst).
    repeat split; try assumption; try lia.
    intros z Hz. destruct (Z.eq_dec z start) as [-> | Hne]; [assumption|].
    apply Hfirst. lia.
Qed.

(** With a zoom at which the test holds below the start, enough fuel lets the
    loop reach its [break]. *)
Lemma auto_zoom_reaches (fuel : nat) (start low : Z) :
  fits (tile_rect b low) = true -> low <= start -> start - low < Z.of_nat fuel ->
  exists zoom t, auto_zoom fuel b start = Some (zoom, t) /\ low <= zoom <= start.
Proof.
  intros Hlow. revert start; induction fuel as [|fuel IH]; intros start Hle Hfuel; [lia|].
  simpl. destruct (fits (tile_rect b start)) eqn:E.
  - exists start, (tile_rect b start). split; [reflexivity | lia].
  - assert (Hne : low <> start) by (intros ->; congruence).
    destruct (IH (start - 1)) as (zoom & t & H & Hz); try lia.
    exists zoom, t. split; [assumption | lia].
Qed.

(** The loop has no lower end of its own: where the test never holds, no
    amount of fuel brings it to a [break], at zoom 0 or elsewhere. *)
Lemma auto_zoom_no_floor (fuel : nat) (start : Z) :
  (forall z, fits (tile_rect b z) = false) -> auto_zoom fuel b start = None.
Proof.
  intros H. revert start; induction fuel as [|fuel IH]; intros start; simpl; [reflexivity|].
  now rewrite H.
Qed.

Lemma py_int_unit (q : Q) : (0 <= q < 1)%Q -> py_int q = 0.
Proof.
  destruct q as [n d]. unfold Qle, Qlt, py_int. simpl. intros [H0 H1].
  apply Z.quot_small. lia.
Qed.

Lemma world_tile_fits : on_world_tile b -> fits (tile_rect b 0) = true.
Proof.
  unfold on_world_tile, tile_rect. intros [Hmin Hmax].
  destruct (latlon_to_xy (lat_bound_min b) (lon_bound_min b) 0) as [x0 y1].
  destruct (latlon_to_xy (lat_bound_max b) (lon_bound_max b) 0) as [x1 y0].
  simpl in Hmin, Hmax. destruct Hmin as [Hx0 Hy1], Hmax as [Hx1 Hy0].
  now rewrite !py_int_unit by assumption.
Qed.

Lemma resolve_auto (fuel : nat) (arg_zoom : Z) :
  arg_zoom < 0 -> resolve fuel b arg_zoom = auto_zoom fuel b OSM_MAX_ZOOM.
Proof.
  intros H. unfold resolve. destruct (Z.gtb_spec arg_zoom (-1)); [lia | reflexivity].
Qed.

(** The search as the code runs it. In auto mode it starts at zoom 19 and
    stops at the first zoom at which the width of the tile rectangle is at
    most 2160 pixels and its height at most 3840 pixels, the two entries of
    [MAX_HEATMAP_SIZE] in the order the test reads them; for bounds on the
    world tile the search returns, and the mosaic of the result is within
    these bounds. *)
Lemma auto_zoom_first_fit (fuel : nat) (arg_zoom : Z) :
  arg_zoom < 0 -> on_world_tile b -> (20 <= fuel)%nat ->
  exists zoom t,
    resolve fuel b arg_zoom = Some (zoom, t)
    /\ zoom <= 19
    /\ t = tile_rect b zoom
    /\ (forall z, zoom < z <= 19 ->
          2160 < tiles_x (tile_rect b z) * 256 \/ 3840 < tiles_y (tile_rect b z) * 256)
    /\ tiles_x t * 256 <= 2160
    /\ tiles_y t * 256 <= 3840.
Proof.
  intros Hauto Hb Hfuel. rewrite (resolve_auto fuel arg_zoom Hauto).
  destruct (auto_zoom_reaches fuel OSM_MAX_ZOOM 0 (world_tile_fits Hb)) as (zoom & t & H & Hz);
    try (unfold OSM_MAX_ZOOM; lia).
  exists zoom, t. split; [assumption|].
  destruct (auto_zoom_stops _ _ _ _ H) as (Hle & Ht & Hfit & Hfirst).
  unfold fits, MAX_HEATMAP_SIZE, OSM_TILE_SIZE, OSM_MAX_ZOOM in *. simpl in *.
  apply andb_prop in Hfit. destruct Hfit as [Hx Hy].
  repeat split; try assumption; try lia.
  intros z Hz'. specialize (Hfirst z Hz'). apply andb_false_iff in Hfirst. lia.
Qed.


End ZoomSearch.

(** The witness of [auto_zoom_first_fit]: the six thousandths of a degree of
    the equator east of Greenwich. *)
Lemma auto_zoom_first_fit_witness :
  exists zoom t,
    resolve (ext := equator) 20 (mk_bounds 0 0 0 (6 # 1000)) (-1) = Some (zoom, t)
    /\ zoom <= 19
    /\ t = tile_rect (ext := equator) (mk_bounds 0 0 0 (6 # 1000)) zoom
    /\ (forall z, zoom < z <= 19 ->
          2160 < tiles_x (tile_rect (ext := equator) (mk_bounds 0 0 0 (6 # 1000)) z) * 256
          \/ 3840 < tiles_y (tile_rect (ext := equator) (mk_bounds 0 0 0 (6 # 1000)) z) * 256)
    /\ tiles_x t * 256 <= 2160
    /\ tiles_y t * 256 <= 3840.
Proof.
  apply (auto_zoom_first_fit (ext := equator) (mk_bounds 0 0 0 (6 # 1000)) 20 (-1)).
  - reflexivity.
  - vm_compute. repeat split; discriminate || reflexivity.
  - apply le_n.
Defined.

(** C1. The test of lines 102-104 holds the width of the rectangle against
    2160 and its height against 3840, the other way round than the claim and
    than the rows-first shape of the mosaic in lines 116-122.  On the track
    of the witness above the rectangle at zoom 19 is nine tiles wide and one
    high, 2304 by 256 pixels, within 3840 by 2160, and the search does not
    stop there but at zoom 18; and a rectangle one tile wide and ten high,
    2560 rows, passes the test. *)
Theorem auto_zoom_limits_transposed :
  (forall t, fits t = true <-> tiles_x t * 256 <= 2160 /\ tiles_y t * 256 <= 3840)
  /\ (let lat_lon_data := [(0, 0); (0, 6 # 1000)]%Q in
      let b := mk_bounds 0 0 0 (6 # 1000) in
      bounds_of lat_lon_data = Some b
      /\ (tiles_x (tile_rect (ext := equator) b 19) * 256,
          tiles_y (tile_rect (ext := equator) b 19) * 256) = (2304, 256)
      /\ fits_spec (tile_rect (ext := equator) b 19) = true
      /\ fits (tile_rect (ext := equator) b 19) = false
      /\ option_map fst (resolve (ext := equator) 20 b (-1)) = Some 18)
  /\ (let t := mk_rect 0 0 0 9 in
      (tiles_x t * 256, tiles_y t * 256) = (256, 2560)
      /\ fits t = true
      /\ fits_spec t = false).
Proof.
  split; [|split].
  - intros t. unfold fits, MAX_HEATMAP_SIZE, OSM_TILE_SIZE. cbn [fst snd].
    rewrite andb_true_iff, !Z.leb_le. reflexivity.
  - cbv zeta. split; [reflexivity|]. split; [vm_compute; reflexivity|].
    split; [vm_compute; reflexivity|]. split; vm_compute; reflexivity.
  - cbv zeta. split; [reflexivity|]. split; vm_compute; reflexivity.
Qed.



(** ** Tile budget *)

Lemma requests_app (l l' : list event) : requests (l ++ l') = requests l ++ requests l'.
Proof. unfold requests. apply flat_map_app. Qed.

Lemma for_each_log {A S} (ev : A -> list event) (body : S -> A -> M S) (l : list A) :
  (forall s x log, exists s', body s x log = (log ++ ev x, Ok s')) ->
  forall s log, exists s', for_each l body s log = (log ++ flat_map ev l, Ok s').
Proof.
  intros Hbody. induction l as [|x l IH]; intros s log; simpl.
  - exists s. unfold ret. now rewrite app_nil_r.
  - unfold bind. destruct (Hbody s x log) as [s1 ->].
    destruct (IH s1 (log ++ ev x)) as [s2 ->].
    exists s2. now rewrite app_assoc.
Qed.

Lemma tile_events (zoom : Z) (xs ys : list Z) :
  flat_map (fun x => map (fun y => Get_tile zoom x y) ys) xs =
  map (fun '(z, x, y) => Get_tile z x y) (flat_map (fun x => map (fun y => (zoom, x, y)) ys) xs).
Proof.
  induction xs as [|x xs IH]; simpl; [reflexivity|].
  now rewrite map_app, map_map, IH.
Qed.

Section TileBudget.

Context {ext : Externals}.

Lemma assemble_log (zoom : Z) (t : TileRect) (supertile : grid rgb) (log : list event) :
  exists supertile',
    assemble zoom t supertile log = (log ++ map (fun '(z, x, y) => Get_tile z x y) (tiles_of zoom t),
                                     Ok supertile').
Proof.
  unfold assemble.
  destruct (for_each_log
              (fun x => map (fun y => Get_tile zoom x y) (py_range (y_tile_min t) (y_tile_max t + 1)))
              (fun supertile x =>
                 for_each (py_range (y_tile_min t) (y_tile_max t + 1))
                   (fun supertile y =>
                      bind (emit (Get_tile zoom x y))
                           (fun _ => ret (place_tile supertile (y - y_tile_min t) (x - x_tile_min t)
                                                     (get_tile zoom x y))))
                   supertile)
              (py_range (x_tile_min t) (x_tile_max t + 1))) with (s := supertile) (log := log)
    as [supertile' H].
  - intros s x log0.
    destruct (for_each_log (fun y => [Get_tile zoom x y])
                (fun supertile y =>
                   bind (emit (Get_tile zoom x y))
                        (fun _ => ret (place_tile supertile (y - y_tile_min t) (x - x_tile_min t)
                                                  (get_tile zoom x y))))
                (py_range (y_tile_min t) (y_tile_max t + 1))) with (s := s) (log := log0)
      as [s' Hs'].
    + intros s0 y log1. eexists. reflexivity.
    + exists s'. rewrite Hs'. apply (f_equal (fun l => (log0 ++ l, Ok s'))).
      induction (py_range (y_tile_min t) (y_tile_max t + 1)) as [|y ys IH]; simpl;
        [reflexivity | now f_equal].
  - exists supertile'. rewrite H. unfold tiles_of. now rewrite tile_events.
Qed.

Lemma requests_get_tiles (l : list (Z * Z * Z)) :
  requests (map (fun '(z, x, y) => Get_tile z x y) l) = l.
Proof.
  induction l as [|[[z x] y] l IH]; simpl; [reflexivity|]. now rewrite IH.
Qed.

Lemma equalize_no_exit (m : Z) (data : grid Q) (msg : string) :
  equalize m data <> Raise (SystemExit msg).
Proof.
  unfold equalize. destruct (np_histogram _ _); [|discriminate].
  destruct (remap _ _ _); discriminate.
Qed.

Lemma normalize_no_exit (data : grid Q) (msg : string) :
  normalize data <> Raise (SystemExit msg).
Proof.
  unfold normalize. destruct (np_min (concat data)), (np_max (concat data)); discriminate.
Qed.

(** What happens after the test of line 113: no [exit], and, when the
    rectangle has no negative side, one request for each of its tiles. *)
Lemma render_tiles_log (zoom : Z) (t : TileRect) (lat_lon_data : list (Q * Q))
      (num_activities : Z) (log log' : list event) (out : outcome (grid rgb)) :
  render_tiles zoom t lat_lon_data num_activities log = (log', out) ->
  (forall msg, out <> Raise (SystemExit msg))
  /\ (0 <= tiles_x t -> 0 <= tiles_y t -> requests log' = requests log ++ tiles_of zoom t).
Proof.
  unfold render_tiles, np_zeros.
  destruct (Z.ltb_spec (tiles_y t * OSM_TILE_SIZE) 0) as [Hy | Hy];
    [|destruct (Z.ltb_spec (tiles_x t * OSM_TILE_SIZE) 0) as [Hx | Hx]]; simpl orb.
  - unfold bind, lift. intros [= <- <-]. split; [discriminate|].
    unfold OSM_TILE_SIZE in Hy. lia.
  - unfold bind, lift. intros [= <- <-]. split; [discriminate|].
    unfold OSM_TILE_SIZE in Hx. lia.
  - unfold bind at 1. unfold lift at 1. unfold bind at 1.
    destruct (assemble_log zoom t (full (tiles_y t * OSM_TILE_SIZE) (tiles_x t * OSM_TILE_SIZE)
                                        (mk_rgb 0 0 0)) log) as [supertile ->].
    cbv zeta. unfold bind, lift, emit, ret.
    pose proof (equalize_no_exit
                  (ceiling lat_lon_data zoom num_activities)
                  (splat (map (map (fun _ => 0%Q)) (map (map inverted_gray) supertile))
                         (to_supertile zoom t lat_lon_data))) as Heq.
    destruct (equalize _ _) as [data | e | ].
    + pose proof (normalize_no_exit (gaussian_filter data (inject_Z sigma_pixel))) as Hnorm.
      destruct (normalize _) as [normalized | e | ].
      * destruct (np_min _) as [lo|]; simpl;
          [destruct (np_max _) as [hi|]; simpl|];
          intros [= <- <-]; (split; [discriminate|]); intros _ _;
          rewrite ?requests_app, requests_get_tiles; simpl; now rewrite ?app_nil_r.
      * intros [= <- <-]. split; [intros msg [= ->]; now apply (Hnorm msg)|]. intros _ _.
        now rewrite requests_app, requests_get_tiles.
      * intros [= <- <-]. split; [discriminate|]. intros _ _.
        now rewrite requests_app, requests_get_tiles.
    + intros [= <- <-]. split; [intros msg [= ->]; now apply (Heq msg)|]. intros _ _.
      now rewrite requests_app, requests_get_tiles.
    + intros [= <- <-]. split; [discriminate|]. intros _ _.
      now rewrite requests_app, requests_get_tiles.
Qed.

Lemma render_heatmap_run (fuel : nat) (lat_lon_data : list (Q * Q)) (num_activities arg_zoom : Z)
      (b : GeoBounds) (zoom : Z) (t : TileRect) (log : list event) (out : outcome (grid rgb)) :
  bounds_of lat_lon_data = Some b ->
  resolve fuel b arg_zoom = Some (zoom, t) ->
  render_heatmap fuel lat_lon_data num_activities arg_zoom [] = (log, out) ->
  (MAX_TILE_COUNT < tile_count t -> out = Raise too_many_tiles /\ requests log = [])
  /\ (tile_count t <= MAX_TILE_COUNT ->
      (forall msg, out <> Raise (SystemExit msg))
      /\ (0 <= tiles_x t -> 0 <= tiles_y t -> requests log = tiles_of zoom t)).
Proof.
  intros Hb Hres. unfold render_heatmap, resolve in *. rewrite Hb.
  unfold bind at 1. unfold lift at 1. unfold or_raise at 1. unfold bind at 1.
  destruct (arg_zoom >? -1).
  - injection Hres as <- <-. unfold ret at 1.
    destruct (Z.gtb_spec (tile_count (tile_rect b (Z.min arg_zoom OSM_MAX_ZOOM))) MAX_TILE_COUNT)
      as [Hcount | Hcount].
    + unfold raise. intros [= <- <-]. split; [now split | lia].
    + intros Hrun. split; [lia|]. intros _.
      now apply (render_tiles_log _ _ _ _ _ _ _ Hrun).
  - rewrite Hres. unfold bind at 1. unfold emit at 1. unfold ret at 1.
    destruct (Z.gtb_spec (tile_count t) MAX_TILE_COUNT) as [Hcount | Hcount].
    + unfold raise. intros [= <- <-]. split; [now split | lia].
    + intros Hrun. split; [lia|]. intros _.
      now apply (render_tiles_log _ _ _ _ _ _ _ Hrun).
Qed.

(** C2. Whichever path settled the rectangle, a tile count above 2000 ends
    the render in the [exit] of line 114 with no tile requested and no image
    returned; a tile count within the budget never ends in that [exit], and
    the render goes on to request the tiles of the rectangle, one by one. *)
Theorem tile_budget (fuel : nat) (lat_lon_data : list (Q * Q)) (num_activities arg_zoom : Z)
        (b : GeoBounds) (zoom : Z) (t : TileRect) :
  bounds_of lat_lon_data = Some b ->
  resolve fuel b arg_zoom = Some (zoom, t) ->
  let run := render_heatmap fuel lat_lon_data num_activities arg_zoom [] in
  (MAX_TILE_COUNT < tile_count t ->
   snd run = Raise too_many_tiles /\ requests (fst run) = [])
  /\ (tile_count t <= MAX_TILE_COUNT ->
      (forall msg, snd run <> Raise (SystemExit msg))
      /\ (0 <= tiles_x t -> 0 <= tiles_y t -> requests (fst run) = tiles_of zoom t)).
Proof.
  intros Hb Hres run. subst run.
  destruct (render_heatmap fuel lat_lon_data num_activities arg_zoom []) as [log out] eqn:Hrun.
  simpl fst. simpl snd.
  exact (render_heatmap_run fuel lat_lon_data num_activities arg_zoom b zoom t log out
           Hb Hres Hrun).
Qed.

End TileBudget.

(** The witness of [tile_budget]: two degrees of the equator at zoom 19 are
    2913 tiles. *)
Lemma tile_budget_witness :
  tile_count (tile_rect (ext := equator) (mk_bounds 0 0 0 2) 19) = 2913
  /\ snd (render_heatmap (ext := equator) 0 [(0, 0); (0, 2)]%Q 1 19 []) = Raise too_many_tiles
  /\ requests (fst (render_heatmap (ext := equator) 0 [(0, 0); (0, 2)]%Q 1 19 [])) = [].
Proof.
  split; [vm_compute; reflexivity|].
  apply (tile_budget (ext := equator) 0 [(0, 0); (0, 2)]%Q 1 19
           (mk_bounds 0 0 0 2) 19 (tile_rect (ext := equator) (mk_bounds 0 0 0 2) 19)
           eq_refl eq_refl).
  vm_compute; reflexivity.
Defined.

(** ** Histogram equalisation *)

Lemma clip_le (m : Q) (data : grid Q) :
  Forall (Forall (fun v => (v <= m)%Q)) (clip m data).
Proof.
  unfold clip. apply Forall_forall. intros row Hrow.
  apply in_map_iff in Hrow. destruct Hrow as (row0 & <- & _).
  apply Forall_forall. intros v Hv.
  apply in_map_iff in Hv. destruct Hv as (x & <- & _).
  destruct (Qlt_le_dec m x); [apply Qle_refl | assumption].
Qed.

Lemma Qfloor_unique (x : Q) (j : Z) :
  (inject_Z j <= x < inject_Z (j + 1))%Q -> Qfloor x = j.
Proof.
  intros [Hlo Hhi].
  pose proof (Qfloor_le x) as H1. pose proof (Qlt_floor x) as H2.
  assert (A : (inject_Z (Qfloor x) < inject_Z (j + 1))%Q) by lra.
  assert (B : (inject_Z j < inject_Z (Qfloor x + 1))%Q) by lra.
  rewrite <- Zlt_Qlt in A, B. lia.
Qed.

(** Over the range [0, m] the bin of a whole number is that number. *)
Lemma bin_index_integer (lo hi v : Q) (m j : Z) :
  1 <= m -> 0 <= j <= m ->
  (lo == 0)%Q -> (hi == inject_Z m)%Q -> (v == inject_Z j)%Q ->
  bin_index lo hi (m + 1) v = j.
Proof.
  intros Hm Hj Hlo Hhi Hv. unfold bin_index.
  assert (HM : (0 < inject_Z m)%Q) by (rewrite <- (Zlt_Qlt 0); lia).
  destruct (Qeq_bool v hi) eqn:E.
  - apply Qeq_bool_iff in E. rewrite Hv, Hhi in E.
    apply (proj1 (inject_Z_injective j m)) in E. lia.
  - apply Qeq_bool_neq in E.
    assert (Hjm : j < m).
    { destruct (Z.eq_dec j m) as [-> | Hne]; [|lia]. exfalso. apply E. now rewrite Hv, Hhi. }
    assert (HJ0 : (0 <= inject_Z j)%Q) by (rewrite <- (Zle_Qle 0); lia).
    assert (HJM : (inject_Z j < inject_Z m)%Q) by (now rewrite <- Zlt_Qlt).
    apply Qfloor_unique. rewrite !inject_Z_plus, Hv, Hlo, Hhi. split.
    + apply Qle_shift_div_l; [lra|]. change (inject_Z 1) with 1%Q. nra.
    + apply Qlt_shift_div_r; [lra|]. change (inject_Z 1) with 1%Q. nra.
Qed.

(** When the data are pixel counts up to [m >= 1] and both 0 and [m] occur,
    the bins of [np.histogram] are the integer bins of the specification. *)
Lemma np_histogram_integer_bins (a : list Q) (m : Z) :
  1 <= m ->
  Forall (whole_up_to m) a ->
  (exists v, In v a /\ (v == 0)%Q) ->
  (exists v, In v a /\ (v == inject_Z m)%Q) ->
  np_histogram a (m + 1) = Some (integer_histogram a m).
Proof.
  intros Hm Hall (v0 & Hv0 & E0) (vm & Hvm & Em).
  rewrite Forall_forall in Hall.
  unfold np_histogram, integer_histogram.
  destruct (Z.ltb_spec (m + 1) 1); [lia|].
  destruct (np_min a) as [lo|] eqn:Hmin; [|destruct a; [contradiction | discriminate]].
  destruct (np_max a) as [hi|] eqn:Hmax; [|destruct a; [contradiction | discriminate]].
  assert (Hlo : (lo == 0)%Q).
  { destruct (Hall lo (np_min_in _ _ Hmin)) as (k & Hk & Ek).
    pose proof (np_min_le _ _ _ Hmin Hv0) as Hle.
    assert (H0k : (0 <= inject_Z k)%Q) by (rewrite <- (Zle_Qle 0); lia). lra. }
  assert (Hhi : (hi == inject_Z m)%Q).
  { destruct (Hall hi (np_max_in _ _ Hmax)) as (k & Hk & Ek).
    pose proof (np_max_ge _ _ _ Hmax Hvm) as Hge.
    assert (Hkm : (inject_Z k <= inject_Z m)%Q) by (rewrite <- Zle_Qle; lia). lra. }
  unfold histogram_range. rewrite Hmin, Hmax.
  assert (HM : (0 < inject_Z m)%Q) by (rewrite <- (Zlt_Qlt 0); lia).
  destruct (Qeq_bool lo hi) eqn:E; [apply Qeq_bool_iff in E; lra|].
  f_equal. apply map_ext_in. intros k _. unfold count_if. apply (f_equal (@zlength Q)).
  apply filter_ext_in. intros v Hv.
  destruct (Hall v Hv) as (j & Hj & Ej).
  rewrite (bin_index_integer lo hi v m j Hm Hj Hlo Hhi Ej).
  destruct (Z.eqb_spec j k) as [-> | Hne]; symmetry.
  - now apply Qeq_bool_iff.
  - destruct (Qeq_bool v (inject_Z k)) eqn:Ek; [|reflexivity].
    apply Qeq_bool_iff in Ek. rewrite Ej in Ek.
    apply (proj1 (inject_Z_injective j k)) in Ek. contradiction.
Qed.

(** The code and the specification part ways over the histogram only. *)
Lemma equalize_agrees (m : Z) (data : grid Q) :
  np_histogram (concat (clip (inject_Z m) data)) (m + 1)
  = Some (integer_histogram (concat (clip (inject_Z m) data)) m) ->
  equalize m data = equalize_spec m data.
Proof. unfold equalize, equalize_spec. now intros ->. Qed.

(** So they agree on a grid of pixel counts that has an empty pixel and a
    pixel that reaches the ceiling. *)
Lemma equalize_saturated (m : Z) (data : grid Q) :
  1 <= m ->
  Forall (whole_up_to m) (concat (clip (inject_Z m) data)) ->
  (exists v, In v (concat (clip (inject_Z m) data)) /\ (v == 0)%Q) ->
  (exists v, In v (concat (clip (inject_Z m) data)) /\ (v == inject_Z m)%Q) ->
  equalize m data = equalize_spec m data.
Proof.
  intros Hm Hall H0 Hmax. apply equalize_agrees.
  now apply np_histogram_integer_bins.
Qed.

(** C7. One track point at row 100 and column 117 of a mosaic of one tile,
    with the ceiling [m = 2] of one activity at zoom 14 by the equator.
    The grid holds four pixels of value 1 and no pixel of value 2, so
    [np.histogram] spreads its three bins over [0, 1]: the four pixels fall
    into the last bin, not into the bin of index 1, and the remapping gives
    them the value of the empty pixels. The equalised grid is uniform and the
    track is gone. With the histogram over the integer bins 0, 1, 2 of the
    claim the four pixels get [m * 1 = 2]. *)
Theorem equalize_flattens_sparse_track :
  let data := splat (full 256 256 0%Q) [(117, 100)] in
  ceiling (ext := equator) [(0, 1 # 100)]%Q 14 1 = 2
  /\ np_histogram (concat data) (2 + 1) = Some [65532; 0; 4]
  /\ integer_histogram (concat data) 2 = [65532; 4; 0]
  /\ on_ok (fun g => Qeq_bool (cell 0%Q g 100 117) (cell 0%Q g 0 0)) (equalize 2 data) = Ok true
  /\ on_ok uniform (equalize 2 data) = Ok true
  /\ on_ok (fun g => Qeq_bool (cell 0%Q g 100 117) 2) (equalize_spec 2 data) = Ok true
  /\ on_ok (fun g => Qeq_bool (cell 0%Q g 0 0) (2 * (65532 # 65536))) (equalize_spec 2 data)
     = Ok true.
Proof.
  cbv zeta.
  split; [vm_compute; reflexivity|].
  split; [vm_compute; reflexivity|]. split; [vm_compute; reflexivity|].
  split; [vm_compute; reflexivity|]. split; [vm_compute; reflexivity|].
  split; vm_compute; reflexivity.
Qed.

(** * Further properties *)

(** ** Bounds of a track *)

Lemma in_map_fst {A B} (l : list (A * B)) (a : A) (b : B) : In (a, b) l -> In a (map fst l).
Proof. intros H. change a with (fst (a, b)). now apply in_map. Qed.

Lemma in_map_snd {A B} (l : list (A * B)) (a : A) (b : B) : In (a, b) l -> In b (map snd l).
Proof. intros H. change b with (snd (a, b)). now apply in_map. Qed.

Lemma bounds_of_encloses (lat_lon_data : list (Q * Q)) (b : GeoBounds) :
  bounds_of lat_lon_data = Some b ->
  lat_lon_data <> []
  /\ (forall lat lon,
        In (lat, lon) lat_lon_data ->
        (lat_bound_min b <= lat <= lat_bound_max b)%Q
        /\ (lon_bound_min b <= lon <= lon_bound_max b)%Q).
Proof.
  unfold bounds_of. intros H.
  destruct (np_min (map fst lat_lon_data)) as [lat0|] eqn:H1; [|discriminate].
  destruct (np_min (map snd lat_lon_data)) as [lon0|] eqn:H2; [|discriminate].
  destruct (np_max (map fst lat_lon_data)) as [lat1|] eqn:H3; [|discriminate].
  destruct (np_max (map snd lat_lon_data)) as [lon1|] eqn:H4; [|discriminate].
  injection H as <-. simpl.
  split; [intros ->; discriminate|].
  intros lat lon Hin. repeat split.
  - apply (np_min_le _ _ _ H1). now apply (in_map_fst _ lat lon).
  - apply (np_max_ge _ _ _ H3). now apply (in_map_fst _ lat lon).
  - apply (np_min_le _ _ _ H2). now apply (in_map_snd _ lat lon).
  - apply (np_max_ge _ _ _ H4). now apply (in_map_snd _ lat lon).
Qed.

Lemma bounds_of_attained (lat_lon_data : list (Q * Q)) (b : GeoBounds) :
  bounds_of lat_lon_data = Some b ->
  In (lat_bound_min b) (map fst lat_lon_data)
  /\ In (lat_bound_max b) (map fst lat_lon_data)
  /\ In (lon_bound_min b) (map snd lat_lon_data)
  /\ In (lon_bound_max b) (map snd lat_lon_data).
Proof.
  unfold bounds_of. intros H.
  destruct (np_min (map fst lat_lon_data)) as [lat0|] eqn:H1; [|discriminate].
  destruct (np_min (map snd lat_lon_data)) as [lon0|] eqn:H2; [|discriminate].
  destruct (np_max (map fst lat_lon_data)) as [lat1|] eqn:H3; [|discriminate].
  destruct (np_max (map snd lat_lon_data)) as [lon1|] eqn:H4; [|discriminate].
  injection H as <-. simpl.
  repeat split; [now apply np_min_in | now apply np_max_in
                 | now apply np_min_in | now apply np_max_in].
Qed.

(** X1. The bounds of lines 86-87 exist only for a track with a point; they
    enclose every point of the track, and each of the four is the latitude
    or the longitude of some point. *)
Theorem bounds_of_spans (lat_lon_data : list (Q * Q)) (b : GeoBounds) :
  bounds_of lat_lon_data = Some b ->
  lat_lon_data <> []
  /\ (forall lat lon,
        In (lat, lon) lat_lon_data ->
        (lat_bound_min b <= lat <= lat_bound_max b)%Q
        /\ (lon_bound_min b <= lon <= lon_bound_max b)%Q)
  /\ In (lat_bound_min b) (map fst lat_lon_data)
  /\ In (lat_bound_max b) (map fst lat_lon_data)
  /\ In (lon_bound_min b) (map snd lat_lon_data)
  /\ In (lon_bound_max b) (map snd lat_lon_data).
Proof.
  intros H. destruct (bounds_of_encloses lat_lon_data b H) as [Hne Hin].
  split; [assumption|]. split; [assumption|]. now apply bounds_of_attained.
Qed.

Lemma bounds_of_spans_witness :
  (lat_bound_min (mk_bounds 1 3 5 7) <= 3 <= lat_bound_max (mk_bounds 1 3 5 7))%Q
  /\ (lon_bound_min (mk_bounds 1 3 5 7) <= 5 <= lon_bound_max (mk_bounds 1 3 5 7))%Q.
Proof.
  apply (bounds_of_spans [(1, 7); (3, 5)]%Q (mk_bounds 1 3 5 7) eq_refl).
  right; left; reflexivity.
Defined.

Lemma bounds_of_some (lat_lon_data : list (Q * Q)) :
  lat_lon_data <> [] -> exists b, bounds_of lat_lon_data = Some b.
Proof.
  destruct lat_lon_data as [|p l]; [congruence|]. intros _.
  unfold bounds_of. simpl. eexists. reflexivity.
Qed.

(** ** The two paths to a zoom *)

(** X2. A requested zoom needs no search: above 19 it is cut to 19, the
    render is the one of the cut zoom whatever the fuel, and the rectangle
    is the one of the bounds at that zoom. *)
Theorem requested_zoom_clamped {ext : Externals} (fuel fuel' : nat)
        (lat_lon_data : list (Q * Q)) (num_activities arg_zoom : Z) (b : GeoBounds)
        (log : list event) :
  -1 < arg_zoom ->
  resolve fuel b arg_zoom = Some (Z.min arg_zoom 19, tile_rect b (Z.min arg_zoom 19))
  /\ Z.min arg_zoom 19 <= 19
  /\ render_heatmap fuel lat_lon_data num_activities arg_zoom log
     = render_heatmap fuel' lat_lon_data num_activities (Z.min arg_zoom 19) log.
Proof.
  intros H. unfold resolve, render_heatmap, OSM_MAX_ZOOM.
  destruct (Z.gtb_spec arg_zoom (-1)); [|lia].
  destruct (Z.gtb_spec (Z.min arg_zoom 19) (-1)); [|lia].
  replace (Z.min (Z.min arg_zoom 19) 19) with (Z.min arg_zoom 19) by lia.
  split; [reflexivity|]. split; [lia | reflexivity].
Qed.

Lemma requested_zoom_clamped_witness :
  render_heatmap (ext := equator) 0 [(0, 0)]%Q 1 25 []
  = render_heatmap (ext := equator) 7 [(0, 0)]%Q 1 (Z.min 25 19) [].
Proof.
  apply (requested_zoom_clamped (ext := equator) 0 7 [(0, 0)]%Q 1 25 (mk_bounds 0 0 0 0) []).
  reflexivity.
Defined.

(** X3. In auto mode the rectangle at which the search stops is at most 8
    tiles wide and 15 high; when it has no negative side it counts at most
    120 tiles, and the render does not end in the [exit] of line 114. *)
Theorem auto_zoom_within_budget {ext : Externals} (fuel : nat) (lat_lon_data : list (Q * Q))
        (num_activities arg_zoom : Z) (b : GeoBounds) (zoom : Z) (t : TileRect) :
  arg_zoom < 0 ->
  bounds_of lat_lon_data = Some b ->
  resolve fuel b arg_zoom = Some (zoom, t) ->
  0 <= tiles_x t \/ 0 <= tiles_y t ->
  tiles_x t <= 8 /\ tiles_y t <= 15
  /\ tile_count t <= 120
  /\ forall msg, snd (render_heatmap fuel lat_lon_data num_activities arg_zoom [])
                 <> Raise (SystemExit msg).
Proof.
  intros Hauto Hb Hres Hside.
  assert (Hfit : fits t = true).
  { unfold resolve in Hres. destruct (Z.gtb_spec arg_zoom (-1)); [lia|].
    now destruct (auto_zoom_stops _ _ _ _ _ Hres) as (_ & _ & Hfit & _). }
  unfold fits, MAX_HEATMAP_SIZE, OSM_TILE_SIZE in Hfit. simpl in Hfit.
  apply andb_prop in Hfit. destruct Hfit as [Hx Hy].
  apply Z.leb_le in Hx, Hy.
  assert (Hcount : tile_count t <= 120) by (unfold tile_count; nia).
  split; [lia|]. split; [lia|]. split; [assumption|].
  apply (render_heatmap_run fuel lat_lon_data num_activities arg_zoom b zoom t
           (fst (render_heatmap fuel lat_lon_data num_activities arg_zoom []))
           (snd (render_heatmap fuel lat_lon_data num_activities arg_zoom [])) Hb Hres).
  - now destruct (render_heatmap fuel lat_lon_data num_activities arg_zoom []).
  - unfold MAX_TILE_COUNT. lia.
Qed.

Lemma auto_zoom_within_budget_witness :
  tile_count (mk_rect 131072 131076 131072 131072) <= 120.
Proof.
  apply (auto_zoom_within_budget (ext := equator) 20 [(0, 0); (0, 6 # 1000)]%Q 1 (-1)
           (mk_bounds 0 0 0 (6 # 1000)) 18 (mk_rect 131072 131076 131072 131072)).
  - reflexivity.
  - reflexivity.
  - vm_compute; reflexivity.
  - left. vm_compute. discriminate.
Defined.

(** ** The tiles of a rectangle *)

Lemma py_range_in (a b k : Z) : In k (py_range a b) <-> a <= k < b.
Proof.
  unfold py_range. rewrite in_map_iff. split.
  - intros (n & <- & Hn). apply in_seq in Hn. lia.
  - intros H. exists (Z.to_nat (k - a)). split; [lia|]. apply in_seq. lia.
Qed.

Lemma py_range_length (a b : Z) : zlength (py_range a b) = Z.max 0 (b - a).
Proof. unfold py_range, zlength. rewrite length_map, length_seq. lia. Qed.

Lemma py_range_NoDup (a b : Z) : NoDup (py_range a b).
Proof.
  unfold py_range. apply NoDup_map_NoDup_ForallPairs; [|apply seq_NoDup].
  intros x y _ _ H. lia.
Qed.

Lemma tiles_of_in (zoom : Z) (t : TileRect) (z x y : Z) :
  In (z, x, y) (tiles_of zoom t)
  <-> z = zoom /\ x_tile_min t <= x <= x_tile_max t /\ y_tile_min t <= y <= y_tile_max t.
Proof.
  unfold tiles_of. rewrite in_flat_map. split.
  - intros (x' & Hx & Hy). apply in_map_iff in Hy. destruct Hy as (y' & [= <- <- <-] & Hy).
    apply py_range_in in Hx, Hy. lia.
  - intros (-> & Hx & Hy). exists x. split; [apply py_range_in; lia|].
    apply in_map_iff. exists y. split; [reflexivity | apply py_range_in; lia].
Qed.

Lemma pairs_NoDup (zoom : Z) (xs ys : list Z) :
  NoDup xs -> NoDup ys ->
  NoDup (flat_map (fun x => map (fun y => (zoom, x, y)) ys) xs).
Proof.
  intros Hxs Hys. induction Hxs as [|x xs Hx Hxs IH]; simpl; [constructor|].
  apply NoDup_app.
  - apply NoDup_map_NoDup_ForallPairs; [|assumption]. intros y y' _ _ [= ->]. reflexivity.
  - assumption.
  - intros [[z x'] y'] Hin Hin'. apply in_map_iff in Hin. destruct Hin as (y & [= <- <- <-] & _).
    apply in_flat_map in Hin'. destruct Hin' as (x'' & Hx'' & Hy'').
    apply in_map_iff in Hy''. destruct Hy'' as (y'' & [= <- <-] & _). contradiction.
Qed.

Lemma pairs_length (zoom : Z) (xs ys : list Z) :
  zlength (flat_map (fun x => map (fun y => (zoom, x, y)) ys) xs) = zlength xs * zlength ys.
Proof.
  unfold zlength. induction xs as [|x xs IH]; [reflexivity|].
  cbn [flat_map length]. rewrite length_app, length_map, Nat2Z.inj_add, Nat2Z.inj_succ, IH.
  lia.
Qed.

(** X4. The loops of lines 125-126 visit the tiles of the rectangle, and
    only them, each one once; for a rectangle without negative side their
    number is the tile count of line 111. *)
Theorem tiles_of_rectangle (zoom : Z) (t : TileRect) :
  0 <= tiles_x t -> 0 <= tiles_y t ->
  NoDup (tiles_of zoom t)
  /\ zlength (tiles_of zoom t) = tile_count t
  /\ (forall z x y,
        In (z, x, y) (tiles_of zoom t)
        <-> z = zoom /\ x_tile_min t <= x <= x_tile_max t
            /\ y_tile_min t <= y <= y_tile_max t).
Proof.
  intros Hx Hy. split; [|split].
  - apply pairs_NoDup; apply py_range_NoDup.
  - unfold tiles_of. rewrite pairs_length, !py_range_length.
    unfold tile_count, tiles_x, tiles_y in *.
    rewrite (Z.max_r 0 (x_tile_max t + 1 - x_tile_min t)) by lia.
    rewrite (Z.max_r 0 (y_tile_max t + 1 - y_tile_min t)) by lia. f_equal; lia.
  - apply tiles_of_in.
Qed.

Lemma tiles_of_rectangle_witness :
  zlength (tiles_of 18 (mk_rect 131072 131076 131072 131072))
  = tile_count (mk_rect 131072 131076 131072 131072).
Proof.
  apply (tiles_of_rectangle 18 (mk_rect 131072 131076 131072 131072));
    vm_compute; discriminate.
Defined.

(** ** The mosaic *)

Lemma in_slice_block (len i k : Z) :
  0 <= i -> 0 <= k < len ->
  in_slice len (i * OSM_TILE_SIZE) ((i + 1) * OSM_TILE_SIZE) k = (k / OSM_TILE_SIZE =? i).
Proof.
  intros Hi Hk. unfold in_slice, slice_bound, OSM_TILE_SIZE.
  destruct (Z.ltb_spec (i * 256) 0), (Z.ltb_spec ((i + 1) * 256) 0); try lia.
  pose proof (Z.div_mod k 256 ltac:(lia)) as Hdm.
  pose proof (Z.mod_pos_bound k 256 ltac:(lia)) as Hm.
  destruct (Z.eqb_spec (k / 256) i); lia.
Qed.

Lemma place_tile_shape (supertile : grid rgb) (i j h w : Z) (t : tile) :
  has_shape supertile h w = true -> has_shape (place_tile supertile i j t) h w = true.
Proof.
  intros H. unfold has_shape, place_tile in *.
  apply andb_prop in H. destruct H as [Hh Hw].
  rewrite mapi_length, Hh. simpl.
  rewrite forallb_forall in *. intros row Hrow.
  unfold mapi in Hrow. apply In_nth with (d := []) in Hrow.
  destruct Hrow as (n & Hn & <-). rewrite mapi_from_length in Hn.
  rewrite (mapi_from_nth _ supertile 0 n [] []) by assumption.
  pose proof (Hw _ (nth_In supertile [] Hn)) as Hlen.
  destruct (in_slice _ _ _ _); [|assumption].
  unfold zlength in *. now rewrite mapi_from_length.
Qed.

Lemma place_tile_cell (supertile : grid rgb) (i j h w r c : Z) (t : tile) (d : rgb) :
  has_shape supertile h w = true -> 0 <= i -> 0 <= j -> 0 <= r < h -> 0 <= c < w ->
  cell d (place_tile supertile i j t) r c =
  if (r / OSM_TILE_SIZE =? i) && (c / OSM_TILE_SIZE =? j)
  then tile_pixel t (r mod OSM_TILE_SIZE) (c mod OSM_TILE_SIZE)
  else cell d supertile r c.
Proof.
  intros H Hi Hj Hr Hc. unfold cell, place_tile.
  pose proof (has_shape_rows _ _ _ H) as Hh.
  pose proof (has_shape_nth _ _ _ r H Hr) as Hw.
  rewrite (mapi_nth _ supertile r [] []) by lia.
  rewrite Hh, (in_slice_block h i r Hi Hr).
  destruct (Z.eqb_spec (r / OSM_TILE_SIZE) i) as [Ei | Ei]; simpl; [|reflexivity].
  rewrite (mapi_nth _ _ c d d) by lia.
  rewrite Hw, (in_slice_block w j c Hj Hc).
  destruct (Z.eqb_spec (c / OSM_TILE_SIZE) j) as [Ej | Ej]; [|reflexivity].
  subst i j. unfold OSM_TILE_SIZE. rewrite !Z.mod_eq by lia. f_equal; lia.
Qed.


Lemma for_each_fold {A S} (ev : A -> list event) (step : S -> A -> S)
      (body : S -> A -> M S) (l : list A) :
  (forall s x log, body s x log = (log ++ ev x, Ok (step s x))) ->
  forall s log, for_each l body s log = (log ++ flat_map ev l, Ok (fold_left step l s)).
Proof.
  intros Hbody. induction l as [|x l IH]; intros s log; simpl.
  - unfold ret. now rewrite app_nil_r.
  - unfold bind. rewrite Hbody, IH. now rewrite app_assoc.
Qed.

Lemma fold_left_flat_map {A B S} (F : S -> B -> S) (g : A -> list B) (l : list A) (s : S) :
  fold_left F (flat_map g l) s = fold_left (fun s x => fold_left F (g x) s) l s.
Proof.
  revert s; induction l as [|x l IH]; intros s; simpl; [reflexivity|].
  now rewrite fold_left_app, IH.
Qed.

Lemma fold_left_map {A B S} (F : S -> B -> S) (g : A -> B) (l : list A) (s : S) :
  fold_left F (map g l) s = fold_left (fun s x => F s (g x)) l s.
Proof. revert s; induction l as [|x l IH]; intros s; simpl; [reflexivity | apply IH]. Qed.

Lemma fold_left_pointwise {A S} (f g : S -> A -> S) (l : list A) (s : S) :
  (forall s x, f s x = g s x) -> fold_left f l s = fold_left g l s.
Proof.
  intros H. revert s; induction l as [|x l IH]; intros s; simpl; [reflexivity|].
  now rewrite H, IH.
Qed.

Section Mosaic.

Context {ext : Externals}.

(** The result of the two loops, beside their log. *)
Lemma assemble_fold (zoom : Z) (t : TileRect) (supertile : grid rgb) (log : list event) :
  assemble zoom t supertile log
  = (log ++ map (fun '(z, x, y) => Get_tile z x y) (tiles_of zoom t),
     Ok (place_all t supertile (tiles_of zoom t))).
Proof.
  unfold assemble.
  rewrite (for_each_fold
             (fun x => map (fun y => Get_tile zoom x y) (py_range (y_tile_min t) (y_tile_max t + 1)))
             (fun s x => fold_left
                           (fun s y => place_tile s (y - y_tile_min t) (x - x_tile_min t)
                                                  (get_tile zoom x y))
                           (py_range (y_tile_min t) (y_tile_max t + 1)) s)).
  - unfold tiles_of, place_all. rewrite tile_events. f_equal. f_equal.
    rewrite fold_left_flat_map. apply fold_left_pointwise.
    intros s x. now rewrite fold_left_map.
  - intros s x log0.
    rewrite (for_each_fold (fun y => [Get_tile zoom x y])
               (fun s y => place_tile s (y - y_tile_min t) (x - x_tile_min t)
                                      (get_tile zoom x y))).
    + apply (f_equal (fun l => (log0 ++ l, Ok _))).
      induction (py_range (y_tile_min t) (y_tile_max t + 1)) as [|y ys IH]; simpl;
        [reflexivity | now f_equal].
    + reflexivity.
Qed.

Lemma place_all_shape (t : TileRect) (tiles : list (Z * Z * Z)) (supertile : grid rgb) (h w : Z) :
  has_shape supertile h w = true -> has_shape (place_all t supertile tiles) h w = true.
Proof.
  unfold place_all. revert supertile.
  induction tiles as [|[[z x] y] tiles IH]; intros supertile H; simpl; [assumption|].
  apply IH. now apply place_tile_shape.
Qed.

Lemma place_all_cell (zoom : Z) (t : TileRect) (tiles : list (Z * Z * Z))
      (supertile : grid rgb) (h w r c : Z) :
  has_shape supertile h w = true -> 0 <= r < h -> 0 <= c < w ->
  (forall z x y, In (z, x, y) tiles -> z = zoom /\ x_tile_min t <= x /\ y_tile_min t <= y) ->
  cell (mk_rgb 0 0 0) (place_all t supertile tiles) r c =
  if existsb (fun '(z, x, y) => (y =? y_tile_min t + r / OSM_TILE_SIZE)
                                 && (x =? x_tile_min t + c / OSM_TILE_SIZE)) tiles
  then tile_pixel (get_tile zoom (x_tile_min t + c / OSM_TILE_SIZE)
                            (y_tile_min t + r / OSM_TILE_SIZE))
                  (r mod OSM_TILE_SIZE) (c mod OSM_TILE_SIZE)
  else cell (mk_rgb 0 0 0) supertile r c.
Proof.
  intros Hs Hr Hc. unfold place_all. revert supertile Hs.
  induction tiles as [|[[z x] y] tiles IH]; intros supertile Hs Hall; simpl; [reflexivity|].
  destruct (Hall z x y (or_introl eq_refl)) as (-> & Hx & Hy).
  rewrite IH; [|now apply place_tile_shape | intros; apply Hall; now right].
  destruct (existsb _ tiles); [now rewrite orb_true_r|]. rewrite orb_false_r.
  rewrite (place_tile_cell supertile _ _ h w r c) by (try assumption; lia).
  destruct (Z.eqb_spec y (y_tile_min t + r / OSM_TILE_SIZE)) as [-> | Ey],
           (Z.eqb_spec x (x_tile_min t + c / OSM_TILE_SIZE)) as [-> | Ex]; simpl.
  - replace (y_tile_min t + r / OSM_TILE_SIZE - y_tile_min t) with (r / OSM_TILE_SIZE) by lia.
    replace (x_tile_min t + c / OSM_TILE_SIZE - x_tile_min t) with (c / OSM_TILE_SIZE) by lia.
    now rewrite !Z.eqb_refl.
  - destruct (Z.eqb_spec (c / OSM_TILE_SIZE) (x - x_tile_min t)); [lia|].
    now rewrite andb_false_r.
  - destruct (Z.eqb_spec (r / OSM_TILE_SIZE) (y - y_tile_min t)); [lia | reflexivity].
  - destruct (Z.eqb_spec (r / OSM_TILE_SIZE) (y - y_tile_min t)); [lia | reflexivity].
Qed.

(** X5. The loops of lines 124-138 fill the whole canvas: they keep its
    shape, and the pixel of row [r] and column [c] comes from the tile
    [(x_tile_min + c // 256, y_tile_min + r // 256)], at row [r % 256] and
    column [c % 256]; nothing of the canvas they started from is left. *)
Theorem assemble_pixels (zoom : Z) (t : TileRect) (supertile : grid rgb) (log : list event) :
  has_shape supertile (tiles_y t * OSM_TILE_SIZE) (tiles_x t * OSM_TILE_SIZE) = true ->
  exists mosaic,
    assemble zoom t supertile log
    = (log ++ map (fun '(z, x, y) => Get_tile z x y) (tiles_of zoom t), Ok mosaic)
    /\ has_shape mosaic (tiles_y t * OSM_TILE_SIZE) (tiles_x t * OSM_TILE_SIZE) = true
    /\ forall r c,
        0 <= r < tiles_y t * OSM_TILE_SIZE -> 0 <= c < tiles_x t * OSM_TILE_SIZE ->
        cell (mk_rgb 0 0 0) mosaic r c
        = tile_pixel (get_tile zoom (x_tile_min t + c / OSM_TILE_SIZE)
                               (y_tile_min t + r / OSM_TILE_SIZE))
                     (r mod OSM_TILE_SIZE) (c mod OSM_TILE_SIZE).
Proof.
  intros Hs. exists (place_all t supertile (tiles_of zoom t)).
  split; [apply assemble_fold|]. split; [now apply place_all_shape|].
  intros r c Hr Hc.
  rewrite (place_all_cell zoom t _ supertile _ _ r c Hs Hr Hc)
    by (intros z x y Hin; apply tiles_of_in in Hin; lia).
  assert (Hq : 0 <= r / OSM_TILE_SIZE < tiles_y t /\ 0 <= c / OSM_TILE_SIZE < tiles_x t).
  { unfold OSM_TILE_SIZE in *. split; split;
      try (apply Z.div_pos; lia); apply Z.div_lt_upper_bound; lia. }
  assert (Hex : existsb (fun '(z, x, y) => (y =? y_tile_min t + r / OSM_TILE_SIZE)
                                           && (x =? x_tile_min t + c / OSM_TILE_SIZE))
                        (tiles_of zoom t) = true).
  { apply existsb_exists.
    exists (zoom, x_tile_min t + c / OSM_TILE_SIZE, y_tile_min t + r / OSM_TILE_SIZE).
    split; [|now rewrite !Z.eqb_refl].
    apply tiles_of_in. unfold tiles_x, tiles_y in Hq. lia. }
  now rewrite Hex.
Qed.

End Mosaic.

Lemma assemble_pixels_witness :
  exists mosaic,
    assemble (ext := equator) 14 (mk_rect 8192 8192 8192 8192) (full 256 256 (mk_rgb 0 0 0)) []
    = ([] ++ map (fun '(z, x, y) => Get_tile z x y) (tiles_of 14 (mk_rect 8192 8192 8192 8192)),
       Ok mosaic)
    /\ has_shape mosaic 256 256 = true
    /\ forall r c,
        0 <= r < 256 -> 0 <= c < 256 ->
        cell (mk_rgb 0 0 0) mosaic r c
        = tile_pixel (get_tile (Externals := equator) 14 (8192 + c / 256) (8192 + r / 256))
                     (r mod 256) (c mod 256).
Proof.
  apply (assemble_pixels (ext := equator) 14 (mk_rect 8192 8192 8192 8192)
           (full 256 256 (mk_rgb 0 0 0)) []).
  vm_compute; reflexivity.
Defined.

(** X6. A pixel of a tile of 8-bit channels becomes, through lines 140-142,
    a gray pixel, its three channels equal, with a value in [0, 1]: black for
    a white pixel and white for a black one. *)
Theorem inverted_gray_pixel (t : tile) (r c : Z) :
  tile_bytes t ->
  let p := inverted_gray (tile_pixel t r c) in
  rgb_in_unit p /\ green p = red p /\ blue p = red p
  /\ (t r c = (255, 255, 255) -> (red p == 0)%Q)
  /\ (t r c = (0, 0, 0) -> (red p == 1)%Q).
Proof.
  intros Hb. specialize (Hb r c). unfold tile_pixel, inverted_gray, rgb_in_unit, in_unit, is_byte in *.
  destruct (t r c) as [[r8 g8] b8]. destruct Hb as (Hr & Hg & Hbl). simpl.
  assert (Hu : forall v, 0 <= v <= 255 -> (0 <= inject_Z v / 255 <= 1)%Q).
  { intros v Hv. split.
    - apply Qle_shift_div_l; [reflexivity|]. rewrite Qmult_0_l. rewrite <- (Zle_Qle 0). lia.
    - apply Qle_shift_div_r; [reflexivity|]. rewrite Qmult_1_l.
      change 255%Q with (inject_Z 255). rewrite <- Zle_Qle. lia. }
  pose proof (Hu r8 Hr). pose proof (Hu g8 Hg). pose proof (Hu b8 Hbl).
  split; [repeat split; lra|]. split; [reflexivity|]. split; [reflexivity|].
  split; intros [= -> -> ->]; reflexivity.
Qed.

Lemma inverted_gray_pixel_witness :
  rgb_in_unit (inverted_gray (tile_pixel (white_tiles 14 8192 8192) 3 5)).
Proof.
  apply (inverted_gray_pixel (white_tiles 14 8192 8192) 3 5).
  intros r c. unfold is_byte. simpl. lia.
Defined.

(** ** The histogram and the equalisation *)

Lemma total_app (l l' : list Z) : total (l ++ l') = total l + total l'.
Proof. unfold total. induction l as [|x l IH]; simpl; lia. Qed.

Lemma total_indicator (j : Z) (n : nat) :
  total (map (fun k => if j =? k then 1 else 0) (map Z.of_nat (seq 0 n)))
  = if (0 <=? j) && (j <? Z.of_nat n) then 1 else 0.
Proof.
  induction n as [|n IH].
  - cbn. destruct (Z.leb_spec 0 j), (Z.ltb_spec j 0); cbn; lia.
  - rewrite seq_S, !map_app, total_app, IH. cbn [map Nat.add]. unfold total. cbn [fold_right].
    rewrite Nat2Z.inj_succ.
    destruct (Z.eqb_spec j (Z.of_nat n)), (Z.leb_spec 0 j), (Z.ltb_spec j (Z.of_nat n)),
      (Z.ltb_spec j (Z.succ (Z.of_nat n))); cbn [andb]; lia.
Qed.

Lemma py_range_from_zero (n : Z) : py_range 0 n = map Z.of_nat (seq 0 (Z.to_nat n)).
Proof. unfold py_range. rewrite Z.sub_0_r. apply map_ext. intros k. lia. Qed.

Lemma count_if_cons {A} (p : A -> bool) (x : A) (l : list A) :
  count_if p (x :: l) = (if p x then 1 else 0) + count_if p l.
Proof. unfold count_if, zlength. simpl. destruct (p x); simpl length; lia. Qed.

Lemma total_map_add {A} (f g : A -> Z) (l : list A) :
  total (map (fun k => f k + g k) l) = total (map f l) + total (map g l).
Proof. unfold total. induction l as [|x l IH]; simpl; lia. Qed.

(** Sorting data into bins loses none when every datum has a bin. *)
Lemma total_counts (f : Q -> Z) (bins : Z) (a : list Q) :
  (forall v, In v a -> 0 <= f v < bins) ->
  total (map (fun k => count_if (fun v => f v =? k) a) (py_range 0 bins)) = zlength a.
Proof.
  induction a as [|v a IH]; intros H.
  - unfold count_if, zlength, total. simpl.
    induction (py_range 0 bins) as [|k l IHl]; simpl; lia.
  - rewrite (map_ext _ (fun k => (if f v =? k then 1 else 0)
                                 + count_if (fun v => f v =? k) a))
      by (intros k; exact (count_if_cons (fun x => f x =? k) v a)).
    rewrite total_map_add, IH by (intros; apply H; now right).
    rewrite py_range_from_zero, total_indicator.
    pose proof (H v (or_introl eq_refl)).
    unfold zlength. cbn [length]. rewrite Nat2Z.inj_succ.
    destruct (Z.leb_spec 0 (f v)), (Z.ltb_spec (f v) (Z.of_nat (Z.to_nat bins)));
      cbn [andb]; lia.
Qed.

Lemma Qfloor_bounds (x : Q) (n : Z) :
  (0 <= x)%Q -> (x < inject_Z n)%Q -> 0 <= Qfloor x < n.
Proof.
  intros H0 Hn. split.
  - change 0 with (Qfloor 0). now apply Qfloor_resp_le.
  - pose proof (Qfloor_le x) as H. rewrite Zlt_Qlt. lra.
Qed.

Lemma bin_index_bounds (first last v : Q) (bins : Z) :
  1 <= bins -> (first < last)%Q -> (first <= v <= last)%Q ->
  0 <= bin_index first last bins v < bins.
Proof.
  intros Hb Hfl [Hlo Hhi]. unfold bin_index.
  destruct (Qeq_bool v last) eqn:E; [lia|].
  apply Qeq_bool_neq in E.
  assert (HB : (0 < inject_Z bins)%Q) by (rewrite <- (Zlt_Qlt 0); lia).
  apply Qfloor_bounds.
  - apply Qle_shift_div_l; [lra|]. rewrite Qmult_0_l. apply Qmult_le_0_compat; lra.
  - apply Qlt_shift_div_r; [lra|].
    rewrite (Qmult_comm (inject_Z bins)). apply Qmult_lt_compat_r; lra.
Qed.

Lemma histogram_range_spans (a : list Q) (first last : Q) :
  histogram_range a = (first, last) ->
  (first < last)%Q /\ forall v, In v a -> (first <= v <= last)%Q.
Proof.
  unfold histogram_range.
  destruct (np_min a) as [lo|] eqn:Hmin.
  - destruct (np_max a) as [hi|] eqn:Hmax; [|destruct a; discriminate].
    assert (Hlohi : (lo <= hi)%Q) by (apply (np_min_le _ _ _ Hmin), (np_max_in _ _ Hmax)).
    destruct (Qeq_bool lo hi) eqn:E; intros [= <- <-].
    + apply Qeq_bool_iff in E. split; [lra|]. intros v Hv.
      pose proof (np_min_le _ _ _ Hmin Hv). pose proof (np_max_ge _ _ _ Hmax Hv). lra.
    + apply Qeq_bool_neq in E. split; [lra|]. intros v Hv.
      pose proof (np_min_le _ _ _ Hmin Hv). pose proof (np_max_ge _ _ _ Hmax Hv). lra.
  - destruct a; [|discriminate]. simpl. intros [= <- <-]. split; [reflexivity | intros v []].
Qed.

Lemma np_histogram_no_bins (a : list Q) (bins : Z) : bins < 1 -> np_histogram a bins = None.
Proof. unfold np_histogram. intros Hb. destruct (Z.ltb_spec bins 1); [reflexivity | lia]. Qed.

Lemma np_histogram_counts (a : list Q) (bins : Z) :
  1 <= bins ->
  exists hist,
    np_histogram a bins = Some hist
    /\ zlength hist = bins
    /\ Forall (fun n => 0 <= n) hist
    /\ total hist = zlength a.
Proof.
  unfold np_histogram. intros Hb.
  destruct (Z.ltb_spec bins 1); [lia|].
  destruct (histogram_range a) as [first last] eqn:Hr.
  destruct (histogram_range_spans a first last Hr) as [Hfl Hin].
  eexists. split; [reflexivity|]. split; [|split].
  - unfold zlength. rewrite length_map. fold (zlength (py_range 0 bins)).
    rewrite py_range_length. lia.
  - apply Forall_forall. intros n Hn. apply in_map_iff in Hn.
    destruct Hn as (k & <- & _). unfold count_if, zlength. lia.
  - apply total_counts. intros v Hv. apply bin_index_bounds; auto.
Qed.

(** X7. For a positive number of bins [np.histogram] answers with that many
    counts, none negative, and every datum is counted in one bin: the counts
    add up to the size of the data. A number of bins below one is the
    [ValueError]. *)
Theorem np_histogram_total (a : list Q) (bins : Z) :
  (bins < 1 -> np_histogram a bins = None)
  /\ (1 <= bins ->
      exists hist,
        np_histogram a bins = Some hist
        /\ zlength hist = bins
        /\ Forall (fun n => 0 <= n) hist
        /\ total hist = zlength a).
Proof.
  split; [apply np_histogram_no_bins | apply np_histogram_counts].
Qed.

Lemma np_histogram_total_witness :
  exists hist,
    np_histogram [0; 1; 0; 0]%Q 3 = Some hist
    /\ zlength hist = 3
    /\ Forall (fun n => 0 <= n) hist
    /\ total hist = zlength [0; 1; 0; 0]%Q.
Proof.
  apply (np_histogram_total [0; 1; 0; 0]%Q 3). discriminate.
Defined.

Lemma py_int_floor (v : Q) : (0 <= v)%Q -> py_int v = Qfloor v.
Proof.
  destruct v as [n d]. unfold Qle, py_int, Qfloor. simpl. intros H.
  apply Z.quot_div_nonneg; lia.
Qed.

Lemma py_int_bounds (v : Q) (m : Z) : (0 <= v <= inject_Z m)%Q -> 0 <= py_int v <= m.
Proof.
  intros [H0 Hm]. rewrite py_int_floor by assumption. split.
  - change 0 with (Qfloor 0). now apply Qfloor_resp_le.
  - rewrite <- (Qfloor_Z m). now apply Qfloor_resp_le.
Qed.

Lemma py_int_monotone (v v' : Q) : (0 <= v <= v')%Q -> py_int v <= py_int v'.
Proof.
  intros [H0 H]. rewrite !py_int_floor by lra. now apply Qfloor_resp_le.
Qed.

Lemma cumsum_from_length (acc : Z) (l : list Z) : length (cumsum_from acc l) = length l.
Proof. revert acc; induction l as [|x l IH]; intros acc; simpl; [reflexivity | now rewrite IH]. Qed.

Lemma cumsum_from_bounds (acc : Z) (l : list Z) (c : Z) :
  Forall (fun n => 0 <= n) l -> In c (cumsum_from acc l) -> acc <= c <= acc + total l.
Proof.
  intros Hl. revert acc. induction Hl as [|x l Hx Hl IH]; intros acc Hc; simpl in Hc; [easy|].
  assert (Ht : 0 <= total l).
  { clear - Hl. unfold total. induction Hl; simpl; lia. }
  unfold total in *. simpl. destruct Hc as [<- | Hc]; [lia|].
  specialize (IH _ Hc). lia.
Qed.

Lemma cumsum_from_monotone (acc : Z) (l : list Z) (i j : nat) :
  Forall (fun n => 0 <= n) l -> (i <= j < length l)%nat ->
  nth i (cumsum_from acc l) 0 <= nth j (cumsum_from acc l) 0.
Proof.
  intros Hl. revert acc i j. induction Hl as [|x l Hx Hl IH]; intros acc i j Hij; simpl in *; [lia|].
  destruct i as [|i], j as [|j]; try lia.
  - assert (Hin : In (nth j (cumsum_from (acc + x) l) 0) (cumsum_from (acc + x) l))
      by (apply nth_In; rewrite cumsum_from_length; lia).
    pose proof (cumsum_from_bounds _ _ _ Hl Hin). lia.
  - apply IH. lia.
Qed.

Lemma py_getitem_inside {A} (a : list A) (k : Z) (d : A) :
  0 <= k < zlength a -> py_getitem a k = Some (nth (Z.to_nat k) a d).
Proof.
  intros Hk. unfold py_getitem.
  destruct (Z.ltb_spec k 0); [lia|].
  destruct (Z.leb_spec 0 k), (Z.ltb_spec k (zlength a)); try lia. simpl.
  apply nth_error_nth'. unfold zlength in Hk. lia.
Qed.

Lemma traverse_map {A B} (f : A -> option B) (g : A -> B) (l : list A) :
  (forall x, In x l -> f x = Some (g x)) -> traverse f l = Some (map g l).
Proof.
  induction l as [|x l IH]; intros H; simpl; [reflexivity|].
  rewrite (H x (or_introl eq_refl)), IH by (intros; apply H; now right). reflexivity.
Qed.

Lemma clip_bounds (m : Q) (data : grid Q) :
  (0 <= m)%Q -> Forall (Forall (fun v => (0 <= v)%Q)) data ->
  Forall (Forall (fun v => (0 <= v <= m)%Q)) (clip m data).
Proof.
  intros Hm H. unfold clip. apply Forall_map. eapply Forall_impl; [|exact H].
  intros row Hrow. apply Forall_map. eapply Forall_impl; [|exact Hrow].
  intros v Hv. simpl in *. destruct (Qlt_le_dec m v); lra.
Qed.

(** The value lines 176-178 give to a pixel of value [v], whatever the
    histogram of [m + 1] counts. *)
Lemma remap_explicit (m : Z) (data : grid Q) (hist : list Z) (sz : Z) :
  0 <= m -> Forall (Forall (fun v => (0 <= v)%Q)) data ->
  zlength hist = m + 1 ->
  remap m (normalized_cumulated hist sz) (clip (inject_Z m) data)
  = Some (map (map (fun v => (inject_Z m
                              * nth (Z.to_nat (py_int v)) (normalized_cumulated hist sz) 0)%Q))
              (clip (inject_Z m) data)).
Proof.
  intros Hm Hdata Hlen. unfold remap.
  assert (HM : (0 <= inject_Z m)%Q) by (rewrite <- (Zle_Qle 0); lia).
  pose proof (clip_bounds (inject_Z m) data HM Hdata) as Hclip.
  apply traverse_map. intros row Hrow. apply traverse_map. intros v Hv.
  rewrite Forall_forall in Hclip. specialize (Hclip row Hrow).
  rewrite Forall_forall in Hclip. specialize (Hclip v Hv).
  rewrite (py_getitem_inside _ _ 0%Q); [reflexivity|].
  pose proof (py_int_bounds v m Hclip).
  unfold normalized_cumulated, np_cumsum, zlength in *.
  rewrite length_map, cumsum_from_length. lia.
Qed.

Lemma equalize_explicit (m : Z) (data : grid Q) :
  0 <= m -> Forall (Forall (fun v => (0 <= v)%Q)) data ->
  exists hist,
    np_histogram (concat (clip (inject_Z m) data)) (m + 1) = Some hist
    /\ zlength hist = m + 1
    /\ Forall (fun n => 0 <= n) hist
    /\ total hist = size (clip (inject_Z m) data)
    /\ equalize m data
       = Ok (map (map (fun v => (inject_Z m
                                 * nth (Z.to_nat (py_int v))
                                       (normalized_cumulated hist (size (clip (inject_Z m) data)))
                                       0)%Q))
                 (clip (inject_Z m) data)).
Proof.
  intros Hm Hdata.
  destruct (np_histogram_counts (concat (clip (inject_Z m) data)) (m + 1) ltac:(lia))
    as (hist & Hh & Hlen & Hpos & Htot).
  exists hist. repeat split; try assumption.
  unfold equalize. rewrite Hh. now rewrite (remap_explicit m data hist _ Hm Hdata Hlen).
Qed.

Lemma normalized_cumulated_bounds (hist : list Z) (sz : Z) (k : nat) :
  Forall (fun n => 0 <= n) hist -> total hist = sz -> 0 < sz -> (k < length hist)%nat ->
  in_unit (nth k (normalized_cumulated hist sz) 0%Q).
Proof.
  intros Hpos Htot Hsz Hk.
  assert (Hin : In (nth k (normalized_cumulated hist sz) 0%Q) (normalized_cumulated hist sz)).
  { apply nth_In. unfold normalized_cumulated, np_cumsum.
    now rewrite length_map, cumsum_from_length. }
  unfold normalized_cumulated in Hin at 2. unfold np_cumsum in Hin. apply in_map_iff in Hin.
  destruct Hin as (c & <- & Hc).
  pose proof (cumsum_from_bounds 0 hist c Hpos Hc) as Hb.
  assert (HS : (0 < inject_Z sz)%Q) by (rewrite <- (Zlt_Qlt 0); lia).
  unfold in_unit. split.
  - apply Qle_shift_div_l; [assumption|]. rewrite Qmult_0_l. rewrite <- (Zle_Qle 0). lia.
  - apply Qle_shift_div_r; [assumption|]. rewrite Qmult_1_l. rewrite <- Zle_Qle. lia.
Qed.

(** X8. On a grid of counts, none negative: a negative ceiling [m] ends
    lines 169-178 in the [ValueError] of [np.histogram]; and with a
    histogram of [m + 1] counts, none negative, that add up to the size of
    the grid (what [np.histogram] answers with, when it answers), the lookup
    of line 178 never leaves the histogram, the grid keeps its shape and
    every value of the result is between 0 and [m]. *)
Theorem equalize_lookup_in_range (m : Z) (data : grid Q) (hist : list Z) :
  Forall (Forall (fun v => (0 <= v)%Q)) data ->
  (m < 0 -> equalize m data = Raise ValueError)
  /\ (0 <= m -> zlength hist = m + 1 -> Forall (fun n => 0 <= n) hist ->
      total hist = size (clip (inject_Z m) data) ->
      exists equalized,
        remap m (normalized_cumulated hist (size (clip (inject_Z m) data)))
              (clip (inject_Z m) data) = Some equalized
        /\ (forall h w, has_shape data h w = true -> has_shape equalized h w = true)
        /\ Forall (Forall (fun v => (0 <= v <= inject_Z m)%Q)) equalized).
Proof.
  intros Hdata. split.
  - intros Hm. unfold equalize. now rewrite np_histogram_no_bins by lia.
  - intros Hm Hlen Hpos Htot.
    rewrite (remap_explicit m data hist _ Hm Hdata Hlen).
    eexists. split; [reflexivity|]. split.
    + intros h w Hs. unfold clip. now apply has_shape_map, has_shape_map.
    + assert (HM : (0 <= inject_Z m)%Q) by (rewrite <- (Zle_Qle 0); lia).
      pose proof (clip_bounds (inject_Z m) data HM Hdata) as Hclip.
      apply Forall_map. rewrite Forall_forall. intros row Hrow.
      apply Forall_map. rewrite Forall_forall. intros v Hv.
      rewrite Forall_forall in Hclip. pose proof (Hclip row Hrow) as Hr.
      rewrite Forall_forall in Hr. pose proof (Hr v Hv) as Hvb.
      pose proof (py_int_bounds v m Hvb) as Hk.
      assert (Hsz : 0 < size (clip (inject_Z m) data)).
      { unfold size, zlength.
        assert (In v (concat (clip (inject_Z m) data))) by (now apply (in_grid_concat _ row)).
        destruct (concat (clip (inject_Z m) data)); [contradiction | simpl; lia]. }
      destruct (normalized_cumulated_bounds hist _ (Z.to_nat (py_int v)) Hpos Htot Hsz)
        as [H0 H1]; [unfold zlength in Hlen; lia|].
      split; nra.
Qed.

(** The witness of [equalize_lookup_in_range]: four pixels, three empty and
    one of count 3 cut to the ceiling 2, with the counts [3; 0; 1]. *)
Lemma equalize_lookup_in_range_witness :
  exists equalized,
    remap 2 (normalized_cumulated [3; 0; 1] (size (clip (inject_Z 2) [[0; 0]; [3; 0]]%Q)))
          (clip (inject_Z 2) [[0; 0]; [3; 0]]%Q) = Some equalized
    /\ (forall h w, has_shape [[0; 0]; [3; 0]]%Q h w = true -> has_shape equalized h w = true)
    /\ Forall (Forall (fun v => (0 <= v <= inject_Z 2)%Q)) equalized.
Proof.
  apply (equalize_lookup_in_range 2 [[0; 0]; [3; 0]]%Q [3; 0; 1]).
  - repeat constructor; discriminate.
  - discriminate.
  - reflexivity.
  - repeat constructor; discriminate.
  - reflexivity.
Defined.

Lemma cell_in {A} (a : grid A) (h w r c : Z) (d : A) :
  has_shape a h w = true -> 0 <= r < h -> 0 <= c < w ->
  In (nth (Z.to_nat r) a []) a /\ In (cell d a r c) (nth (Z.to_nat r) a []).
Proof.
  intros Hs Hr Hc.
  pose proof (has_shape_rows _ _ _ Hs) as Hh.
  pose proof (has_shape_nth _ _ _ r Hs Hr) as Hw.
  unfold zlength, cell in *. split; apply nth_In; lia.
Qed.

Lemma normalized_cumulated_monotone (hist : list Z) (sz : Z) (i j : nat) :
  Forall (fun n => 0 <= n) hist -> 0 < sz -> (i <= j < length hist)%nat ->
  (nth i (normalized_cumulated hist sz) 0 <= nth j (normalized_cumulated hist sz) 0)%Q.
Proof.
  intros Hpos Hsz Hij. unfold normalized_cumulated, np_cumsum.
  set (f := fun c : Z => (inject_Z c / inject_Z sz)%Q).
  rewrite (nth_indep _ 0%Q (f 0)) by (rewrite length_map, cumsum_from_length; lia).
  rewrite (nth_indep _ 0%Q (f 0)) by (rewrite length_map, cumsum_from_length; lia).
  rewrite !map_nth. unfold f.
  pose proof (cumsum_from_monotone 0 hist i j Hpos Hij) as H.
  assert (HS : (0 < inject_Z sz)%Q) by (rewrite <- (Zlt_Qlt 0); lia).
  rewrite Zle_Qle in H.
  apply Qle_shift_div_l; [assumption|].
  unfold Qdiv. rewrite <- Qmult_assoc, (Qmult_comm (/ inject_Z sz)), Qmult_inv_r by lra.
  lra.
Qed.

(** X9. The equalisation keeps the order of the counts: of two pixels of a
    grid of counts, the one with the larger count does not get the smaller
    value. *)
Theorem equalize_monotone (m : Z) (data : grid Q) (h w r c r' c' : Z) :
  0 <= m -> Forall (Forall (fun v => (0 <= v)%Q)) data ->
  has_shape data h w = true ->
  0 <= r < h -> 0 <= c < w -> 0 <= r' < h -> 0 <= c' < w ->
  (cell 0 data r c <= cell 0 data r' c')%Q ->
  exists equalized,
    equalize m data = Ok equalized
    /\ (cell 0 equalized r c <= cell 0 equalized r' c')%Q.
Proof.
  intros Hm Hdata Hs Hr Hc Hr' Hc' Hle.
  destruct (equalize_explicit m data Hm Hdata) as (hist & Hh & Hlen & Hpos & Htot & ->).
  eexists. split; [reflexivity|].
  assert (HM : (0 <= inject_Z m)%Q) by (rewrite <- (Zle_Qle 0); lia).
  pose proof (has_shape_map (fun v => if Qlt_le_dec (inject_Z m) v then inject_Z m else v)
                            data h w Hs) as Hsc.
  fold (clip (inject_Z m) data) in Hsc.
  rewrite (cell_map _ (clip (inject_Z m) data) h w r c 0%Q) by assumption.
  rewrite (cell_map _ (clip (inject_Z m) data) h w r' c' 0%Q) by assumption.
  unfold clip at 1 3.
  rewrite (cell_map _ data h w r c 0%Q), (cell_map _ data h w r' c' 0%Q) by assumption.
  rewrite Forall_forall in Hdata.
  destruct (cell_in data h w r c 0%Q Hs Hr Hc) as [Hrow Hin].
  destruct (cell_in data h w r' c' 0%Q Hs Hr' Hc') as [Hrow' Hin'].
  pose proof (Hdata _ Hrow) as H0. rewrite Forall_forall in H0. specialize (H0 _ Hin).
  pose proof (Hdata _ Hrow') as H0'. rewrite Forall_forall in H0'. specialize (H0' _ Hin').
  set (v := cell 0%Q data r c) in *. set (v' := cell 0%Q data r' c') in *.
  set (cv := if Qlt_le_dec (inject_Z m) v then inject_Z m else v).
  set (cv' := if Qlt_le_dec (inject_Z m) v' then inject_Z m else v').
  assert (Hcv : (0 <= cv <= cv')%Q /\ (cv' <= inject_Z m)%Q).
  { unfold cv, cv'. destruct (Qlt_le_dec (inject_Z m) v), (Qlt_le_dec (inject_Z m) v'); lra. }
  destruct Hcv as [Hcv Hcv'].
  pose proof (py_int_monotone cv cv' Hcv) as Hk.
  pose proof (py_int_bounds cv m ltac:(lra)) as Hkb.
  pose proof (py_int_bounds cv' m ltac:(lra)) as Hkb'.
  assert (Hsz : 0 < size (clip (inject_Z m) data)).
  { unfold size, zlength.
    destruct (cell_in (clip (inject_Z m) data) h w r c 0%Q Hsc Hr Hc) as [Hrowc Hinc].
    pose proof (in_grid_concat _ _ _ Hrowc Hinc) as Hcat.
    destruct (concat (clip (inject_Z m) data)); [contradiction | simpl; lia]. }
  pose proof (normalized_cumulated_monotone hist (size (clip (inject_Z m) data))
                (Z.to_nat (py_int cv)) (Z.to_nat (py_int cv')) Hpos Hsz) as Hmono.
  unfold zlength in Hlen. specialize (Hmono ltac:(lia)).
  rewrite !(Qmult_comm (inject_Z m)). now apply Qmult_le_compat_r.
Qed.

Lemma equalize_monotone_witness :
  exists equalized,
    equalize 2 [[0; 1]; [3; 0]]%Q = Ok equalized
    /\ (cell 0 equalized 0 1 <= cell 0 equalized 1 0)%Q.
Proof.
  apply (equalize_monotone 2 [[0; 1]; [3; 0]]%Q 2 2 0 1 1 0);
    try reflexivity; try lia; try discriminate.
  repeat constructor; discriminate.
Defined.

(** ** Pixel indices of the track *)

Lemma np_round_bounds (q : Q) (a b : Z) :
  (inject_Z a <= q <= inject_Z b)%Q -> a <= np_round q <= b.
Proof.
  intros [Ha Hb]. unfold np_round.
  assert (Hfa : a <= Qfloor q) by (rewrite <- (Qfloor_Z a); now apply Qfloor_resp_le).
  assert (Hfb : Qfloor q <= b) by (rewrite <- (Qfloor_Z b); now apply Qfloor_resp_le).
  assert (Hup : (inject_Z (Qfloor q) < q)%Q -> Qfloor q + 1 <= b).
  { intros H. assert (Hlt : (inject_Z (Qfloor q) < inject_Z b)%Q) by lra.
    rewrite <- Zlt_Qlt in Hlt. lia. }
  destruct (Qcompare_spec (q - inject_Z (Qfloor q)) (1 # 2)) as [E | E | E].
  - destruct (Z.even (Qfloor q)); [lia|]. split; [lia|]. apply Hup. lra.
  - lia.
  - split; [lia|]. apply Hup. lra.
Qed.

Lemma py_int_le (q : Q) : (0 <= q)%Q -> (inject_Z (py_int q) <= q)%Q.
Proof. intros H. rewrite py_int_floor by assumption. apply Qfloor_le. Qed.

Lemma py_int_lt (q : Q) : (0 <= q)%Q -> (q < inject_Z (py_int q + 1))%Q.
Proof. intros H. rewrite py_int_floor by assumption. apply Qlt_floor. Qed.

Lemma pixel_index_bounds (x : Q) (low high : Z) :
  (inject_Z low <= x)%Q -> (x < inject_Z (high + 1))%Q ->
  0 <= np_round ((x - inject_Z low) * inject_Z OSM_TILE_SIZE) <= (high - low + 1) * OSM_TILE_SIZE.
Proof.
  intros Hlo Hhi. apply np_round_bounds. unfold OSM_TILE_SIZE.
  assert (E : (inject_Z ((high - low + 1) * 256)
               == (inject_Z (high + 1) - inject_Z low) * 256)%Q).
  { unfold Z.sub. rewrite inject_Z_mult, !inject_Z_plus, inject_Z_opp.
    change (inject_Z 256) with 256%Q. ring. }
  rewrite E. change (inject_Z 256) with 256%Q. change (inject_Z 0) with 0%Q.
  split; nra.
Qed.

Section Track.

Context {ext : Externals}.
Variable zoom : Z.

(** X10. With a projection that moves east with the longitude, and south
    with the latitude between the bounds of the track, and coordinates that
    are not negative, the rectangle of lines 92-93 has a tile at least, and
    lines 149-156 give every point of the track a column between 0 and the
    width of the mosaic and a row between 0 and its height, both ends
    included. *)
Theorem track_on_mosaic (lat_lon_data : list (Q * Q)) (b : GeoBounds) :
  bounds_of lat_lon_data = Some b ->
  eastward zoom -> southward_within b zoom ->
  (0 <= fst (latlon_to_xy (lat_bound_min b) (lon_bound_min b) zoom))%Q ->
  (0 <= snd (latlon_to_xy (lat_bound_max b) (lon_bound_max b) zoom))%Q ->
  let t := tile_rect b zoom in
  1 <= tiles_x t /\ 1 <= tiles_y t
  /\ Forall (fun ji => 0 <= fst ji <= tiles_x t * OSM_TILE_SIZE
                       /\ 0 <= snd ji <= tiles_y t * OSM_TILE_SIZE)
            (to_supertile zoom t lat_lon_data).
Proof.
  intros Hb Hx Hy Hx0 Hy0 t.
  destruct (bounds_of_encloses lat_lon_data b Hb) as (Hne & Hin).
  destruct lat_lon_data as [|[lat0 lon0] rest] eqn:Hdata; [congruence|]. rewrite <- Hdata in *.
  assert (Hp0 : In (lat0, lon0) lat_lon_data) by (rewrite Hdata; now left).
  destruct (Hin _ _ Hp0) as [Hlat0 Hlon0].
  assert (Hlat : (lat_bound_min b <= lat_bound_max b)%Q) by lra.
  pose proof (Hx (lat_bound_min b) (lat_bound_max b) (lon_bound_min b) (lon_bound_max b)
                 ltac:(lra)) as Hxx.
  pose proof (Hy (lat_bound_min b) (lat_bound_max b) (lon_bound_min b) (lon_bound_max b)
                 ltac:(lra) Hlat ltac:(lra)) as Hyy.
  assert (Hpoints : forall lat lon, In (lat, lon) lat_lon_data ->
            (fst (latlon_to_xy (lat_bound_min b) (lon_bound_min b) zoom)
             <= fst (latlon_to_xy lat lon zoom)
             <= fst (latlon_to_xy (lat_bound_max b) (lon_bound_max b) zoom))%Q
            /\ (snd (latlon_to_xy (lat_bound_max b) (lon_bound_max b) zoom)
                <= snd (latlon_to_xy lat lon zoom)
                <= snd (latlon_to_xy (lat_bound_min b) (lon_bound_min b) zoom))%Q).
  { intros lat lon Hp. destruct (Hin _ _ Hp) as [Hl1 Hl2]. repeat split.
    - apply Hx; lra.
    - apply Hx; lra.
    - apply Hy; lra.
    - apply Hy; lra. }
  subst t. unfold tile_rect, tiles_x, tiles_y.
  destruct (latlon_to_xy (lat_bound_min b) (lon_bound_min b) zoom) as [x_min y_max] eqn:Emin.
  destruct (latlon_to_xy (lat_bound_max b) (lon_bound_max b) zoom) as [x_max y_min] eqn:Emax.
  simpl in Hx0, Hy0, Hxx, Hyy, Hpoints.
  simpl x_tile_min. simpl x_tile_max. simpl y_tile_min. simpl y_tile_max.
  pose proof (py_int_monotone x_min x_max ltac:(lra)) as Hpx.
  pose proof (py_int_monotone y_min y_max ltac:(lra)) as Hpy.
  split; [lia|]. split; [lia|].
  unfold to_supertile. apply Forall_map. rewrite Forall_forall.
  intros [lat lon] Hp. destruct (Hpoints _ _ Hp) as [Hx1 Hy1].
  destruct (latlon_to_xy lat lon zoom) as [x y]. simpl in *.
  pose proof (py_int_le x_min Hx0). pose proof (py_int_lt x_max ltac:(lra)).
  pose proof (py_int_le y_min Hy0). pose proof (py_int_lt y_max ltac:(lra)).
  split; apply pixel_index_bounds; lra.
Qed.

End Track.

Lemma power_of_two_nonneg (zoom : Z) : (0 <= 2 ^ zoom)%Q.
Proof.
  assert (H : forall p, (0 <= Qpower_positive 2 p)%Q).
  { unfold Qpower_positive. induction p as [p IH | p IH |]; simpl.
    - apply Qmult_le_0_compat; [discriminate|]. now apply Qmult_le_0_compat.
    - now apply Qmult_le_0_compat.
    - discriminate. }
  destruct zoom as [|p|p]; simpl.
  - discriminate.
  - apply H.
  - apply Qinv_le_0_compat, H.
Qed.

(** The witness of [track_on_mosaic]: two points a hundredth of a degree of
    latitude apart in the linear world at zoom 14; the rectangle is one tile
    wide and two high, and the points are on the rows 256 and 23. *)
Lemma track_on_mosaic_witness :
  let lat_lon_data := [(0, 0); (1 # 100, 6 # 1000)]%Q in
  let b := mk_bounds 0 (1 # 100) 0 (6 # 1000) in
  let t := tile_rect (ext := linear_world) b 14 in
  (tiles_x t, tiles_y t) = (1, 2)
  /\ to_supertile (ext := linear_world) 14 t lat_lon_data = [(0, 256); (70, 23)]
  /\ 1 <= tiles_x t /\ 1 <= tiles_y t
  /\ Forall (fun ji => 0 <= fst ji <= tiles_x t * OSM_TILE_SIZE
                       /\ 0 <= snd ji <= tiles_y t * OSM_TILE_SIZE)
            (to_supertile (ext := linear_world) 14 t lat_lon_data).
Proof.
  split; [vm_compute; reflexivity|]. split; [vm_compute; reflexivity|].
  apply (track_on_mosaic (ext := linear_world) 14 [(0, 0); (1 # 100, 6 # 1000)]%Q
           (mk_bounds 0 (1 # 100) 0 (6 # 1000)) eq_refl).
  - intros lat lat' lon lon' H. cbn [latlon_to_xy linear_world latlon_to_xy_linear fst].
    apply Qmult_le_compat_r; [|apply power_of_two_nonneg].
    apply Qmult_le_compat_r; [lra | discriminate].
  - intros lat lat' lon lon' _ H _. cbn [latlon_to_xy linear_world latlon_to_xy_linear snd].
    apply Qmult_le_compat_r; [|apply power_of_two_nonneg].
    apply Qmult_le_compat_r; [lra | discriminate].
  - vm_compute. discriminate.
  - vm_compute. discriminate.
Defined.

(** ** A render that succeeds *)

Lemma full_shape {A} (h w : Z) (v : A) : 0 <= h -> 0 <= w -> has_shape (full h w v) h w = true.
Proof.
  intros Hh Hw. unfold has_shape, full, zlength. rewrite repeat_length.
  apply andb_true_intro. split; [apply Z.eqb_eq; lia|].
  apply forallb_forall. intros row Hrow. apply repeat_spec in Hrow. subst row.
  rewrite repeat_length. apply Z.eqb_eq. lia.
Qed.

Lemma mapi_from_in {A B} (f : Z -> A -> B) (l : list A) (k : Z) (y : B) :
  In y (mapi_from f k l) -> exists n x, In x l /\ y = f n x.
Proof.
  revert k; induction l as [|x l IH]; intros k H; simpl in H; [easy|].
  destruct H as [<- | H].
  - exists k, x. split; [now left | reflexivity].
  - destruct (IH _ H) as (n & x' & Hx' & ->). exists n, x'. split; [now right | reflexivity].
Qed.

Lemma gaussian_filter_shape {ext : Externals} (image : grid Q) (sigma : Q) (h w : Z) :
  has_shape image h w = true -> has_shape (gaussian_filter image sigma) h w = true.
Proof.
  unfold has_shape, gaussian_filter. intros H. apply andb_prop in H. destruct H as [Hh Hw].
  rewrite mapi_length, Hh. simpl. rewrite forallb_forall in *. intros row Hrow.
  apply mapi_from_in in Hrow. destruct Hrow as (n & row0 & Hrow0 & ->).
  rewrite mapi_length. now apply Hw.
Qed.

Lemma traverse_length {A B} (f : A -> option B) (l : list A) (l' : list B) :
  traverse f l = Some l' -> length l' = length l.
Proof.
  revert l'; induction l as [|x l IH]; intros l' H; simpl in H.
  - now injection H as <-.
  - destruct (f x); [|discriminate]. destruct (traverse f l) as [ys|]; [|discriminate].
    injection H as <-. simpl. now rewrite (IH ys).
Qed.

Lemma traverse_in {A B} (f : A -> option B) (l : list A) (l' : list B) (y : B) :
  traverse f l = Some l' -> In y l' -> exists x, In x l /\ f x = Some y.
Proof.
  revert l'; induction l as [|x l IH]; intros l' H Hy; simpl in H.
  - injection H as <-. easy.
  - destruct (f x) as [y0|] eqn:E; [|discriminate].
    destruct (traverse f l) as [ys|]; [|discriminate]. injection H as <-.
    destruct Hy as [<- | Hy].
    + exists x. split; [now left | assumption].
    + destruct (IH ys eq_refl Hy) as (x' & Hx' & Hf). exists x'. split; [now right | assumption].
Qed.

Lemma equalize_shape (m : Z) (data equalized : grid Q) (h w : Z) :
  equalize m data = Ok equalized -> has_shape data h w = true ->
  has_shape equalized h w = true.
Proof.
  unfold equalize. destruct (np_histogram _ _) as [hist|]; [|discriminate].
  unfold remap. intros H Hs.
  destruct (traverse _ (clip (inject_Z m) data)) as [g|] eqn:E; [|discriminate].
  injection H as <-.
  pose proof (has_shape_map (fun v => if Qlt_le_dec (inject_Z m) v then inject_Z m else v)
                            data h w Hs) as Hc.
  fold (clip (inject_Z m) data) in Hc.
  unfold has_shape in *. apply andb_prop in Hc. destruct Hc as [Hh Hw].
  unfold zlength in *. rewrite (traverse_length _ _ _ E), Hh. simpl.
  rewrite forallb_forall in *. intros row Hrow.
  destruct (traverse_in _ _ _ _ E Hrow) as (row0 & Hrow0 & Hf).
  rewrite (traverse_length _ _ _ Hf). now apply Hw.
Qed.

Lemma normalize_shape (data : grid Q) (normalized : grid npfloat) (h w : Z) :
  normalize data = Ok normalized -> has_shape data h w = true ->
  has_shape normalized h w = true.
Proof.
  unfold normalize. destruct (np_min (concat data)), (np_max (concat data)); try discriminate.
  intros [= <-] Hs. now apply has_shape_map.
Qed.

Lemma composite_shape (data_color : grid rgba) (supertile : grid rgb) (h w : Z) :
  has_shape data_color h w = true -> has_shape supertile h w = true ->
  has_shape (composite data_color supertile) h w = true.
Proof.
  unfold has_shape, composite, zlength. intros Hd Hs.
  apply andb_prop in Hd. destruct Hd as [Hdh Hdw].
  apply andb_prop in Hs. destruct Hs as [Hsh Hsw].
  apply Z.eqb_eq in Hdh, Hsh.
  rewrite map2_length by lia. apply andb_true_intro. split; [apply Z.eqb_eq; lia|].
  rewrite forallb_forall in *. intros row Hrow.
  apply In_nth with (d := []) in Hrow. destruct Hrow as (n & Hn & <-).
  rewrite map2_length in Hn by lia.
  rewrite (map2_nth _ data_color supertile n [] [] []) by lia.
  assert (H1 : In (nth n data_color []) data_color) by (apply nth_In; lia).
  assert (H2 : In (nth n supertile []) supertile) by (apply nth_In; lia).
  specialize (Hdw _ H1). specialize (Hsw _ H2). apply Z.eqb_eq in Hdw, Hsw.
  rewrite map2_length by lia. apply Z.eqb_eq. lia.
Qed.

Section Success.

Context {ext : Externals}.

Lemma render_tiles_success (zoom : Z) (t : TileRect) (lat_lon_data : list (Q * Q))
      (num_activities : Z) (log log' : list event) (image : grid rgb) :
  render_tiles zoom t lat_lon_data num_activities log = (log', Ok image) ->
  0 <= tiles_x t /\ 0 <= tiles_y t
  /\ has_shape image (tiles_y t * OSM_TILE_SIZE) (tiles_x t * OSM_TILE_SIZE) = true
  /\ exists lo hi,
      np_min (values image) = Some lo /\ np_max (values image) = Some hi
      /\ log' = log ++ map (fun '(z, x, y) => Get_tile z x y) (tiles_of zoom t)
                    ++ [Print_range lo hi].
Proof.
  unfold render_tiles, np_zeros.
  destruct (Z.ltb_spec (tiles_y t * OSM_TILE_SIZE) 0) as [Hy | Hy];
    [|destruct (Z.ltb_spec (tiles_x t * OSM_TILE_SIZE) 0) as [Hx | Hx]]; simpl orb.
  - unfold bind, lift. discriminate.
  - unfold bind, lift. discriminate.
  - unfold bind at 1. unfold lift at 1. unfold bind at 1. rewrite assemble_fold.
    cbv zeta. unfold bind, lift, emit, ret.
    set (canvas := full (tiles_y t * OSM_TILE_SIZE) (tiles_x t * OSM_TILE_SIZE) (mk_rgb 0 0 0)).
    set (mosaic := map (map inverted_gray) (place_all t canvas (tiles_of zoom t))).
    assert (Hmosaic : has_shape mosaic (tiles_y t * OSM_TILE_SIZE) (tiles_x t * OSM_TILE_SIZE) = true).
    { apply has_shape_map, place_all_shape, full_shape; assumption. }
    destruct (equalize _ _) as [data | e | ] eqn:Eeq; try discriminate.
    destruct (normalize _) as [normalized | e | ] eqn:Enorm; try discriminate.
    destruct (np_min _) as [lo|] eqn:Hlo; simpl; [|discriminate].
    destruct (np_max _) as [hi|] eqn:Hhi; simpl; [|discriminate].
    intros [= <- <-]. unfold OSM_TILE_SIZE in Hx, Hy.
    split; [lia|]. split; [lia|]. split.
    + apply composite_shape; [|assumption].
      apply colorize_shape. apply (normalize_shape _ _ _ _ Enorm).
      apply gaussian_filter_shape. apply (equalize_shape _ _ _ _ _ Eeq).
      apply splat_shape. now apply has_shape_map.
    + exists lo, hi. split; [assumption|]. split; [assumption|].
      now rewrite <- app_assoc.
Qed.

(** X11. A render that returns an image: the rectangle is within the budget
    and has no negative side; the image has the height and the width of the
    rectangle in pixels, 256 to the tile; and the log is the zoom message
    (auto mode only), one request for each tile of the rectangle, column by
    column, and the message with the least and the largest number of the
    image. *)
Theorem render_heatmap_success (fuel : nat) (lat_lon_data : list (Q * Q))
        (num_activities arg_zoom : Z) (b : GeoBounds) (zoom : Z) (t : TileRect) :
  bounds_of lat_lon_data = Some b ->
  resolve fuel b arg_zoom = Some (zoom, t) ->
  match render_heatmap fuel lat_lon_data num_activities arg_zoom [] with
  | (log, Ok image) =>
      tile_count t <= MAX_TILE_COUNT /\ 0 <= tiles_x t /\ 0 <= tiles_y t
      /\ has_shape image (tiles_y t * OSM_TILE_SIZE) (tiles_x t * OSM_TILE_SIZE) = true
      /\ exists lo hi,
          np_min (values image) = Some lo /\ np_max (values image) = Some hi
          /\ log = (if arg_zoom >? -1 then [] else [Print_auto_zoom zoom])
                   ++ map (fun '(z, x, y) => Get_tile z x y) (tiles_of zoom t)
                   ++ [Print_range lo hi]
  | _ => True
  end.
Proof.
  intros Hb Hres.
  destruct (render_heatmap fuel lat_lon_data num_activities arg_zoom []) as [log [image | e | ]]
    eqn:Hrun; try exact I.
  unfold render_heatmap, resolve in *. rewrite Hb in Hrun.
  unfold bind at 1 in Hrun. unfold lift at 1 in Hrun. unfold or_raise at 1 in Hrun.
  unfold bind at 1 in Hrun.
  destruct (arg_zoom >? -1).
  - injection Hres as <- <-. unfold ret at 1 in Hrun.
    destruct (Z.gtb_spec (tile_count (tile_rect b (Z.min arg_zoom OSM_MAX_ZOOM))) MAX_TILE_COUNT)
      as [Hcount | Hcount]; [discriminate|].
    destruct (render_tiles_success _ _ _ _ _ _ _ Hrun) as (Hx & Hy & Hs & lo & hi & Hlo & Hhi & ->).
    repeat split; try assumption. exists lo, hi. repeat split; assumption.
  - rewrite Hres in Hrun. unfold bind at 1 in Hrun. unfold emit at 1 in Hrun.
    unfold ret at 1 in Hrun.
    destruct (Z.gtb_spec (tile_count t) MAX_TILE_COUNT) as [Hcount | Hcount]; [discriminate|].
    destruct (render_tiles_success _ _ _ _ _ _ _ Hrun) as (Hx & Hy & Hs & lo & hi & Hlo & Hhi & ->).
    repeat split; try assumption. exists lo, hi. repeat split; assumption.
Qed.

End Success.

Lemma render_heatmap_success_witness :
  let t := mk_rect 8192 8192 8192 8192 in
  match render_heatmap (ext := equator) 0 [(0, 1 # 100)]%Q 1 14 [] with
  | (log, Ok image) =>
      tile_count t <= MAX_TILE_COUNT /\ 0 <= tiles_x t /\ 0 <= tiles_y t
      /\ has_shape image (tiles_y t * OSM_TILE_SIZE) (tiles_x t * OSM_TILE_SIZE) = true
      /\ exists lo hi,
          np_min (values image) = Some lo /\ np_max (values image) = Some hi
          /\ log = (if 14 >? -1 then [] else [Print_auto_zoom 14])
                   ++ map (fun '(z, x, y) => Get_tile z x y) (tiles_of 14 t)
                   ++ [Print_range lo hi]
  | _ => True
  end.
Proof.
  apply (render_heatmap_success (ext := equator) 0 [(0, 1 # 100)]%Q 1 14
           (mk_bounds 0 0 (1 # 100) (1 # 100)) 14 (mk_rect 8192 8192 8192 8192)).
  - reflexivity.
  - vm_compute; reflexivity.
Defined.

(** ** The kernel of the filter *)

Lemma np_roll_length {A} (a : list A) (shift : Z) : zlength (np_roll a shift) = zlength a.
Proof.
  unfold np_roll. destruct (Z.eqb_spec (zlength a) 0) as [E | E]; [reflexivity|].
  unfold zlength in *. rewrite length_app, length_skipn, length_firstn.
  pose proof (Z.mod_pos_bound shift (Z.of_nat (length a)) ltac:(lia)). lia.
Qed.

Lemma np_roll_in {A} (a : list A) (shift : Z) (x : A) : In x (np_roll a shift) -> In x a.
Proof.
  unfold np_roll. destruct (zlength a =? 0); [easy|].
  set (k := Z.to_nat (zlength a - shift mod zlength a)). intros H.
  rewrite <- (firstn_skipn k a). apply in_or_app.
  apply in_app_or in H. tauto.
Qed.

Lemma np_roll_nth {A} (a : list A) (shift k : Z) (d : A) :
  0 <= k < zlength a ->
  nth (Z.to_nat k) (np_roll a shift) d = nth (Z.to_nat ((k - shift) mod zlength a)) a d.
Proof.
  intros Hk. unfold np_roll. destruct (Z.eqb_spec (zlength a) 0) as [E | E]; [lia|].
  set (n := zlength a) in *.
  pose proof (Z.mod_pos_bound shift n ltac:(lia)) as Hs.
  rewrite <- Zdiv.Zminus_mod_idemp_r.
  set (s := shift mod n) in *.
  assert (Hn : Z.to_nat n = length a) by (unfold n, zlength; lia).
  destruct (Z.lt_ge_cases k s) as [Hlt | Hge].
  - rewrite app_nth1 by (rewrite length_skipn; lia).
    rewrite nth_skipn. f_equal.
    replace ((k - s) mod n) with (k - s + n); [lia|].
    apply (Z.mod_unique _ _ (-1)); lia.
  - rewrite app_nth2 by (rewrite length_skipn; lia).
    rewrite length_skipn. rewrite Z.mod_small by lia.
    rewrite nth_firstn.
    replace (Z.to_nat k - (length a - Z.to_nat (n - s)))%nat with (Z.to_nat (k - s)) by lia.
    destruct (Nat.ltb_spec (Z.to_nat (k - s)) (Z.to_nat (n - s))); [reflexivity | lia].
Qed.

Lemma py_range_nth (n k : Z) : 0 <= k < n -> nth (Z.to_nat k) (py_range 0 n) 0 = k.
Proof.
  intros Hk. unfold py_range. set (f := fun j : nat => 0 + Z.of_nat j).
  rewrite (nth_indep _ 0 (f 0%nat)) by (rewrite length_map, length_seq; lia).
  rewrite (map_nth f), seq_nth by lia. unfold f. lia.
Qed.

Lemma kernel_centre_half (n : Z) : 0 <= n -> kernel_centre n = n / 2.
Proof.
  intros Hn. unfold kernel_centre, py_int. simpl. rewrite Z.mul_1_r.
  apply Z.quot_div_nonneg; lia.
Qed.

Lemma circular_offset_cases (n r : Z) :
  0 < n -> 0 <= r < n ->
  circular_offset n r = if r <? n - n / 2 then r else r - n.
Proof.
  intros Hn Hr. unfold circular_offset. rewrite kernel_centre_half by lia.
  pose proof (Z.div_le_upper_bound n 2 n ltac:(lia) ltac:(lia)).
  pose proof (Z.div_pos n 2 ltac:(lia) ltac:(lia)).
  destruct (Z.ltb_spec r (n - n / 2)).
  - rewrite Z.mod_small by lia. lia.
  - replace ((r + n / 2) mod n) with (r + n / 2 - n); [lia|].
    apply (Z.mod_unique _ _ 1); lia.
Qed.

Section Kernel_facts.

Variable np_exp : Q -> Q.
Variable np_pi : Q.

Lemma gaussian_kernel_shape (h w : Z) (sigma : Q) :
  0 <= h -> 0 <= w -> has_shape (gaussian_kernel np_exp np_pi h w sigma) h w = true.
Proof.
  intros Hh Hw. unfold has_shape, gaussian_kernel.
  apply andb_true_intro. split.
  - unfold zlength. rewrite length_map. fold (zlength (py_range 0 h)).
    rewrite py_range_length. apply Z.eqb_eq. lia.
  - apply forallb_forall. intros row Hrow. apply in_map_iff in Hrow.
    destruct Hrow as (i & <- & _).
    unfold zlength. rewrite length_map. fold (zlength (py_range 0 w)).
    rewrite py_range_length. apply Z.eqb_eq. lia.
Qed.

Lemma gaussian_kernel_cell (h w : Z) (sigma : Q) (i j : Z) :
  0 <= i < h -> 0 <= j < w ->
  cell 0%Q (gaussian_kernel np_exp np_pi h w sigma) i j
  = gaussian_at np_exp np_pi (kernel_centre h) (kernel_centre w) sigma i j.
Proof.
  intros Hi Hj. unfold cell, gaussian_kernel.
  set (f := fun i => map (fun j => gaussian_at np_exp np_pi (kernel_centre h) (kernel_centre w)
                                               sigma i j) (py_range 0 w)).
  rewrite (nth_indep _ [] (f 0))
    by (rewrite length_map; pose proof (py_range_length 0 h); unfold zlength in *; lia).
  rewrite (map_nth f), py_range_nth by assumption. unfold f.
  set (g := fun j => gaussian_at np_exp np_pi (kernel_centre h) (kernel_centre w) sigma i j).
  rewrite (nth_indep _ 0%Q (g 0))
    by (rewrite length_map; pose proof (py_range_length 0 w); unfold zlength in *; lia).
  now rewrite (map_nth g), py_range_nth by assumption.
Qed.

(** X12. The kernel of [gaussian_filter] after the roll of line 64 has the
    shape of the image, and its entry at row [r], column [c] is the Gaussian
    at the signed distances of [r] and [c] from the origin, counted round
    the image: [r] itself in the first half of the rows, [r - h] in the
    second, and alike for the columns.  The peak is at the entry (0, 0). *)
Theorem rolled_kernel_centred (h w : Z) (sigma : Q) (r c : Z) :
  0 <= r < h -> 0 <= c < w ->
  has_shape (rolled_kernel np_exp np_pi h w sigma) h w = true
  /\ cell 0%Q (rolled_kernel np_exp np_pi h w sigma) r c
     = gaussian_at np_exp np_pi (kernel_centre h) (kernel_centre w) sigma
                   (kernel_centre h + circular_offset h r)
                   (kernel_centre w + circular_offset w c)
  /\ circular_offset h r = (if r <? h - h / 2 then r else r - h)
  /\ circular_offset w c = (if c <? w - w / 2 then c else c - w)
  /\ cell 0%Q (rolled_kernel np_exp np_pi h w sigma) 0 0
     = gaussian_at np_exp np_pi (kernel_centre h) (kernel_centre w) sigma
                   (kernel_centre h) (kernel_centre w).
Proof.
  intros Hr Hc.
  pose proof (gaussian_kernel_shape h w sigma ltac:(lia) ltac:(lia)) as Hs.
  assert (Hrows : zlength (gaussian_kernel np_exp np_pi h w sigma) = h)
    by (apply (has_shape_rows _ _ _ Hs)).
  assert (Hcell : forall r c, 0 <= r < h -> 0 <= c < w ->
            cell 0%Q (rolled_kernel np_exp np_pi h w sigma) r c
            = gaussian_at np_exp np_pi (kernel_centre h) (kernel_centre w) sigma
                          ((r + kernel_centre h) mod h) ((c + kernel_centre w) mod w)).
  { intros r' c' Hr' Hc'. unfold rolled_kernel, np_roll2, cell.
    set (K := gaussian_kernel np_exp np_pi h w sigma) in *.
    rewrite (nth_indep _ [] (np_roll [] (- kernel_centre w)))
      by (rewrite length_map; pose proof (np_roll_length K (- kernel_centre h));
          unfold zlength in *; lia).
    rewrite (map_nth (fun row => np_roll row (- kernel_centre w))).
    rewrite (np_roll_nth K) by lia. rewrite Hrows.
    replace (r' - - kernel_centre h) with (r' + kernel_centre h) by lia.
    pose proof (Z.mod_pos_bound (r' + kernel_centre h) h ltac:(lia)) as Hi.
    pose proof (Z.mod_pos_bound (c' + kernel_centre w) w ltac:(lia)) as Hj.
    assert (Hrow : zlength (nth (Z.to_nat ((r' + kernel_centre h) mod h)) K []) = w)
      by (apply (has_shape_nth _ _ _ _ Hs); lia).
    rewrite np_roll_nth by lia. rewrite Hrow.
    replace (c' - - kernel_centre w) with (c' + kernel_centre w) by lia.
    apply (gaussian_kernel_cell h w sigma _ _ Hi Hj). }
  split; [|split; [|split; [|split]]].
  - unfold rolled_kernel, np_roll2, has_shape in *.
    apply andb_prop in Hs. destruct Hs as [Hh Hw].
    apply andb_true_intro. split.
    + unfold zlength. rewrite length_map. fold (zlength (np_roll (gaussian_kernel np_exp np_pi h w sigma) (- kernel_centre h))).
      now rewrite np_roll_length.
    + apply forallb_forall. intros row Hrow. apply in_map_iff in Hrow.
      destruct Hrow as (row0 & <- & Hrow0). rewrite np_roll_length.
      rewrite forallb_forall in Hw. apply Hw.
      now apply (np_roll_in _ _ _ Hrow0).
  - rewrite (Hcell r c Hr Hc). unfold circular_offset.
    now replace (kernel_centre h + ((r + kernel_centre h) mod h - kernel_centre h))
      with ((r + kernel_centre h) mod h) by lia;
    replace (kernel_centre w + ((c + kernel_centre w) mod w - kernel_centre w))
      with ((c + kernel_centre w) mod w) by lia.
  - apply circular_offset_cases; lia.
  - apply circular_offset_cases; lia.
  - rewrite (Hcell 0 0) by lia. rewrite !Z.add_0_l.
    rewrite !kernel_centre_half by lia.
    rewrite !Z.mod_small; [reflexivity | |].
    + split; [apply Z.div_pos; lia | apply Z.div_lt_upper_bound; lia].
    + split; [apply Z.div_pos; lia | apply Z.div_lt_upper_bound; lia].
Qed.

End Kernel_facts.

Lemma rolled_kernel_centred_witness :
  let K := rolled_kernel (fun x => x) 3 4 5 1 in
  has_shape K 4 5 = true
  /\ cell 0%Q K 3 1 = gaussian_at (fun x => x) 3 2 2 1 1 3
  /\ circular_offset 4 3 = -1
  /\ circular_offset 5 1 = 1
  /\ cell 0%Q K 0 0 = gaussian_at (fun x => x) 3 2 2 1 2 2.
Proof.
  exact (rolled_kernel_centred (fun x => x) 3 4 5 1 3 1 ltac:(lia) ltac:(lia)).
Defined.

(** ** The caller *)

Lemma inside_strict (b : GeoBounds) (p : activity_point) :
  inside b p = true <->
  (lat_bound_min b < Latitude p)%Q /\ (Latitude p < lat_bound_max b)%Q
  /\ (lon_bound_min b < Longitude p)%Q /\ (Longitude p < lon_bound_max b)%Q.
Proof.
  unfold inside. rewrite !andb_true_iff, !negb_true_iff.
  assert (H : forall x y, Qle_bool x y = false <-> (y < x)%Q).
  { intros x y. rewrite <- not_true_iff_false, Qle_bool_iff. split.
    - apply Qnot_le_lt.
    - intros H1 H2. apply (Qlt_not_le _ _ H1 H2). }
  rewrite !H. tauto.
Qed.

Lemma column_stack_fst (rows : list activity_point) (v : Q) :
  In v (map fst (column_stack rows)) -> exists p, In p rows /\ Latitude p = v.
Proof.
  unfold column_stack. rewrite map_map. intros H. apply in_map_iff in H.
  destruct H as (p & <- & Hp). now exists p.
Qed.

Lemma column_stack_snd (rows : list activity_point) (v : Q) :
  In v (map snd (column_stack rows)) -> exists p, In p rows /\ Longitude p = v.
Proof.
  unfold column_stack. rewrite map_map. intros H. apply in_map_iff in H.
  destruct H as (p & <- & Hp). now exists p.
Qed.

(** X13. The points that [main] hands to the render are those of the rows
    of the table strictly inside the configured region; a point on the
    border is left out, and the bounds that the render computes from them
    lie strictly inside the configured ones. *)
Theorem selection_strictly_inside (region : GeoBounds) (activities : list activity_point)
        (b : GeoBounds) :
  bounds_of (column_stack (filtered_points region activities)) = Some b ->
  (lat_bound_min region < lat_bound_min b)%Q /\ (lat_bound_min b <= lat_bound_max b)%Q
  /\ (lat_bound_max b < lat_bound_max region)%Q
  /\ (lon_bound_min region < lon_bound_min b)%Q /\ (lon_bound_min b <= lon_bound_max b)%Q
  /\ (lon_bound_max b < lon_bound_max region)%Q
  /\ forall p, In p activities ->
               (In (Latitude p, Longitude p) (column_stack (filtered_points region activities))
                <-> inside region p = true).
Proof.
  intros Hb.
  destruct (bounds_of_attained _ _ Hb) as (H1 & H2 & H3 & H4).
  destruct (bounds_of_encloses _ _ Hb) as (_ & Henc).
  apply column_stack_fst in H1, H2. apply column_stack_snd in H3, H4.
  destruct H1 as (p1 & Hp1 & E1), H2 as (p2 & Hp2 & E2),
           H3 as (p3 & Hp3 & E3), H4 as (p4 & Hp4 & E4).
  unfold filtered_points in Hp1, Hp2, Hp3, Hp4.
  apply filter_In in Hp1, Hp2, Hp3, Hp4.
  destruct Hp1 as [Hin1 Hp1], Hp2 as [_ Hp2], Hp3 as [_ Hp3], Hp4 as [_ Hp4].
  apply inside_strict in Hp1, Hp2, Hp3, Hp4.
  assert (Hpt : In (Latitude p1, Longitude p1)
                   (column_stack (filtered_points region activities))).
  { unfold column_stack, filtered_points.
    apply (in_map (fun p => (Latitude p, Longitude p))). apply filter_In. split; [assumption|].
    now apply inside_strict. }
  destruct (Henc _ _ Hpt) as [Hlat Hlon].
  rewrite <- E1, <- E2, <- E3, <- E4 in *.
  repeat split; try tauto; try lra.
  - intros Hsel. unfold column_stack in Hsel. apply in_map_iff in Hsel.
    destruct Hsel as (q & [= Eq1 Eq2] & Hq). apply filter_In in Hq. destruct Hq as [_ Hq].
    apply inside_strict in Hq. apply inside_strict. rewrite <- Eq1, <- Eq2. exact Hq.
  - intros Hsel. unfold column_stack, filtered_points.
    apply (in_map (fun p => (Latitude p, Longitude p))). apply filter_In. now split.
Qed.

Lemma selection_strictly_inside_witness :
  let region := mk_bounds 0 10 0 10 in
  let b := mk_bounds 2 5 3 7 in
  (lat_bound_min region < lat_bound_min b)%Q /\ (lat_bound_min b <= lat_bound_max b)%Q
  /\ (lat_bound_max b < lat_bound_max region)%Q
  /\ (lon_bound_min region < lon_bound_min b)%Q /\ (lon_bound_min b <= lon_bound_max b)%Q
  /\ (lon_bound_max b < lon_bound_max region)%Q
  /\ forall p, In p [mk_point 1 2 7; mk_point 1 10 5; mk_point 2 5 3] ->
               (In (Latitude p, Longitude p)
                   (column_stack (filtered_points region
                                    [mk_point 1 2 7; mk_point 1 10 5; mk_point 2 5 3]))
                <-> inside region p = true).
Proof.
  apply (selection_strictly_inside (mk_bounds 0 10 0 10)
           [mk_point 1 2 7; mk_point 1 10 5; mk_point 2 5 3] (mk_bounds 2 5 3 7)).
  reflexivity.
Defined.

Lemma nodup_length_le {A} (dec : forall x y : A, {x = y} + {x <> y}) (l : list A) :
  (length (nodup dec l) <= length l)%nat.
Proof.
  induction l as [|x l IH]; simpl; [lia|]. destruct (in_dec dec x l); simpl; lia.
Qed.

Lemma filter_empty {A} (f : A -> bool) (l : list A) :
  (forall x, In x l -> f x = false) -> filter f l = [].
Proof.
  induction l as [|x l IH]; intros H; simpl; [reflexivity|].
  rewrite (H x (or_introl eq_refl)). apply IH. intros y Hy. apply H. now right.
Qed.

(** X14. The number of activities that [main] passes to the render counts
    each activity of the selection once: it is at least 1 as soon as a row is
    selected and 0 otherwise, at most the number of selected rows, and at
    most the number of activities of the whole table. *)
Theorem unique_activities_bounds (region : GeoBounds) (activities : list activity_point) :
  let rows := filtered_points region activities in
  0 <= unique_activities rows <= zlength rows
  /\ (unique_activities rows = 0 <-> rows = [])
  /\ unique_activities rows <= unique_activities activities
  /\ forall a, count_occ Z.eq_dec (nodup Z.eq_dec (map Activity rows)) a
               = (if in_dec Z.eq_dec a (map Activity rows) then 1 else 0)%nat.
Proof.
  intros rows. unfold unique_activities, zlength.
  split; [|split; [|split]].
  - pose proof (nodup_length_le Z.eq_dec (map Activity rows)) as H.
    rewrite length_map in H. lia.
  - split.
    + intros H. destruct rows as [|p rows']; [reflexivity|].
      assert (Hin : In (Activity p) (nodup Z.eq_dec (map Activity (p :: rows'))))
        by (apply nodup_In; now left).
      destruct (nodup Z.eq_dec (map Activity (p :: rows'))); [easy | simpl in H; lia].
    + now intros ->.
  - apply Nat2Z.inj_le. apply NoDup_incl_length; [apply NoDup_nodup|].
    intros a Ha. apply nodup_In in Ha. apply nodup_In.
    apply in_map_iff in Ha. destruct Ha as (p & <- & Hp).
    apply in_map. unfold rows, filtered_points in Hp. apply filter_In in Hp. tauto.
  - intros a. destruct (in_dec Z.eq_dec a (map Activity rows)) as [Hin | Hout].
    + apply (proj1 (NoDup_count_occ' Z.eq_dec _) (NoDup_nodup Z.eq_dec _)).
      now apply nodup_In.
    + apply count_occ_not_In. now rewrite nodup_In.
Qed.

Lemma saved_app (l1 l2 : list main_event) : saved (l1 ++ l2) = saved l1 ++ saved l2.
Proof. apply flat_map_app. Qed.

Lemma saved_during_render (events : list event) : saved (map During_render events) = [].
Proof. induction events as [|e events IH]; [reflexivity | exact IH]. Qed.

Lemma read_bounds_error (spec : heatmap_spec) (e : main_exn) :
  read_bounds spec = inr e -> exists key, e = KeyError key.
Proof.
  unfold read_bounds.
  destruct (dict_get spec "bottom"); [|intros [= <-]; eauto].
  destruct (dict_get spec "top"); [|intros [= <-]; eauto].
  destruct (dict_get spec "left"); [|intros [= <-]; eauto].
  destruct (dict_get spec "right"); [discriminate | intros [= <-]; eauto].
Qed.

Section Main.

Context {ext : Externals}.

(** X15. [main] writes one file for each heatmap of the configuration, in
    the order of the file and under the name "Heatmap <name>.png", up to the
    first heatmap that fails: the log is only ever extended, the files of
    the heatmaps before the failure are written, nothing is written for the
    failing one or for those after it, and without a failure every heatmap
    has its file. *)
Theorem main_saves_in_order (fuel : nat) (heatmaps : list (string * heatmap_spec))
        (activities : list activity_point) (log : list main_event) :
  exists done rest more,
    heatmaps = done ++ rest
    /\ fst (main_loop fuel heatmaps activities log) = log ++ more
    /\ saved more = map (fun h => output_filename (fst h)) done
    /\ (snd (main_loop fuel heatmaps activities log) = None <-> rest = []).
Proof.
  revert log. induction heatmaps as [|[heatmap_name spec] heatmaps IH]; intros log.
  - exists [], [], []. simpl. rewrite app_nil_r. repeat split; reflexivity.
  - cbn [main_loop]. destruct (read_bounds spec) as [bounds | e].
    + cbv zeta.
      destruct (render_heatmap fuel _ _ (-1) []) as [events [heatmap | e | ]].
      * match goal with |- context [main_loop fuel heatmaps activities ?l] =>
          destruct (IH l) as (done & rest & more & -> & Hlog & Hsaved & Hres)
        end.
        exists ((heatmap_name, spec) :: done), rest,
          ([Print_rendering] ++ map During_render events
                             ++ [Imsave (output_filename heatmap_name) heatmap] ++ more).
        split; [reflexivity|]. split.
        { rewrite Hlog. now rewrite <- !app_assoc. }
        split; [|exact Hres].
        rewrite !saved_app, saved_during_render, Hsaved. reflexivity.
      * exists [], ((heatmap_name, spec) :: heatmaps), ([Print_rendering] ++ map During_render events).
        simpl. split; [reflexivity|]. split; [now rewrite <- app_assoc|].
        split; [apply saved_during_render|]. split; discriminate.
      * exists [], ((heatmap_name, spec) :: heatmaps), ([Print_rendering] ++ map During_render events).
        simpl. split; [reflexivity|]. split; [now rewrite <- app_assoc|].
        split; [apply saved_during_render|]. split; discriminate.
    + exists [], ((heatmap_name, spec) :: heatmaps), []. simpl. rewrite app_nil_r.
      repeat split; discriminate.
Qed.

(** X16. A region of the configuration with no activity point strictly
    inside stops [main]: the render is started on no point and fails with
    the [ValueError] of line 86, after the message of line 256; no file is
    written for this heatmap and the heatmaps after it are not rendered. *)
Theorem main_empty_region (fuel : nat) (heatmap_name : string) (spec : heatmap_spec)
        (rest : list (string * heatmap_spec)) (activities : list activity_point)
        (log : list main_event) (region : GeoBounds) :
  read_bounds spec = inl region ->
  (forall p, In p activities -> inside region p = false) ->
  main_loop fuel ((heatmap_name, spec) :: rest) activities log
  = (log ++ [Print_rendering], Some (Render_raised ValueError)).
Proof.
  intros Hregion Hout. cbn [main_loop]. rewrite Hregion. cbv zeta.
  unfold filtered_points. rewrite (filter_empty _ _ Hout). cbn [column_stack map].
  rewrite render_heatmap_empty. cbn [map]. now rewrite app_nil_r.
Qed.

(** X17. A heatmap of the configuration that lacks one of the keys
    "bottom", "top", "left", "right" stops [main] with a [KeyError] for the
    first of the four, in this order, that is missing; nothing is printed,
    rendered or written for it. *)
Theorem main_missing_key (fuel : nat) (heatmap_name : string) (spec : heatmap_spec)
        (rest : list (string * heatmap_spec)) (activities : list activity_point)
        (log : list main_event) (key : string) :
  In key ["bottom"; "top"; "left"; "right"]%string ->
  dict_get spec key = None ->
  exists before missing after,
    ["bottom"; "top"; "left"; "right"]%string = before ++ missing :: after
    /\ Forall (fun k => dict_get spec k <> None) before
    /\ dict_get spec missing = None
    /\ main_loop fuel ((heatmap_name, spec) :: rest) activities log
       = (log, Some (KeyError missing)).
Proof.
  intros Hkey Hnone. cbn [main_loop]. unfold read_bounds.
  destruct (dict_get spec "bottom") as [v1|] eqn:E1.
  2: { exists [], "bottom"%string, ["top"; "left"; "right"]%string. repeat split; auto. }
  destruct (dict_get spec "top") as [v2|] eqn:E2.
  2: { exists ["bottom"]%string, "top"%string, ["left"; "right"]%string.
       repeat split; auto. repeat constructor; congruence. }
  destruct (dict_get spec "left") as [v3|] eqn:E3.
  2: { exists ["bottom"; "top"]%string, "left"%string, ["right"]%string.
       repeat split; auto. repeat constructor; congruence. }
  destruct (dict_get spec "right") as [v4|] eqn:E4.
  2: { exists ["bottom"; "top"; "left"]%string, "right"%string, [].
       repeat split; auto. repeat constructor; congruence. }
  simpl in Hkey. destruct Hkey as [<- | [<- | [<- | [<- | []]]]]; congruence.
Qed.

Lemma py_int_opp (q : Q) : py_int (- q) = - py_int q.
Proof. destruct q as [n d]. unfold py_int. simpl. now rewrite Z.quot_opp_l. Qed.

Lemma py_int_order (x y : Q) : (x <= y)%Q -> py_int x <= py_int y.
Proof.
  intros H. destruct (Qlt_le_dec x 0) as [Hx | Hx]; [|apply py_int_monotone; now split].
  destruct (Qlt_le_dec y 0) as [Hy | Hy].
  - pose proof (py_int_monotone (- y) (- x) ltac:(split; lra)) as Hm.
    rewrite !py_int_opp in Hm. lia.
  - pose proof (py_int_monotone 0 (- x) ltac:(split; lra)) as Hm.
    pose proof (py_int_monotone 0 y ltac:(split; lra)) as Hm'.
    rewrite py_int_opp in Hm. change (py_int 0) with 0 in *. lia.
Qed.

Lemma render_auto_within_budget (fuel : nat) (lat_lon_data : list (Q * Q))
      (num_activities : Z) (msg : string) :
  (forall zoom, eastward zoom) ->
  snd (render_heatmap fuel lat_lon_data num_activities (-1) []) <> Raise (SystemExit msg).
Proof.
  intros Heast.
  destruct (bounds_of lat_lon_data) as [b|] eqn:Hb.
  2: { unfold render_heatmap. rewrite Hb. discriminate. }
  destruct (resolve fuel b (-1)) as [[zoom t]|] eqn:Hres.
  2: { unfold render_heatmap, resolve in *. rewrite Hb. simpl in Hres.
       unfold bind at 1. unfold lift at 1. unfold or_raise. unfold bind at 1.
       simpl. rewrite Hres. discriminate. }
  assert (Hfit : fits t = true /\ t = tile_rect b zoom).
  { unfold resolve in Hres. simpl in Hres.
    destruct (auto_zoom_stops _ _ _ _ _ Hres) as (_ & Ht & Hfit & _). now split. }
  destruct Hfit as [Hfit Ht].
  destruct (bounds_of_encloses _ _ Hb) as (Hne & Hin).
  destruct lat_lon_data as [|[lat0 lon0] data'] eqn:Hdata; [congruence|]. rewrite <- Hdata in *.
  assert (Hp0 : In (lat0, lon0) lat_lon_data) by (rewrite Hdata; now left).
  destruct (Hin _ _ Hp0) as [Hlat0 Hlon0].
  assert (Hx : 1 <= tiles_x t).
  { subst t. unfold tile_rect, tiles_x.
    pose proof (Heast zoom (lat_bound_min b) (lat_bound_max b) (lon_bound_min b) (lon_bound_max b)
                      ltac:(lra)) as H.
    destruct (latlon_to_xy (lat_bound_min b) (lon_bound_min b) zoom) as [x_min y_max].
    destruct (latlon_to_xy (lat_bound_max b) (lon_bound_max b) zoom) as [x_max y_min].
    simpl in *. pose proof (py_int_order x_min x_max H). lia. }
  unfold fits, MAX_HEATMAP_SIZE, OSM_TILE_SIZE in Hfit. simpl in Hfit.
  apply andb_prop in Hfit. destruct Hfit as [Hfx Hfy]. apply Z.leb_le in Hfx, Hfy.
  apply (render_heatmap_run fuel lat_lon_data num_activities (-1) b zoom t
           (fst (render_heatmap fuel lat_lon_data num_activities (-1) []))
           (snd (render_heatmap fuel lat_lon_data num_activities (-1) [])) Hb Hres).
  - now destruct (render_heatmap fuel lat_lon_data num_activities (-1) []).
  - unfold MAX_TILE_COUNT, tile_count. nia.
Qed.

(** X18. [main] leaves the zoom to the search, and with a projection that
    moves east with the longitude the rectangle the search stops at is
    within the budget of tiles: whatever the configuration and the table,
    [main] does not end in the [exit] of line 114. *)
Theorem main_within_budget (fuel : nat) (heatmaps : list (string * heatmap_spec))
        (activities : list activity_point) (log : list main_event) (msg : string) :
  (forall zoom, eastward zoom) ->
  snd (main_loop fuel heatmaps activities log) <> Some (Render_raised (SystemExit msg)).
Proof.
  intros Heast. revert log.
  induction heatmaps as [|[heatmap_name spec] heatmaps IH]; intros log; [discriminate|].
  cbn [main_loop]. destruct (read_bounds spec) as [bounds | e] eqn:Hspec.
  2: { destruct (read_bounds_error _ _ Hspec) as [key ->]. discriminate. }
  cbv zeta.
  pose proof (render_auto_within_budget fuel
                (column_stack (filtered_points bounds activities))
                (unique_activities (filtered_points bounds activities)) msg Heast) as H.
  destruct (render_heatmap fuel _ _ (-1) []) as [events [heatmap | e | ]].
  - apply IH.
  - simpl in *. congruence.
  - discriminate.
Qed.

End Main.

Lemma equator_eastward (zoom : Z) : eastward (ext := equator) zoom.
Proof.
  intros lat lat' lon lon' H. cbn [latlon_to_xy equator latlon_to_xy_equator fst].
  apply Qmult_le_compat_r; [|apply power_of_two_nonneg].
  apply Qmult_le_compat_r; [lra | discriminate].
Qed.

Lemma main_empty_region_witness :
  main_loop (ext := equator) 20
            [("Bonn", [("bottom", 50); ("top", 51); ("left", 6); ("right", 8)]%Q);
             ("Koeln", [("bottom", 50); ("top", 52); ("left", 6); ("right", 7)]%Q)]%string
            [mk_point 1 50 7; mk_point 1 (101 # 2) 9] []
  = ([Print_rendering], Some (Render_raised ValueError)).
Proof.
  apply (main_empty_region (ext := equator) 20 "Bonn"
           [("bottom", 50); ("top", 51); ("left", 6); ("right", 8)]%Q%string
           [("Koeln", [("bottom", 50); ("top", 52); ("left", 6); ("right", 7)]%Q)]%string
           [mk_point 1 50 7; mk_point 1 (101 # 2) 9] [] (mk_bounds 50 51 6 8)).
  - reflexivity.
  - intros p [<- | [<- | []]]; reflexivity.
Defined.

Lemma main_missing_key_witness :
  exists before missing after,
    ["bottom"; "top"; "left"; "right"]%string = before ++ missing :: after
    /\ Forall (fun k => dict_get [("bottom", 50); ("left", 6)]%Q%string k <> None) before
    /\ dict_get [("bottom", 50); ("left", 6)]%Q%string missing = None
    /\ main_loop (ext := equator) 20 [("Bonn", [("bottom", 50); ("left", 6)]%Q)]%string [] []
       = ([], Some (KeyError missing)).
Proof.
  apply (main_missing_key (ext := equator) 20 "Bonn" [("bottom", 50); ("left", 6)]%Q%string
           [] [] [] "right").
  - simpl. tauto.
  - reflexivity.
Defined.

Lemma main_within_budget_witness :
  snd (main_loop (ext := equator) 20
                 [("Bonn", [("bottom", 50); ("top", 51); ("left", 6); ("right", 8)]%Q)]%string
                 [mk_point 1 50 7] [])
  <> Some (Render_raised (SystemExit "ERROR zoom value too high, too many tiles to download")).
Proof.
  apply (main_within_budget (ext := equator)). exact equator_eastward.
Defined.

(** ** After the equalisation *)

Lemma size_of_shape {A} (a : grid A) (h w : Z) : has_shape a h w = true -> size a = h * w.
Proof.
  unfold size, has_shape, zlength. revert h.
  induction a as [|row a IH]; intros h H; apply andb_prop in H; destruct H as [Hh Hw].
  - apply Z.eqb_eq in Hh. simpl in *. lia.
  - simpl in Hw. apply andb_prop in Hw. destruct Hw as [Hrow Hw].
    apply Z.eqb_eq in Hh, Hrow. simpl in *. rewrite length_app.
    specialize (IH (h - 1)). rewrite Hw in IH. rewrite andb_true_r in IH.
    specialize (IH ltac:(apply Z.eqb_eq; lia)). nia.
Qed.

Lemma np_min_some (a : list Q) : 0 < zlength a -> exists lo, np_min a = Some lo.
Proof. destruct a; [unfold zlength; simpl; lia | eexists; reflexivity]. Qed.

Lemma np_max_some (a : list Q) : 0 < zlength a -> exists hi, np_max a = Some hi.
Proof. destruct a; [unfold zlength; simpl; lia | eexists; reflexivity]. Qed.

Lemma values_length (image : grid rgb) : zlength (values image) = 3 * size image.
Proof.
  unfold values, size, zlength. induction (concat image) as [|p l IH]; [reflexivity|].
  cbn [flat_map app length]. rewrite !Nat2Z.inj_succ. lia.
Qed.

(** X19. Once the density is equalised nothing fails any more on a mosaic
    of a tile at least in each direction: the filtered grid has numbers to
    take the minimum and the maximum of, so that line 184 answers (with NaN
    where they coincide), the image that lines 186-195 make of it has the
    shape of the mosaic, and line 197 finds its least and its largest
    number. *)
Theorem render_after_equalize {ext : Externals} (equalized : grid Q) (supertile : grid rgb)
        (ny nx : Z) :
  1 <= ny -> 1 <= nx ->
  has_shape equalized (ny * OSM_TILE_SIZE) (nx * OSM_TILE_SIZE) = true ->
  has_shape supertile (ny * OSM_TILE_SIZE) (nx * OSM_TILE_SIZE) = true ->
  exists normalized lo hi,
    normalize (gaussian_filter equalized (inject_Z sigma_pixel)) = Ok normalized
    /\ has_shape normalized (ny * OSM_TILE_SIZE) (nx * OSM_TILE_SIZE) = true
    /\ has_shape (composite (colorize normalized) supertile)
                 (ny * OSM_TILE_SIZE) (nx * OSM_TILE_SIZE) = true
    /\ np_min (values (composite (colorize normalized) supertile)) = Some lo
    /\ np_max (values (composite (colorize normalized) supertile)) = Some hi.
Proof.
  intros Hy Hx Hdata Hs.
  set (h := ny * OSM_TILE_SIZE) in *. set (w := nx * OSM_TILE_SIZE) in *.
  assert (Hh1 : 1 <= h) by (unfold h, OSM_TILE_SIZE; lia).
  assert (Hw1 : 1 <= w) by (unfold w, OSM_TILE_SIZE; lia).
  pose proof (gaussian_filter_shape _ (inject_Z sigma_pixel) h w Hdata) as Hfiltered.
  destruct (np_min_some (concat (gaussian_filter equalized (inject_Z sigma_pixel)))) as [lo Hlo].
  { fold (size (gaussian_filter equalized (inject_Z sigma_pixel))).
    rewrite (size_of_shape _ h w Hfiltered). nia. }
  destruct (np_max_some (concat (gaussian_filter equalized (inject_Z sigma_pixel)))) as [hi Hhi].
  { fold (size (gaussian_filter equalized (inject_Z sigma_pixel))).
    rewrite (size_of_shape _ h w Hfiltered). nia. }
  destruct (normalize _) as [normalized | e | ] eqn:Enorm;
    try (unfold normalize in Enorm; rewrite Hlo, Hhi in Enorm; discriminate).
  pose proof (normalize_shape _ _ _ _ Enorm Hfiltered) as Hnormalized.
  assert (Himage : has_shape (composite (colorize normalized) supertile) h w = true).
  { apply composite_shape; [|assumption]. now apply colorize_shape. }
  destruct (np_min_some (values (composite (colorize normalized) supertile))) as [lo' Hlo'].
  { rewrite values_length, (size_of_shape _ h w Himage). nia. }
  destruct (np_max_some (values (composite (colorize normalized) supertile))) as [hi' Hhi'].
  { rewrite values_length, (size_of_shape _ h w Himage). nia. }
  exists normalized, lo', hi'. repeat split; assumption.
Qed.

(** The witness of [render_after_equalize]: a flat grid over a gray mosaic of
    one tile; the normalised grid is all NaN and the image is the mosaic. *)
Lemma render_after_equalize_witness :
  exists normalized lo hi,
    normalize (gaussian_filter (ext := equator) (full 256 256 0%Q) (inject_Z sigma_pixel))
    = Ok normalized
    /\ has_shape normalized (1 * OSM_TILE_SIZE) (1 * OSM_TILE_SIZE) = true
    /\ has_shape (composite (colorize (ext := equator) normalized)
                            (full 256 256 (mk_rgb (1 # 2) (1 # 2) (1 # 2))))
                 (1 * OSM_TILE_SIZE) (1 * OSM_TILE_SIZE) = true
    /\ np_min (values (composite (colorize (ext := equator) normalized)
                                 (full 256 256 (mk_rgb (1 # 2) (1 # 2) (1 # 2))))) = Some lo
    /\ np_max (values (composite (colorize (ext := equator) normalized)
                                 (full 256 256 (mk_rgb (1 # 2) (1 # 2) (1 # 2))))) = Some hi.
Proof.
  apply (render_after_equalize (ext := equator) (full 256 256 0%Q)
           (full 256 256 (mk_rgb (1 # 2) (1 # 2) (1 # 2))) 1 1).
  - lia.
  - lia.
  - vm_compute; reflexivity.
  - vm_compute; reflexivity.
Defined.

(** ** The mass of the density *)

Lemma sum_app (l1 l2 : list Q) :
  (fold_right Qplus 0 (l1 ++ l2) == fold_right Qplus 0 l1 + fold_right Qplus 0 l2)%Q.
Proof. induction l1 as [|x l1 IH]; simpl; [ring | rewrite IH; ring]. Qed.

Lemma overlap_step (k n a b : Z) :
  0 <= n ->
  overlap k (n + 1) a b = (if (a <=? k) && (k <? b) then 1 else 0) + overlap (k + 1) n a b.
Proof.
  intros Hn. unfold overlap.
  destruct (Z.leb_spec a k), (Z.ltb_spec k b); cbn [andb]; lia.
Qed.

Lemma overlap_slice_len (len start stop : Z) :
  0 <= len ->
  overlap 0 len (slice_bound len start) (slice_bound len stop) = slice_len len start stop.
Proof.
  intros Hlen. unfold overlap, slice_len, slice_bound.
  destruct (Z.ltb_spec start 0), (Z.ltb_spec stop 0); lia.
Qed.

Lemma row_mass (len c0 c1 : Z) (row : list Q) (k : Z) :
  (fold_right Qplus 0
     (mapi_from (fun c v => if in_slice len c0 c1 c then v + 1 else v) k row)
   == fold_right Qplus 0 row
      + inject_Z (overlap k (zlength row) (slice_bound len c0) (slice_bound len c1)))%Q.
Proof.
  revert k; induction row as [|v row IH]; intros k.
  - simpl. unfold overlap, zlength. simpl.
    replace (Z.max 0 _) with 0 by lia. change (inject_Z 0) with 0%Q. ring.
  - cbn [mapi_from fold_right]. rewrite IH.
    replace (zlength (v :: row)) with (zlength row + 1)
      by (unfold zlength; cbn [length]; lia).
    rewrite overlap_step by (unfold zlength; lia).
    unfold in_slice. rewrite inject_Z_plus.
    destruct (_ && _); [change (inject_Z 1) with 1%Q | change (inject_Z 0) with 0%Q]; ring.
Qed.

Lemma grid_mass (len_r r0 r1 c0 c1 w : Z) (a : grid Q) (k : Z) :
  Forall (fun row => zlength row = w) a ->
  (fold_right Qplus 0
     (concat (mapi_from
                (fun r row =>
                   if in_slice len_r r0 r1 r
                   then mapi (fun c v => if in_slice (zlength row) c0 c1 c then v + 1 else v) row
                   else row) k a))
   == fold_right Qplus 0 (concat a)
      + inject_Z (overlap k (zlength a) (slice_bound len_r r0) (slice_bound len_r r1)
                  * slice_len w c0 c1))%Q.
Proof.
  intros Hw. revert k; induction Hw as [|row a Hrow Ha IH]; intros k.
  - simpl. unfold overlap, zlength. simpl.
    replace (Z.max 0 _) with 0 by lia. change (inject_Z (0 * _)) with 0%Q. ring.
  - cbn [mapi_from concat]. rewrite !sum_app, IH.
    replace (zlength (row :: a)) with (zlength a + 1)
      by (unfold zlength; cbn [length]; lia).
    rewrite overlap_step by (unfold zlength; lia).
    rewrite Z.mul_add_distr_r, inject_Z_plus.
    unfold in_slice at 1. destruct (_ && _).
    + unfold mapi. rewrite row_mass, Hrow.
      rewrite overlap_slice_len by (rewrite <- Hrow; unfold zlength; lia).
      rewrite Z.mul_1_l. ring.
    + rewrite Z.mul_0_l. change (inject_Z 0) with 0%Q. ring.
Qed.

Lemma slice_len_bounds (len i : Z) :
  0 <= len ->
  0 <= slice_len len (i - sigma_pixel) (i + sigma_pixel) <= 2
  /\ (1 <= i < len -> slice_len len (i - sigma_pixel) (i + sigma_pixel) = 2)
  /\ (i = 0 -> len <> 1 -> slice_len len (i - sigma_pixel) (i + sigma_pixel) = 0).
Proof.
  intros Hlen. unfold slice_len, slice_bound, sigma_pixel.
  destruct (Z.ltb_spec (i - 1) 0), (Z.ltb_spec (i + 1) 0); lia.
Qed.

Lemma splat_point_mass (h w : Z) (data : grid Q) (ji : Z * Z) :
  has_shape data h w = true ->
  (grid_sum (splat_point data ji) == grid_sum data + inject_Z (window_area h w ji))%Q.
Proof.
  intros Hs. destruct ji as [j i]. unfold grid_sum, splat_point, update_window, window_area.
  unfold mapi at 1. cbv beta. rewrite (grid_mass _ _ _ _ _ w).
  - rewrite (has_shape_rows _ _ _ Hs).
    rewrite overlap_slice_len
      by (rewrite <- (has_shape_rows _ _ _ Hs); unfold zlength; lia).
    reflexivity.
  - apply Forall_forall. intros row Hrow. now apply (has_shape_row _ _ _ _ Hs).
Qed.

(** X20. The density gains with every point of the track the number of cells
    of its window: the sum of the grid after lines 156-159 is the sum before
    plus the areas of the windows.  A window has 4 cells for a point with
    row in [1, h) and column in [1, w), none for a point of row 0 or of
    column 0 (on an axis longer than one cell), and never more than 4. *)
Theorem splat_mass (h w : Z) (data : grid Q) (xy_data : list (Z * Z)) :
  has_shape data h w = true ->
  (grid_sum (splat data xy_data)
   == grid_sum data + inject_Z (total (map (window_area h w) xy_data)))%Q
  /\ Forall (fun ji => 0 <= window_area h w ji <= 4
                       /\ (1 <= snd ji < h -> 1 <= fst ji < w -> window_area h w ji = 4)
                       /\ (snd ji = 0 /\ h <> 1 \/ fst ji = 0 /\ w <> 1
                           -> window_area h w ji = 0))
            xy_data.
Proof.
  intros Hs.
  assert (Hh : 0 <= h) by (rewrite <- (has_shape_rows _ _ _ Hs); unfold zlength; lia).
  assert (Hw : w < 0 -> h = 0).
  { intros Hneg. destruct data as [|row data].
    - apply has_shape_rows in Hs. unfold zlength in Hs. simpl in Hs. lia.
    - pose proof (has_shape_row _ _ _ row Hs (or_introl eq_refl)) as Hr.
      unfold zlength in Hr. lia. }
  split.
  - revert data Hs. induction xy_data as [|ji xy_data IH]; intros data Hs.
    + simpl. change (inject_Z 0) with 0%Q. ring.
    + cbn [splat fold_left map total fold_right].
      fold (splat (splat_point data ji) xy_data).
      rewrite IH by (destruct ji; now apply update_window_shape).
      fold (total (map (window_area h w) xy_data)).
      rewrite (splat_point_mass h w data ji Hs), inject_Z_plus. ring.
  - apply Forall_forall. intros [j i] _. cbn [fst snd]. unfold window_area.
    destruct (Z.lt_ge_cases w 0) as [Hneg | Hpos].
    + assert (E : slice_len h (i - sigma_pixel) (i + sigma_pixel) = 0).
      { rewrite (Hw Hneg). unfold slice_len, slice_bound.
        destruct (Z.ltb_spec (i - sigma_pixel) 0), (Z.ltb_spec (i + sigma_pixel) 0); lia. }
      rewrite E, Z.mul_0_l. repeat split; lia.
    + destruct (slice_len_bounds h i Hh) as (Hb1 & Hin1 & Hz1).
      destruct (slice_len_bounds w j Hpos) as (Hb2 & Hin2 & Hz2).
      repeat split; nia.
Qed.

Lemma splat_mass_witness :
  let xy_data := [(1, 1); (0, 2)] in
  (grid_sum (splat (full 3 3 0%Q) xy_data)
   == grid_sum (full 3 3 0%Q) + inject_Z (total (map (window_area 3 3) xy_data)))%Q
  /\ Forall (fun ji => 0 <= window_area 3 3 ji <= 4
                       /\ (1 <= snd ji < 3 -> 1 <= fst ji < 3 -> window_area 3 3 ji = 4)
                       /\ (snd ji = 0 /\ 3 <> 1 \/ fst ji = 0 /\ 3 <> 1
                           -> window_area 3 3 ji = 0))
            xy_data.
Proof.
  apply (splat_mass 3 3 (full 3 3 0%Q) [(1, 1); (0, 2)]). reflexivity.
Defined.
